(** * SafariBooks: a shallow embedding of [safaribooks.py]

    The development follows the layout of the program:

    - [Py]        the Python string and list primitives the program calls;
    - [Run]       the state-and-failure monad in which methods of
                  [SafariBooks] and [Display] are written;
    - [Api]       [Display.api_error] and [SafariBooks.get_book_chapters];
    - [Crawler]   [link_replace], [parse_html], [save_page_html], [get];
    - [Assets]    the download workers and [_start_multiprocessing];
    - [Toc]       [parse_toc];
    - [Opf]       [create_content_opf];
    - [Claimed]   what the specification says, where it is compared with
                  the program;
    - [Notions]   the vocabulary of the statements;
    - [Demo]      the inputs of the examples.

    The properties follow, module by module. Strings are [string],
    Python lists are [list], dictionaries and the files on disk are
    [gmap]. What is printed on the terminal is not kept; the lines of the
    log are. *)

From stdpp Require Import gmap strings list pretty.
From Stdlib Require Import Ascii ZArith Lia.

Local Open Scope Z_scope.
Local Open Scope nat_scope.
#[local] Set Warnings "-register-all".

(** ** Python primitives *)

Module Py.

(** The double quote and the line feed, which string literals of this
    file do not spell out. *)
Definition dq : string := String "034"%char "".
Definition nl : string := String "010"%char "".

(** [sub in s] on two [str]. *)
Fixpoint contains (sub s : string) : bool :=
  match s with
  | "" => String.prefix sub ""
  | String _ s' => String.prefix sub s || contains sub s'
  end.

(** [s[0]] raises [IndexError] on the empty string: [None] here. *)
Definition item0 (s : string) : option string :=
  match s with
  | "" => None
  | String c _ => Some (String c "")
  end.

(** [s[-n:]], the last [n] characters, or all of [s] when it is shorter. *)
Definition suffix (n : nat) (s : string) : string :=
  String.substring (String.length s - n) n s.

(** [s.replace(old, new)] for a non-empty [old]: occurrences are
    replaced from left to right and do not overlap; [skip] counts the
    characters of a matched [old] still to be dropped. *)
Fixpoint replace_go (old new : string) (skip : nat) (s : string) : string :=
  match s with
  | "" => ""
  | String c s' =>
      match skip with
      | S k => replace_go old new k s'
      | O =>
          if String.prefix old s
          then new +:+ replace_go old new (String.length old - 1) s'
          else String c (replace_go old new 0 s')
      end
  end.

Definition replace (old new s : string) : string := replace_go old new 0 s.

(** [s.split(sep)] for a one-character separator. The result is never
    empty. *)
Fixpoint split (sep : ascii) (s : string) : list string :=
  match s with
  | "" => [""]
  | String c s' =>
      if decide (c = sep) then "" :: split sep s'
      else match split sep s' with
           | h :: t => String c h :: t
           | [] => [String c ""]
           end
  end.

(** [l[-1]] on the result of a split. *)
Definition last_item (l : list string) : string := default "" (last l).

(** [l[:-1]]. *)
Definition but_last {A} (l : list A) : list A := take (length l - 1) l.

(** ["".join(l)] and [sep.join(l)]. *)
Definition concat (l : list string) : string := foldr String.app "" l.

Fixpoint join (sep : string) (l : list string) : string :=
  match l with
  | [] => ""
  | [x] => x
  | x :: l' => x +:+ sep +:+ join sep l'
  end.

(** [html.escape(s)] with its default [quote=True]. *)
Definition escape_char (c : ascii) : string :=
  if decide (c = "&"%char) then "&amp;"
  else if decide (c = "<"%char) then "&lt;"
  else if decide (c = ">"%char) then "&gt;"
  else if decide (c = "034"%char) then "&quot;"
  else if decide (c = "'"%char) then "&#x27;"
  else String c "".

Fixpoint escape (s : string) : string :=
  match s with
  | "" => ""
  | String c s' => escape_char c +:+ escape s'
  end.

(** [str(n)] for a non-negative [int]. *)
Definition str (n : nat) : string := pretty n.

(** ["{0:0>2}".format(n)]: right-aligned in two columns, filled with
    zeros. *)
Definition zfill2 (n : nat) : string :=
  let s := str n in
  if String.length s <? 2 then "0" +:+ s else s.

(** [l.index(x)]: position of the first element equal to [x];
    [ValueError] ([None]) when there is none. *)
Fixpoint index `{EqDecision A} (x : A) (l : list A) : option nat :=
  match l with
  | [] => None
  | y :: l' => if decide (y = x) then Some 0 else S <$> index x l'
  end.

(** [del l[i]]. *)
Definition del {A} (i : nat) (l : list A) : list A := delete i l.

(** [l[i:j]]. *)
Definition slice {A} (i j : nat) (l : list A) : list A := take (j - i) (drop i l).

(** [range(0, n, step)] for a positive [step]: the multiples of [step]
    below [n]; there are at most [n] of them. *)
Fixpoint range_go (count start n step : nat) : list nat :=
  match count with
  | O => []
  | S count' =>
      if decide (start < n) then start :: range_go count' (start + step) n step
      else []
  end.

Definition range (n step : nat) : list nat := range_go n 0 n step.

(** [os.path.join(a, b)]: an absolute [b] replaces [a]. *)
Definition path_join (a b : string) : string :=
  if String.prefix "/" b then b
  else if bool_decide (a = "") || bool_decide (suffix 1 a = "/") then a +:+ b
  else a +:+ "/" +:+ b.

(** A quoted attribute value. *)
Definition q (s : string) : string := dq +:+ s +:+ dq.

End Py.

(** ** The monad of a run

    A method of the program reads and updates the state it is given and
    either returns, leaves through [Display.exit] (which ends in
    [sys.exit(128)]), or lets a Python exception escape, which the
    installed [sys.excepthook] turns into the same abort. Recursive
    methods take a bound on their depth; [Stalled] is the answer when the
    bound is reached. *)

Module Run.

Inductive exn :=
  | IndexError | KeyError | TypeError | ValueError
  | AttributeError | FileNotFoundError | ZeroDivisionError.

Inductive outcome (A : Type) :=
  | Ret (a : A)
  | Exit (message : string)
  | Raise (e : exn)
  | Stalled.
Arguments Ret {A} a.
Arguments Exit {A} message.
Arguments Raise {A} e.
Arguments Stalled {A}.

Definition M (S A : Type) : Type := S → S * outcome A.

Definition ret {S A} (a : A) : M S A := λ s, (s, Ret a).

Definition bind {S A B} (m : M S A) (k : A → M S B) : M S B :=
  λ s, match m s with
       | (s', Ret a) => k a s'
       | (s', Exit msg) => (s', Exit msg)
       | (s', Raise e) => (s', Raise e)
       | (s', Stalled) => (s', Stalled)
       end.

Definition exit {S A} (message : string) : M S A := λ s, (s, Exit message).
Definition raise {S A} (e : exn) : M S A := λ s, (s, Raise e).
Definition stalled {S A} : M S A := λ s, (s, Stalled).
Definition gets {S A} (f : S → A) : M S A := λ s, (s, Ret (f s)).
Definition modify {S} (f : S → S) : M S unit := λ s, (f s, Ret tt).

(** A partial Python operation: [None] raises [e]. *)
Definition or_raise {S A} (e : exn) (o : option A) : M S A :=
  match o with
  | Some a => ret a
  | None => raise e
  end.

(** A [for] loop whose body may fail. *)
Fixpoint for_each {S A} (l : list A) (body : A → M S unit) : M S unit :=
  match l with
  | [] => ret tt
  | x :: l' => bind (body x) (λ _, for_each l' body)
  end.

(** A run fails when it does not return and was not cut by the bound. *)
Definition failed {A} (o : outcome A) : bool :=
  match o with
  | Exit _ | Raise _ => true
  | Ret _ | Stalled => false
  end.

End Run.
Import Run.

Notation "x <- m ;; k" := (bind m (λ x, k))
  (at level 100, m at next level, right associativity, only parsing).
Notation "m ;; k" := (bind m (λ _, k))
  (at level 100, right associativity, only parsing).

(** ** The content service: [Display.api_error] and [get_book_chapters] *)

Module Api.

(** A record of the flat chapter list: a [dict], of which the program
    reads [title] and [filename]; [c_more] holds its other keys. [==] on
    two records is equality of records. *)
Record chapter := Chapter {
  c_title : string;
  c_filename : string;
  c_more : gmap string string;
}.

#[global] Instance chapter_eq_dec : EqDecision chapter.
Proof. solve_decision. Defined.

(** The JSON values the program meets below the top of a response; an
    array holds chapter objects. *)
Inductive value :=
  | VNull
  | VBool (b : bool)
  | VNum (n : Z)
  | VStr (s : string)
  | VList (l : list chapter).

(** What [response.json()] returns: an object, as a [dict], or any other
    value. [parse_html] also hands [api_error] the [str] [" "]. *)
Inductive response :=
  | RDict (d : gmap string value)
  | RValue (v : value).

(** What [requests_provider] and [json()] give for a URL: the request
    failed ([0] in the program), the body is not JSON, or it is. *)
Inductive reply :=
  | Failed (reason : string)
  | NotJson
  | Json (r : response).

Record env := Env {
  urljoin : string → string → string;
  api_url : string;
  server : string → reply;
  (** [%s] applied to a value that is not a [str] *)
  repr : value → string;
}.

(** The part of the world these methods touch: whether [COOKIES_FILE]
    is on disk, the URLs requested so far, the lines sent to the log. *)
Record session := Session {
  cookies_file : bool;
  asked : list string;
  logged : list string;
}.

Definition set_cookies_file (b : bool) (s : session) : session :=
  Session b (asked s) (logged s).
Definition ask (url : string) (s : session) : session :=
  Session (cookies_file s) (asked s ++ [url]) (logged s).
Definition log (line : string) (s : session) : session :=
  Session (cookies_file s) (asked s) (logged s ++ [line]).

Definition SH_DEFAULT : string := String "027"%char "[0m".
Definition SH_YELLOW : string := String "027"%char "[33m".

(** Truth value of a Python object. *)
Definition truthy (v : value) : bool :=
  match v with
  | VNull => false
  | VBool b => b
  | VNum n => negb (n =? 0)%Z
  | VStr s => negb (bool_decide (s = ""))
  | VList l => negb (bool_decide (l = []))
  end.

(** [%s] formatting. *)
Definition percent_s (E : env) (v : value) : string :=
  match v with
  | VStr s => s
  | _ => repr E v
  end.

(** ["detail" in response] *)
Definition has_detail (r : response) : M session bool :=
  match r with
  | RDict d => ret (bool_decide (is_Some (d !! "detail")))
  | RValue (VStr s) => ret (Py.contains "detail" s)
  | RValue (VList _) => ret false
  | RValue _ => raise TypeError
  end.

(** [response["detail"]] *)
Definition get_detail (r : response) : M session value :=
  match r with
  | RDict d => or_raise KeyError (d !! "detail")
  | RValue _ => raise TypeError
  end.

(** ["Not found" in v] *)
Definition mentions_not_found (v : value) : M session bool :=
  match v with
  | VStr s => ret (Py.contains "Not found" s)
  | VList _ => ret false
  | _ => raise TypeError
  end.

(** [os.remove(COOKIES_FILE)] *)
Definition remove_cookies_file : M session unit :=
  present <- gets cookies_file ;;
  if present then modify (set_cookies_file false)
  else raise FileNotFoundError.

(** [Display.api_error]. The conditional expression of the [else] branch
    binds weaker than [+] and [%]: the hint about [--cred] is only added
    when the response has no detail. *)
Definition api_error (E : env) (r : response) : M session string :=
  let message := "API: " in
  d <- has_detail r ;;
  nf <- (if d then v <- get_detail r ;; mentions_not_found v else ret false) ;;
  if nf then
    ret (message +:+ "book's not present in Safari Books Online." +:+ Py.nl
         +:+ "    The book identifier are the digits that you can find in the URL:" +:+ Py.nl
         +:+ "    `https://www.safaribooksonline.com/library/view/book-name/XXXXXXXXXXXXX/`")
  else
    remove_cookies_file ;;
    d' <- has_detail r ;;
    if d' then
      v <- get_detail r ;;
      ret (message +:+ "Out-of-Session (" +:+ percent_s E v +:+ ")." +:+ Py.nl)
    else
      ret (message +:+ "" +:+ SH_YELLOW +:+ "[+]" +:+ SH_DEFAULT
           +:+ " Use the `--cred` option in order to perform the auth login to Safari Books Online.").

(** [requests_provider]: the request is recorded; a failure is reported
    through [Display.error] and answered by [0]. *)
Definition requests_provider (E : env) (url : string) : M session reply :=
  modify (ask url) ;;
  match server E url with
  | Failed reason => modify (log reason) ;; ret (Failed reason)
  | r => ret r
  end.

(** The URL of a page of the chapter list. *)
Definition chapter_url (E : env) (page : nat) : string :=
  urljoin E (api_url E)
    ("chapter/" +:+ (if decide (page = 0) then "" else "?page=" +:+ Py.str page)).

Definition is_cover (c : chapter) : bool := Py.contains "cover." (c_filename c).

(** [for c in result: del results[results.index(c)]] *)
Fixpoint del_each (result results : list chapter) : M session (list chapter) :=
  match result with
  | [] => ret results
  | c :: result' =>
      i <- or_raise ValueError (Py.index c results) ;;
      del_each result' (Py.del i results)
  end.

Definition no_chapters : string := "API: unable to retrieve book chapters.".

(** [Display.exit]: the error goes to the log, then [sys.exit(128)]. *)
Definition display_exit {A} (message : string) : M session A :=
  modify (log message) ;; exit message.

(** [len(v)] *)
Definition len (v : value) : M session nat :=
  match v with
  | VStr s => ret (String.length s)
  | VList l => ret (length l)
  | _ => raise TypeError
  end.

(** Iterating [response["results"]] and reading [c["filename"]]: the
    characters of a [str] have no such key. *)
Definition records (v : value) : M session (list chapter) :=
  match v with
  | VList l => ret l
  | _ => raise TypeError
  end.

(** [get_book_chapters]; [depth] bounds the number of pages. *)
Fixpoint get_book_chapters (E : env) (depth : nat) (page : nat)
  : M session (list chapter) :=
  match depth with
  | O => stalled
  | S depth' =>
      response <- requests_provider E (chapter_url E page) ;;
      match response with
      | Failed _ => display_exit no_chapters
      | NotJson => raise ValueError
      | Json (RValue v) =>
          message <- api_error E (RValue v) ;; display_exit message
      | Json (RDict d) =>
          if decide (size d = 1) then
            message <- api_error E (RDict d) ;; display_exit message
          else
            match d !! "results" with
            | None => display_exit no_chapters
            | Some v =>
                n <- len v ;;
                if decide (n = 0) then display_exit no_chapters
                else
                  results <- records v ;;
                  let result := filter (λ c, is_cover c = true) results in
                  results' <- del_each result results ;;
                  let result := result ++ results' in
                  next <- or_raise KeyError (d !! "next") ;;
                  if truthy next then
                    more <- get_book_chapters E depth' (page + 1) ;;
                    ret (result ++ more)
                  else ret (result ++ [])
            end
      end
  end.

End Api.

(** ** The crawler: [link_replace], [parse_html], [save_page_html], [get] *)

Module Crawler.
Import Api.

(** The parsed page ([root]) as the XPath queries of [parse_html] see
    it. The content node is the sequence of its text runs and of the
    links [rewrite_links] visits, in document order. *)
Inductive piece :=
  | Text (s : string)
  | Link (target : string).

Record style := Style {
  data_template : option string;
  style_text : string;
}.

Record document := Document {
  (** [//div[@class='controls']/a/text()] *)
  controls : list string;
  (** [//div[@id='sbo-rt-content']] *)
  sbo_rt_content : list (list piece);
  (** [//link[@rel='stylesheet']], each by its [href] attribute *)
  stylesheet_links : list (option string);
  (** [//style] *)
  stylesheets : list style;
}.

Inductive fetched :=
  | Unreachable (reason : string)
  | Unparsable (reason : string)
  | Page (root : document).

Record env := Env {
  urljoin : string → string → string;
  (** [book_info["web_url"]] *)
  base_url : string;
  BOOK_PATH : string;
  fetch : string → fetched;
  (** [random() > 0.5] at the n-th call *)
  random_above_half : nat → bool;
  no_kindle : bool;
  book_chapters : list chapter;
  (** [html.tostring(_, method="xml", encoding='unicode')]; [None] is a
      [ParseError] *)
  tostring_style : style → option string;
  tostring_content : list piece → option string;
  repr : value → string;
}.

Definition api_env (E : env) : Api.env :=
  Api.Env (urljoin E) "" (λ _, NotJson) (repr E).

(** The attributes of [self] the crawl reads and writes, the session,
    and the files on disk (path to contents). *)
Record crawler := Crawler_ {
  sess : session;
  css : list string;
  images : list string;
  chapters_queue : list chapter;
  chapter_title : string;
  filename : string;
  book_ad_info : bool;
  state_status : Z;
  files : gmap string string;
  draws : nat;
}.

Definition set_sess (x : session) (s : crawler) : crawler :=
  Crawler_ x (css s) (images s) (chapters_queue s) (chapter_title s) (filename s)
    (book_ad_info s) (state_status s) (files s) (draws s).
Definition set_css (x : list string) (s : crawler) : crawler :=
  Crawler_ (sess s) x (images s) (chapters_queue s) (chapter_title s) (filename s)
    (book_ad_info s) (state_status s) (files s) (draws s).
Definition set_images (x : list string) (s : crawler) : crawler :=
  Crawler_ (sess s) (css s) x (chapters_queue s) (chapter_title s) (filename s)
    (book_ad_info s) (state_status s) (files s) (draws s).
Definition set_chapters_queue (x : list chapter) (s : crawler) : crawler :=
  Crawler_ (sess s) (css s) (images s) x (chapter_title s) (filename s)
    (book_ad_info s) (state_status s) (files s) (draws s).
Definition set_chapter_title (x : string) (s : crawler) : crawler :=
  Crawler_ (sess s) (css s) (images s) (chapters_queue s) x (filename s)
    (book_ad_info s) (state_status s) (files s) (draws s).
Definition set_filename (x : string) (s : crawler) : crawler :=
  Crawler_ (sess s) (css s) (images s) (chapters_queue s) (chapter_title s) x
    (book_ad_info s) (state_status s) (files s) (draws s).
Definition set_book_ad_info (x : bool) (s : crawler) : crawler :=
  Crawler_ (sess s) (css s) (images s) (chapters_queue s) (chapter_title s) (filename s)
    x (state_status s) (files s) (draws s).
Definition set_state_status (x : Z) (s : crawler) : crawler :=
  Crawler_ (sess s) (css s) (images s) (chapters_queue s) (chapter_title s) (filename s)
    (book_ad_info s) x (files s) (draws s).
Definition set_files (x : gmap string string) (s : crawler) : crawler :=
  Crawler_ (sess s) (css s) (images s) (chapters_queue s) (chapter_title s) (filename s)
    (book_ad_info s) (state_status s) x (draws s).
Definition set_draws (x : nat) (s : crawler) : crawler :=
  Crawler_ (sess s) (css s) (images s) (chapters_queue s) (chapter_title s) (filename s)
    (book_ad_info s) (state_status s) (files s) x.

(** A method of [Display] or of the session, run inside the crawl. *)
Definition in_session {A} (m : M session A) : M crawler A :=
  λ s, let '(x, o) := m (sess s) in (set_sess x s, o).

Definition display_log (line : string) : M crawler unit :=
  in_session (modify (log line)).

Definition display_exit {A} (message : string) : M crawler A :=
  in_session (Api.display_exit message).

(** [link_replace] *)
Definition link_replace (link : string) : M crawler string :=
  first <- or_raise IndexError (Py.item0 link) ;;
  if bool_decide (first = "/")
     && (Py.contains "cover" link || Py.contains "images" link
         || Py.contains "graphics" link
         || bool_decide (Py.suffix 3 link ∈ ["jpg"; "jpeg"; "png"]))
  then
    modify (λ s, set_images (images s ++ [link]) s) ;;
    display_log ("Crawler: found a new image at " +:+ link) ;;
    let image := Py.last_item (Py.split "/" link) in
    ret ("Images/" +:+ image)
  else if bool_decide (first ∉ ["/"; "h"]) then
    ret (Py.replace ".html" ".xhtml" link)
  else ret link.

(** The [<link>] element [parse_html] writes for the n-th stylesheet. *)
Definition stylesheet_tag (n : nat) : string :=
  "<link href=" +:+ Py.q ("Styles/Style" +:+ Py.zfill2 n +:+ ".css")
  +:+ " rel=" +:+ Py.q "stylesheet" +:+ " type=" +:+ Py.q "text/css" +:+ " />" +:+ Py.nl.

(** The absolute URL of a stylesheet reference. *)
Definition css_url (E : env) (href : string) : string :=
  if bool_decide (String.substring 0 2 href = "//")
  then urljoin E "https:" href
  else urljoin E (base_url E) href.

(** The loop of [parse_html] over [stylesheet_links]; it carries
    [stylesheet_count] and [page_css]. *)
Fixpoint link_stylesheets (E : env) (links : list (option string))
    (stylesheet_count : nat) (page_css : string) : M crawler (nat * string) :=
  match links with
  | [] => ret (stylesheet_count, page_css)
  | s :: links' =>
      href <- or_raise KeyError s ;;
      let css_url := css_url E href in
      known <- gets (λ st, bool_decide (css_url ∈ css st)) ;;
      (if known then ret tt
       else modify (λ st, set_css (css st ++ [css_url]) st) ;;
            display_log ("Crawler: found a new CSS at " +:+ css_url)) ;;
      let stylesheet_count := stylesheet_count + 1 in
      link_stylesheets E links' stylesheet_count
        (page_css +:+ stylesheet_tag stylesheet_count)
  end.

Definition where_ (st : crawler) : string :=
  filename st +:+ " (" +:+ chapter_title st +:+ ")".

(** The loop of [parse_html] over the [<style>] elements. *)
Fixpoint inline_styles (E : env) (l : list style) (page_css : string)
  : M crawler string :=
  match l with
  | [] => ret page_css
  | css_ :: l' =>
      let css_ :=
        match data_template css_ with
        | Some t => if bool_decide (t = "") then css_ else Style None t
        | None => css_
        end in
      match tostring_style E css_ with
      | Some text => inline_styles E l' (page_css +:+ text +:+ Py.nl)
      | None =>
          display_log "ParseError" ;;
          w <- gets where_ ;;
          display_exit ("Parser: error trying to parse one CSS found in this page: " +:+ w)
      end
  end.

(** [book_content.rewrite_links(self.link_replace)] *)
Fixpoint rewrite_links (l : list piece) : M crawler (list piece) :=
  match l with
  | [] => ret []
  | Text s :: l' => l'' <- rewrite_links l' ;; ret (Text s :: l'')
  | Link t :: l' =>
      t' <- link_replace t ;;
      l'' <- rewrite_links l' ;;
      ret (Link t' :: l'')
  end.

(** [parse_html] *)
Definition parse_html (E : env) (root : document) : M crawler (string * string) :=
  n <- gets draws ;;
  modify (set_draws (n + 1)) ;;
  (if random_above_half E n && negb (bool_decide (controls root = []))
   then message <- in_session (api_error (api_env E) (RValue (VStr " "))) ;;
        display_exit message
   else ret tt) ;;
  match sbo_rt_content root with
  | [] =>
      w <- gets where_ ;;
      display_exit ("Parser: book content's corrupted or not present: " +:+ w)
  | book_content :: _ =>
      linked <- link_stylesheets E (stylesheet_links root) 0 "" ;;
      let page_css := linked.2 in
      page_css <- inline_styles E (stylesheets root) page_css ;;
      book_content <- rewrite_links book_content ;;
      match tostring_content E book_content with
      | Some xhtml => ret (page_css, xhtml)
      | None =>
          display_log "ParseError" ;;
          w <- gets where_ ;;
          display_exit ("Parser: error trying to parse HTML of this page: " +:+ w)
      end
  end.

(** [requests_provider], as the crawl uses it. *)
Definition requests_provider (E : env) (url : string) : M crawler fetched :=
  in_session (modify (ask url)) ;;
  match fetch E url with
  | Unreachable reason => display_log reason ;; ret (Unreachable reason)
  | r => ret r
  end.

(** [get_html] *)
Definition get_html (E : env) (url : string) : M crawler document :=
  response <- requests_provider E url ;;
  match response with
  | Unreachable _ =>
      w <- gets where_ ;;
      display_exit ("Crawler: error trying to retrieve this page: " +:+ w
                    +:+ Py.nl +:+ "    From: " +:+ url)
  | Unparsable parsing_error =>
      display_log parsing_error ;;
      w <- gets where_ ;;
      display_exit ("Crawler: error trying to parse this page: " +:+ w
                    +:+ Py.nl +:+ "    From: " +:+ url)
  | Page root => ret root
  end.

Definition KINDLE_HTML : string :=
  "#sbo-rt-content *{word-wrap:break-word!important;"
  +:+ "word-break:break-word!important;}#sbo-rt-content table,#sbo-rt-content pre"
  +:+ "{overflow-x:unset!important;overflow:unset!important;"
  +:+ "overflow-y:unset!important;white-space:pre-wrap!important;}".

(** [self.BASE_HTML.format(contents[0], contents[1])] *)
Definition BASE_HTML (E : env) (page_css xhtml : string) : string :=
  "<!DOCTYPE html>" +:+ Py.nl
  +:+ "<html lang=" +:+ Py.q "en" +:+ " xml:lang=" +:+ Py.q "en"
  +:+ " xmlns=" +:+ Py.q "http://www.w3.org/1999/xhtml"
  +:+ " xmlns:xsi=" +:+ Py.q "http://www.w3.org/2001/XMLSchema-instance"
  +:+ " xsi:schemaLocation="
  +:+ Py.q "http://www.w3.org/2002/06/xhtml2/ http://www.w3.org/MarkUp/SCHEMA/xhtml2.xsd"
  +:+ " xmlns:epub=" +:+ Py.q "http://www.idpf.org/2007/ops" +:+ ">" +:+ Py.nl
  +:+ "<head>" +:+ Py.nl
  +:+ page_css +:+ Py.nl
  +:+ "<style type=" +:+ Py.q "text/css" +:+ ">"
  +:+ "body{background-color:#fbfbfb!important;margin:1em;}"
  +:+ "#sbo-rt-content *{text-indent:0pt!important;}"
  +:+ (if no_kindle E then "" else KINDLE_HTML)
  +:+ "</style>" +:+ "</head>" +:+ Py.nl
  +:+ "<body>" +:+ xhtml +:+ "</body>" +:+ Py.nl +:+ "</html>".

(** The path of a file of the [OEBPS] directory. *)
Definition oebps (E : env) (name : string) : string :=
  Py.path_join (Py.path_join (BOOK_PATH E) "OEBPS") name.

(** [save_page_html] *)
Definition save_page_html (E : env) (contents : string * string) : M crawler unit :=
  modify (λ s, set_filename (Py.replace ".html" ".xhtml" (filename s)) s) ;;
  name <- gets filename ;;
  modify (λ s, set_files (<[oebps E name := BASE_HTML E contents.1 contents.2]> (files s)) s) ;;
  display_log ("Created: " +:+ name).

(** [Display.state]: the progress shown only ever grows. The bar it
    draws goes to the terminal and is not kept. *)
Definition display_state (origin done : Z) : M crawler unit :=
  if decide (origin = 0)%Z then raise ZeroDivisionError
  else
    let progress := (done * 100 ÷ origin)%Z in
    shown <- gets state_status ;;
    if decide (shown < progress)%Z then modify (set_state_status progress)
    else ret tt.

Definition already_exists (E : env) (name : string) : string :=
  "File `" +:+ name +:+ "` already exists." +:+ Py.nl
  +:+ "    If you want to download again all the book"
  +:+ (if no_kindle E then " (especially because you selected the `--no-kindle` option)" else "")
  +:+ "," +:+ Py.nl
  +:+ "    please delete the `<BOOK NAME>/OEBPS/*.xhtml` files and restart the program.".

(** [get]; [depth] bounds the number of chapters handled. *)
Fixpoint get (E : env) (depth : nat) : M crawler unit :=
  match depth with
  | O => stalled
  | S depth' =>
      queue <- gets chapters_queue ;;
      match queue with
      | [] => ret tt
      | next_chapter :: queue' =>
          modify (set_chapters_queue queue') ;;
          modify (set_chapter_title (c_title next_chapter)) ;;
          modify (set_filename (c_filename next_chapter)) ;;
          let target := Py.replace ".html" ".xhtml" (c_filename next_chapter) in
          on_disk <- gets files ;;
          (if bool_decide (is_Some (on_disk !! oebps E target)) then
             told <- gets book_ad_info ;;
             if told then ret tt
             else
               i <- or_raise ValueError (Py.index next_chapter (book_chapters E)) ;;
               if bool_decide (next_chapter ∉ take i (book_chapters E)) then
                 display_log (already_exists E target) ;;
                 modify (set_book_ad_info true)
               else ret tt
           else
             root <- get_html E (urljoin E (base_url E) (c_filename next_chapter)) ;;
             contents <- parse_html E root ;;
             save_page_html E contents) ;;
          left <- gets chapters_queue ;;
          display_state (Z.of_nat (length (book_chapters E)))
            (Z.of_nat (length (book_chapters E)) - Z.of_nat (length left)) ;;
          get E depth'
      end
  end.

(** The crawl as [__init__] starts it. *)
Definition crawl (E : env) (depth : nat) : M crawler unit :=
  modify (set_chapters_queue (book_chapters E)) ;;
  get E depth.

End Crawler.

(** ** The asset fetcher: the two workers and [_start_multiprocessing] *)

Module Assets.

(** What the parent process does with a worker. *)
Inductive event :=
  | Started (arg : string)
  | Joined (arg : string).

#[global] Instance event_eq_dec : EqDecision event.
Proof. solve_decision. Defined.

(** What [requests_provider] obtains for an asset: [0] after a request
    that failed, or a response whose body [iter_content] yields in
    chunks. *)
Inductive download :=
  | Failed (reason : string)
  | Body (chunks : list string).

Record env := Env {
  urljoin : string → string → string;
  (** [self.css] and [self.images], as the crawl left them *)
  css : list string;
  images : list string;
  css_path : string;
  images_path : string;
  remote : string → download;
}.

Definition BASE_URL : string := "https://www.safaribooksonline.com".

(** The world of the download phase: the files on disk, the two
    advisory flags and the progress value (all three shared between
    processes), the size of [done_queue], the error flag of the running
    process, the log, the requests made and what the parent did. *)
Record depot := Depot {
  files : gmap string string;
  css_ad_info : bool;
  images_ad_info : bool;
  state_status : Z;
  done_queue : nat;
  in_error : bool;
  logged : list string;
  asked : list string;
  events : list event;
}.

Definition set_files (x : gmap string string) (s : depot) : depot :=
  Depot x (css_ad_info s) (images_ad_info s) (state_status s) (done_queue s)
    (in_error s) (logged s) (asked s) (events s).
Definition set_css_ad_info (x : bool) (s : depot) : depot :=
  Depot (files s) x (images_ad_info s) (state_status s) (done_queue s)
    (in_error s) (logged s) (asked s) (events s).
Definition set_images_ad_info (x : bool) (s : depot) : depot :=
  Depot (files s) (css_ad_info s) x (state_status s) (done_queue s)
    (in_error s) (logged s) (asked s) (events s).
Definition set_state_status (x : Z) (s : depot) : depot :=
  Depot (files s) (css_ad_info s) (images_ad_info s) x (done_queue s)
    (in_error s) (logged s) (asked s) (events s).
Definition set_done_queue (x : nat) (s : depot) : depot :=
  Depot (files s) (css_ad_info s) (images_ad_info s) (state_status s) x
    (in_error s) (logged s) (asked s) (events s).
Definition set_in_error (x : bool) (s : depot) : depot :=
  Depot (files s) (css_ad_info s) (images_ad_info s) (state_status s) (done_queue s)
    x (logged s) (asked s) (events s).
Definition set_logged (x : list string) (s : depot) : depot :=
  Depot (files s) (css_ad_info s) (images_ad_info s) (state_status s) (done_queue s)
    (in_error s) x (asked s) (events s).
Definition set_asked (x : list string) (s : depot) : depot :=
  Depot (files s) (css_ad_info s) (images_ad_info s) (state_status s) (done_queue s)
    (in_error s) (logged s) x (events s).
Definition set_events (x : list event) (s : depot) : depot :=
  Depot (files s) (css_ad_info s) (images_ad_info s) (state_status s) (done_queue s)
    (in_error s) (logged s) (asked s) x.

(** [Display.info] *)
Definition display_info (message : string) : M depot unit :=
  modify (λ s, set_logged (logged s ++ [message]) s).

(** [Display.error] *)
Definition display_error (error : string) : M depot unit :=
  modify (set_in_error true) ;;
  modify (λ s, set_logged (logged s ++ [error]) s).

(** [Display.state] *)
Definition display_state (origin done : Z) : M depot unit :=
  if decide (origin = 0)%Z then raise ZeroDivisionError
  else
    let progress := (done * 100 ÷ origin)%Z in
    shown <- gets state_status ;;
    if decide (shown < progress)%Z then modify (set_state_status progress)
    else ret tt.

(** [requests_provider(url, update_cookies=False)] *)
Definition requests_provider (E : env) (url : string) : M depot download :=
  modify (λ s, set_asked (asked s ++ [url]) s) ;;
  match remote E url with
  | Failed reason => display_error reason ;; ret (Failed reason)
  | r => ret r
  end.

(** [with open(path, 'wb') as f: for chunk in response.iter_content(1024):
    f.write(chunk)]. The file is created empty; the [int] [0] has no
    [iter_content]. *)
Definition stream_to (path : string) (response : download) : M depot unit :=
  modify (λ s, set_files (<[path := ""]> (files s)) s) ;;
  match response with
  | Failed _ => raise AttributeError
  | Body chunks =>
      for_each chunks (λ chunk,
        modify (λ s, set_files (alter (λ written, written +:+ chunk) path (files s)) s))
  end.

Definition cached (what name clean : string) : string :=
  "File `" +:+ name +:+ "` already exists." +:+ Py.nl
  +:+ "    If you want to download again all the " +:+ what +:+ "," +:+ Py.nl
  +:+ "    please delete the `<BOOK NAME>/OEBPS/*.xhtml` and `<BOOK NAME>/OEBPS/"
  +:+ clean +:+ "/*`" +:+ " files and restart the program.".

(** [_thread_download_css] *)
Definition _thread_download_css (E : env) (url : string) : M depot unit :=
  i <- or_raise ValueError (Py.index url (css E)) ;;
  let css_file := Py.path_join (css_path E) ("Style" +:+ Py.zfill2 i +:+ ".css") in
  on_disk <- gets files ;;
  (if bool_decide (is_Some (on_disk !! css_file)) then
     told <- gets css_ad_info ;;
     if negb told && bool_decide (url ∉ take i (css E)) then
       display_info (cached "CSSs" css_file "Styles") ;;
       modify (set_css_ad_info true)
     else ret tt
   else
     response <- requests_provider E url ;;
     (match response with
      | Failed _ =>
          display_error ("Error trying to retrieve this CSS: " +:+ css_file
                         +:+ Py.nl +:+ "    From: " +:+ url)
      | Body _ => ret tt
      end) ;;
     stream_to css_file response) ;;
  modify (λ s, set_done_queue (done_queue s + 1) s) ;;
  done <- gets done_queue ;;
  display_state (Z.of_nat (length (css E))) (Z.of_nat done).

(** [_thread_download_images] *)
Definition _thread_download_images (E : env) (url : string) : M depot unit :=
  let image_name := Py.last_item (Py.split "/" url) in
  let image_path := Py.path_join (images_path E) image_name in
  on_disk <- gets files ;;
  (if bool_decide (is_Some (on_disk !! image_path)) then
     told <- gets images_ad_info ;;
     if told then ret tt
     else
       i <- or_raise ValueError (Py.index url (images E)) ;;
       if bool_decide (url ∉ take i (images E)) then
         display_info (cached "images" image_name "Images") ;;
         modify (set_images_ad_info true)
       else ret tt
   else
     response <- requests_provider E (urljoin E BASE_URL url) ;;
     (match response with
      | Failed _ =>
          display_error ("Error trying to retrieve this image: " +:+ image_name
                         +:+ Py.nl +:+ "    From: " +:+ url)
      | Body _ => ret tt
      end) ;;
     stream_to image_path response) ;;
  modify (λ s, set_done_queue (done_queue s + 1) s) ;;
  done <- gets done_queue ;;
  display_state (Z.of_nat (length (images E))) (Z.of_nat done).

(** A [multiprocessing.Process] running [operation(arg, done_queue)].
    The child works on the shared files, log, flags and queue; how it
    ends (return, exit or exception) stays in the child, and so does what
    it wrote to its own copy of [Display.in_error]. Here a child runs to
    its end as soon as it is started. *)
Definition process (operation : string → M depot unit) (arg : string) : M depot unit :=
  λ s, let '(s', _) := operation arg s in (set_in_error (in_error s) s', Ret tt).

(** [proc.start()] and [proc.join()] *)
Definition start (operation : string → M depot unit) (arg : string) : M depot unit :=
  modify (λ s, set_events (events s ++ [Started arg]) s) ;;
  process operation arg.

Definition join (arg : string) : M depot unit :=
  modify (λ s, set_events (events s ++ [Joined arg]) s).

(** [_start_multiprocessing]. [done_queue] tells whether the caller
    passed a queue; [depth] bounds the nesting of calls. *)
Fixpoint _start_multiprocessing (depth : nat) (operation : string → M depot unit)
    (full_queue : list string) (done_queue : bool) : M depot unit :=
  match depth with
  | O => stalled
  | S depth' =>
      (if done_queue then ret tt else modify (set_done_queue 0)) ;;
      if decide (5 < length full_queue) then
        for_each (Py.range (length full_queue) 5) (λ i,
          _start_multiprocessing depth' operation (Py.slice i (i + 5) full_queue) true)
      else
        for_each full_queue (start operation) ;;
        for_each full_queue join
  end.

End Assets.

(** ** The navigation builder: [parse_toc] *)

Module Toc.

(** A node of the table of contents the service returns. *)
Inductive toc :=
  | Node (id fragment label href : string) (depth : Z) (children : list toc).

Definition navPoint_open (ident : string) (c : nat) (label href : string) : string :=
  "<navPoint id=" +:+ Py.q ident +:+ " playOrder=" +:+ Py.q (Py.str c) +:+ ">"
  +:+ "<navLabel><text>" +:+ Py.escape label +:+ "</text></navLabel>"
  +:+ "<content src=" +:+ Py.q (Py.replace ".html" ".xhtml" href) +:+ "/>".

Definition navPoint_close : string := "</navPoint>" +:+ Py.nl.

Section Loop.
Variable visit : toc → nat → Z → string * nat * Z.

(** The [for cc in l] loop, over what is done for one node. *)
Fixpoint for_nodes (l : list toc) (r : string) (c : nat) (mx : Z) : string * nat * Z :=
  match l with
  | [] => (r, c, mx)
  | cc :: l' =>
      let '(r', c', mx') := visit cc c mx in
      for_nodes l' (r +:+ r') c' mx'
  end.
End Loop.

(** The body of the loop of [parse_toc] for the node [cc]: what it
    appends to [r], and the new [c] and [mx]. *)
Fixpoint parse_node (cc : toc) (c : nat) (mx : Z) : string * nat * Z :=
  match cc with
  | Node id fragment label href depth children =>
      let c := c + 1 in
      let mx := if decide (depth > mx)%Z then depth else mx in
      let r := navPoint_open (if decide (String.length fragment = 0) then id else fragment)
                 c label href in
      let '(sr, c, mx) :=
        match children with
        | [] => ("", c, mx)
        | _ => for_nodes parse_node children "" c mx
        end in
      (r +:+ sr +:+ navPoint_close, c, mx)
  end.

(** [parse_toc(l, c, mx)]; the program calls it with [c = 0], [mx = 0]. *)
Definition parse_toc (l : list toc) (c : nat) (mx : Z) : string * nat * Z :=
  for_nodes parse_node l "" c mx.

(** The navigation structure the markup stands for: a node with its
    [playOrder]. *)
Inductive nav :=
  | NavPoint (ident : string) (playOrder : nat) (label src : string) (children : list nav).

Section NavLoop.
Variable visit : toc → nat → nav * nat.

Fixpoint number_nodes (l : list toc) (c : nat) : list nav * nat :=
  match l with
  | [] => ([], c)
  | cc :: l' =>
      let '(n, c') := visit cc c in
      let '(ns, c'') := number_nodes l' c' in
      (n :: ns, c'')
  end.
End NavLoop.

Fixpoint number_node (cc : toc) (c : nat) : nav * nat :=
  match cc with
  | Node id fragment label href depth children =>
      let c := c + 1 in
      let '(ns, c') := number_nodes number_node children c in
      (NavPoint (if decide (String.length fragment = 0) then id else fragment) c
         (Py.escape label) (Py.replace ".html" ".xhtml" href) ns, c')
  end.

(** The tree of navigation points of a table of contents, numbered
    from [c + 1]. *)
Definition flatten (l : list toc) (c : nat) : list nav := (number_nodes number_node l c).1.

Fixpoint render (n : nav) : string :=
  match n with
  | NavPoint ident playOrder label src children =>
      "<navPoint id=" +:+ Py.q ident +:+ " playOrder=" +:+ Py.q (Py.str playOrder) +:+ ">"
      +:+ "<navLabel><text>" +:+ label +:+ "</text></navLabel>"
      +:+ "<content src=" +:+ Py.q src +:+ "/>"
      +:+ Py.concat (map render children) +:+ navPoint_close
  end.

(** The nodes in the order of their opening tags. *)
Fixpoint nodes_of (cc : toc) : list toc :=
  match cc with
  | Node _ _ _ _ _ children => cc :: flat_map nodes_of children
  end.

Fixpoint points_of (n : nav) : list nav :=
  match n with
  | NavPoint _ _ _ _ children => n :: flat_map points_of children
  end.

Definition depth_of (cc : toc) : Z := match cc with Node _ _ _ _ d _ => d end.
Definition fragment_of (cc : toc) : string := match cc with Node _ f _ _ _ _ => f end.
Definition id_of (cc : toc) : string := match cc with Node i _ _ _ _ _ => i end.
Definition playOrder_of (n : nav) : nat := match n with NavPoint _ p _ _ _ => p end.
Definition ident_of (n : nav) : string := match n with NavPoint i _ _ _ _ => i end.

(** The identifier of the navigation point of a node: its fragment, or
    its own id when the fragment is empty. *)
Definition written_id (cc : toc) : string :=
  if decide (String.length (fragment_of cc) = 0) then id_of cc else fragment_of cc.

(** What the body of the loop does for a node, told on the numbered
    tree. *)
Definition visit_ok (cc : toc) : Prop :=
  ∀ c mx,
    parse_node cc c mx
    = (render (number_node cc c).1, c + length (nodes_of cc),
       foldl Z.max mx (depth_of <$> nodes_of cc))
    ∧ (number_node cc c).2 = c + length (nodes_of cc)
    ∧ playOrder_of <$> points_of (number_node cc c).1
      = seq (c + 1) (length (nodes_of cc))
    ∧ ident_of <$> points_of (number_node cc c).1 = written_id <$> nodes_of cc.

(** The tree of the specification's example. *)
Definition example : list toc :=
  [Node "a" "" "A" "a.html" 1 [Node "b" "sec" "B" "a.html" 2 []];
   Node "c" "" "C" "c.html" 1 []].

End Toc.

(** ** The package assembler: [create_content_opf] *)

Module Opf.
Import Api.

(** The fields of [book_info] the package document uses; authors,
    subjects and publishers by their [name]. *)
Record info := Info {
  isbn : string;
  title : string;
  authors : list string;
  description : string;
  subjects : list string;
  publishers : list string;
  rights : string;
}.

Record env := Env {
  book_id : string;
  book_info : info;
  (** [next(os.walk(self.css_path))[2]] and the same for the images: the
      names of the files of the two directories *)
  styles_listing : list string;
  images_listing : list string;
}.

(** The attributes of [self] the method reads and writes. *)
Record package := Package {
  cover : string;
  css : list string;
  images : list string;
  book_chapters : list chapter;
}.

Definition set_cover (x : string) (s : package) : package :=
  Package x (css s) (images s) (book_chapters s).
Definition set_css (x : list string) (s : package) : package :=
  Package (cover s) x (images s) (book_chapters s).
Definition set_images (x : list string) (s : package) : package :=
  Package (cover s) (css s) x (book_chapters s).
Definition set_book_chapters (x : list chapter) (s : package) : package :=
  Package (cover s) (css s) (images s) x.

(** The eleven arguments of [CONTENT_OPF.format]. *)
Record fields := Fields {
  f_id : string;
  f_title : string;
  f_authors : string;
  f_description : string;
  f_subjects : string;
  f_publisher : string;
  f_rights : string;
  f_cover_id : string;
  f_manifest : string;
  f_spine : string;
  f_cover_url : string;
}.

(** [CONTENT_OPF.format(...)] *)
Definition CONTENT_OPF (a : fields) : string :=
  "<?xml version=" +:+ Py.q "1.0" +:+ " encoding=" +:+ Py.q "UTF-8" +:+ "?>" +:+ Py.nl
  +:+ "<package xmlns=" +:+ Py.q "http://www.idpf.org/2007/opf"
  +:+ " unique-identifier=" +:+ Py.q "bookid" +:+ " version=" +:+ Py.q "2.0" +:+ " >" +:+ Py.nl
  +:+ "<metadata xmlns:dc=" +:+ Py.q "http://purl.org/dc/elements/1.1/" +:+ " "
  +:+ " xmlns:opf=" +:+ Py.q "http://www.idpf.org/2007/opf" +:+ ">" +:+ Py.nl
  +:+ "<dc:title>" +:+ f_title a +:+ "</dc:title>" +:+ Py.nl
  +:+ f_authors a +:+ Py.nl
  +:+ "<dc:description>" +:+ f_description a +:+ "</dc:description>" +:+ Py.nl
  +:+ f_subjects a
  +:+ "<dc:publisher>" +:+ f_publisher a +:+ "</dc:publisher>" +:+ Py.nl
  +:+ "<dc:rights>" +:+ f_rights a +:+ "</dc:rights>" +:+ Py.nl
  +:+ "<dc:language>en-US</dc:language>" +:+ Py.nl
  +:+ "<dc:identifier id=" +:+ Py.q "bookid" +:+ ">" +:+ f_id a +:+ "</dc:identifier>" +:+ Py.nl
  +:+ "<meta name=" +:+ Py.q "cover" +:+ " content=" +:+ Py.q (f_cover_id a) +:+ "/>" +:+ Py.nl
  +:+ "</metadata>" +:+ Py.nl
  +:+ "<manifest>" +:+ Py.nl
  +:+ "<item id=" +:+ Py.q "ncx" +:+ " href=" +:+ Py.q "toc.ncx"
  +:+ " media-type=" +:+ Py.q "application/x-dtbncx+xml" +:+ " />" +:+ Py.nl
  +:+ f_manifest a +:+ Py.nl
  +:+ "</manifest>" +:+ Py.nl
  +:+ "<spine toc=" +:+ Py.q "ncx" +:+ ">" +:+ Py.nl +:+ f_spine a +:+ "</spine>" +:+ Py.nl
  +:+ "<guide><reference href=" +:+ Py.q (f_cover_url a) +:+ " title=" +:+ Py.q "Cover"
  +:+ " type=" +:+ Py.q "cover" +:+ " /></guide>" +:+ Py.nl
  +:+ "</package>".

(** ["".join(name.split(".")[:-1])] *)
Definition stem (name : string) : string :=
  Py.concat (Py.but_last (Py.split "." name)).

(** The manifest entry and the spine entry of a chapter, after its
    [filename] was renamed. *)
Definition rename (c : chapter) : chapter :=
  Chapter (c_title c) (Py.replace ".html" ".xhtml" (c_filename c)) (c_more c).

Definition item_id (c : chapter) : string := Py.escape (stem (c_filename c)).

Definition chapter_item (c : chapter) : string :=
  "<item id=" +:+ Py.q (item_id c) +:+ " href=" +:+ Py.q (c_filename c)
  +:+ " media-type=" +:+ Py.q "application/xhtml+xml" +:+ " />".

Definition chapter_itemref (c : chapter) : string :=
  "<itemref idref=" +:+ Py.q (item_id c) +:+ "/>".

(** The manifest entry of an image file, and its identifier [head]. *)
Definition image_head (i : string) : string :=
  "img_" +:+ Py.escape (Py.concat (Py.but_last (Py.split "." i))).

Definition image_item (i : string) : string :=
  let extension := Py.last_item (Py.split "." i) in
  "<item id=" +:+ Py.q (image_head i) +:+ " href=" +:+ Py.q ("Images/" +:+ i)
  +:+ " media-type="
  +:+ Py.q ("image/" +:+ (if Py.contains "jp" extension then "jpeg" else extension))
  +:+ " />".

(** [alt_cover_id] through the loop over the images: [False] ([None])
    until an image gives it its [head]. *)
Fixpoint alt_cover (alt_cover_id : option string) (l : list string) : option string :=
  match l with
  | [] => alt_cover_id
  | i :: l' =>
      alt_cover
        (match alt_cover_id with
         | Some h => if bool_decide (h = "") then Some (image_head i) else Some h
         | None => Some (image_head i)
         end) l'
  end.

Definition style_item (i : nat) : string :=
  "<item id=" +:+ Py.q ("style_" +:+ Py.zfill2 i)
  +:+ " href=" +:+ Py.q ("Styles/Style" +:+ Py.zfill2 i +:+ ".css")
  +:+ " media-type=" +:+ Py.q "text/css" +:+ " />".

Definition creator (name : string) : string :=
  "<dc:creator opf:file-as=" +:+ Py.q (Py.escape name) +:+ " opf:role=" +:+ Py.q "aut" +:+ ">"
  +:+ Py.escape name +:+ "</dc:creator>".

Definition subject (name : string) : string :=
  "<dc:subject>" +:+ Py.escape name +:+ "</dc:subject>".

(** [self.cover if self.cover else alt_cover_id], as [format] prints it. *)
Definition cover_id (cover : string) (alt_cover_id : option string) : string :=
  if bool_decide (cover = "") then
    match alt_cover_id with
    | Some h => h
    | None => "False"
    end
  else cover.

(** The arguments [create_content_opf] computes. *)
Definition content_opf_fields (E : env) : M package fields :=
  discovered <- gets images ;;
  modify (set_cover (match discovered with [] => "" | first :: _ => first end)) ;;
  modify (set_css (styles_listing E)) ;;
  modify (set_images (images_listing E)) ;;
  modify (λ s, set_book_chapters (map rename (book_chapters s)) s) ;;
  chapters <- gets book_chapters ;;
  listed <- gets images ;;
  sheets <- gets css ;;
  the_cover <- gets cover ;;
  let manifest :=
    map chapter_item chapters ++ map image_item listed
    ++ map style_item (seq 1 (length sheets)) in
  let spine := map chapter_itemref chapters in
  let alt_cover_id := alt_cover None listed in
  first <- or_raise IndexError (head chapters) ;;
  ret (Fields
         (if decide (String.length (isbn (book_info E)) = 0) then book_id E
          else isbn (book_info E))
         (Py.escape (title (book_info E)))
         (Py.join Py.nl (map creator (authors (book_info E))))
         (Py.escape (description (book_info E)))
         (Py.join Py.nl (map subject (subjects (book_info E))))
         (Py.join ", " (map Py.escape (publishers (book_info E))))
         (Py.escape (rights (book_info E)))
         (cover_id the_cover alt_cover_id)
         (Py.join Py.nl manifest)
         (Py.join Py.nl spine)
         (Py.replace ".html" ".xhtml" (c_filename first))).

(** [create_content_opf] *)
Definition create_content_opf (E : env) : M package string :=
  a <- content_opf_fields E ;;
  ret (CONTENT_OPF a).

(** The image entries of the manifest, by identifier. *)
Definition image_entries (s : package) : list string := map image_head (images s).

End Opf.

(** ** The behaviour the specification describes

    Definitions written from the words of the specification, to be
    compared with the program's. *)

Module Claimed.

(** *** The link rewriter of the specification *)

Definition root_relative (link : string) : bool := String.prefix "/" link.

Definition mentions_image (link : string) : bool :=
  Py.contains "cover" link || Py.contains "images" link || Py.contains "graphics" link.

(** The extension of a reference: what follows its last dot. *)
Definition extension (link : string) : string := Py.last_item (Py.split "." link).

Definition image_reference (link : string) : bool :=
  root_relative link
  && (mentions_image link || bool_decide (extension link ∈ ["jpg"; "jpeg"; "png"])).

(** An absolute URL starts with a scheme: a letter, then letters, digits,
    [+], [-] or [.], then a colon. *)
Definition is_alpha (c : ascii) : bool :=
  let n := nat_of_ascii c in
  (65 <=? n) && (n <=? 90) || (97 <=? n) && (n <=? 122).

Definition scheme_char (c : ascii) : bool :=
  let n := nat_of_ascii c in
  is_alpha c || (48 <=? n) && (n <=? 57)
  || bool_decide (c = "+"%char) || bool_decide (c = "-"%char) || bool_decide (c = "."%char).

Fixpoint scheme_rest (s : string) : bool :=
  match s with
  | "" => false
  | String c s' => if decide (c = ":"%char) then true else scheme_char c && scheme_rest s'
  end.

Definition has_scheme (link : string) : bool :=
  match link with
  | "" => false
  | String c s' => is_alpha c && scheme_rest s'
  end.

Definition local_page_reference (link : string) : bool :=
  negb (root_relative link) && negb (has_scheme link).

(** The source page extension rewritten to the package's. *)
Definition to_package_extension (link : string) : string :=
  if bool_decide (Py.suffix 5 link = ".html")
  then String.substring 0 (String.length link - 5) link +:+ ".xhtml"
  else link.

(** The three-way classification: whether the reference is recorded as
    an image, and what it is rewritten to. *)
Definition link_rewriter (link : string) : bool * string :=
  if image_reference link then (true, "Images/" +:+ Py.last_item (Py.split "/" link))
  else if local_page_reference link then (false, to_package_extension link)
  else (false, link).

(** *** Stylesheet numbering of the specification: the position of the
    URL in the discovery order, counted from one. *)
Definition stylesheet_number (discovered : list string) (url : string) : option nat :=
  S <$> Py.index url discovered.

End Claimed.

(** ** Vocabulary of the statements *)

Module Notions.
Import Api Crawler.

(** What the guard of [link_replace] asks of a root-relative reference:
    a keyword, or [jpg] or [png] as last three characters. *)
Definition hinted (link : string) : bool :=
  Py.contains "cover" link || Py.contains "images" link || Py.contains "graphics" link
  || bool_decide (Py.suffix 3 link = "jpg") || bool_decide (Py.suffix 3 link = "png").

(** The crawler after an image reference was recorded. *)
Definition recorded (link : string) (s : crawler) : crawler :=
  set_sess (log ("Crawler: found a new image at " +:+ link) (sess s))
    (set_images (images s ++ [link]) s).

(** A page of the chapter list the program can use: an object with
    other than one key, whose [results] is a non-empty array and which
    has a [next]. *)
Definition well_formed (r : reply) (results : list chapter) (next : value) : Prop :=
  ∃ d, r = Json (RDict d) ∧ size d ≠ 1
       ∧ d !! "results" = Some (VList results) ∧ results ≠ []
       ∧ d !! "next" = Some next.

Definition usable (r : reply) : Prop := ∃ results next, well_formed r results next.

(** A usable page that announces a next one. *)
Definition continuing (r : reply) : Prop :=
  ∃ results next, well_formed r results next ∧ truthy next = true.

(** What the service answers for a page of the chapter list. *)
Definition page (E : Api.env) (i : nat) : reply := server E (chapter_url E i).

(** The records of a page, those of a cover first, each group in the
    order of the page. *)
Definition cover_first (results : list chapter) : list chapter :=
  filter (λ c, is_cover c = true) results ++ filter (λ c, is_cover c ≠ true) results.

(** The pages from [p] on are usable, each announces the next, and the
    last one does not. *)
Fixpoint pages_from (E : Api.env) (p : nat) (pages : list (list chapter)) : Prop :=
  match pages with
  | [] => False
  | results :: more =>
      ∃ next, well_formed (page E p) results next
              ∧ match more with
                | [] => truthy next = false
                | _ => truthy next = true ∧ pages_from E (S p) more
                end
  end.

(** What follows a usable page. *)
Definition after_page (E : Api.env) (depth p : nat) (s : session)
    (results : list chapter) (next : value) : session * outcome (list chapter) :=
  if truthy next then
    let r := get_book_chapters E depth (p + 1) (ask (chapter_url E p) s) in
    (r.1, match r.2 with
          | Ret more => Ret (cover_first results ++ more)
          | Exit m => Exit m
          | Raise e => Raise e
          | Stalled => Stalled
          end)
  else (ask (chapter_url E p) s, Ret (cover_first results)).

(** The file of a chapter in the package. *)
Definition target (E : Crawler.env) (c : chapter) : string :=
  oebps E (Py.replace ".html" ".xhtml" (c_filename c)).

(** What the crawl leaves alone when it passes over a chapter: the
    files, the requests made, the discovery lists. *)
Definition untouched (s s' : crawler) : Prop :=
  Crawler.files s' = Crawler.files s ∧ asked (sess s') = asked (sess s)
  ∧ Crawler.css s' = Crawler.css s ∧ Crawler.images s' = Crawler.images s.

(** The batches [_start_multiprocessing] makes of a queue. *)
Definition batches (full_queue : list string) : list (list string) :=
  if decide (5 < length full_queue)
  then (λ i, Py.slice i (i + 5) full_queue) <$> Py.range (length full_queue) 5
  else [full_queue].

(** What the parent does for a batch: it starts every worker, then
    joins every worker. *)
Definition schedule (batch : list string) : list Assets.event :=
  (Assets.Started <$> batch) ++ (Assets.Joined <$> batch).

(** The number of workers started and not yet joined at the end of a
    trace. *)
Definition in_flight (trace : list Assets.event) : Z :=
  foldr (λ e n, match e with
                | Assets.Started _ => n + 1
                | Assets.Joined _ => n - 1
                end)%Z 0%Z trace.

(** The depot after a worker was started, after it was joined, and
    after a whole batch. *)
Definition started (operation : string → M Assets.depot unit) (s : Assets.depot)
    (arg : string) : Assets.depot :=
  (Assets.start operation arg s).1.

Definition joined (s : Assets.depot) (arg : string) : Assets.depot :=
  (Assets.join arg s).1.

Definition batch_done (operation : string → M Assets.depot unit) (s : Assets.depot)
    (batch : list string) : Assets.depot :=
  foldl joined (foldl (started operation) s batch) batch.

(** The file a worker writes for a URL. *)
Definition css_file (E : Assets.env) (i : nat) : string :=
  Py.path_join (Assets.css_path E) ("Style" +:+ Py.zfill2 i +:+ ".css").

Definition image_path (E : Assets.env) (url : string) : string :=
  Py.path_join (Assets.images_path E) (Py.last_item (Py.split "/" url)).

(** What a response leaves in the file it is streamed to. *)
Definition content (response : Assets.download) : string :=
  match response with
  | Assets.Failed _ => ""
  | Assets.Body chunks => Py.concat chunks
  end.

(** The lines a worker reports when its request failed. *)
Definition css_error (E : Assets.env) (i : nat) (url : string) : string :=
  "Error trying to retrieve this CSS: " +:+ css_file E i +:+ Py.nl +:+ "    From: " +:+ url.

Definition image_error (url : string) : string :=
  "Error trying to retrieve this image: " +:+ Py.last_item (Py.split "/" url)
  +:+ Py.nl +:+ "    From: " +:+ url.

(** The depot after the request for an asset failed, as the worker
    leaves it: the request and the two error lines are recorded, the
    error flag of the worker is up, the file is there and empty. *)
Definition failed_fetch (path url reason error : string) (s : Assets.depot)
  : Assets.depot :=
  Assets.set_files (<[path := ""]> (Assets.files s))
    (Assets.set_logged (Assets.logged s ++ [reason; error])
       (Assets.set_in_error true (Assets.set_asked (Assets.asked s ++ [url]) s))).

(** A worker that leaves the trace of the parent alone and does not
    touch a file that is already there. *)
Definition careful (operation : string → M Assets.depot unit) : Prop :=
  ∀ arg s,
    Assets.events (operation arg s).1 = Assets.events s
    ∧ ∀ path x, Assets.files s !! path = Some x →
                Assets.files (operation arg s).1 !! path = Some x.

(** The stylesheet URLs known after those of a page were seen: a URL
    not yet known is appended. *)
Definition discover (known urls : list string) : list string :=
  foldl (λ known u, if bool_decide (u ∈ known) then known else known ++ [u]) known urls.

End Notions.

(** ** States and inputs of the examples *)

Module Demo.
Import Api.

Definition session0 : session := Session true [] [].

(** The crawler as [__init__] creates it. *)
Definition crawler0 : Crawler.crawler :=
  Crawler.Crawler_ session0 [] [] [] "" "" false 0 ∅ 0.

(** [urljoin] on the references of the examples: an absolute URL is
    kept, a relative path is appended to a base that ends with a slash. *)
Definition urljoin (base url : string) : string :=
  if Claimed.has_scheme url then url else base +:+ url.

Definition sheet_a : string := "https://cdn.example/a.css".
Definition sheet_b : string := "https://cdn.example/b.css".

(** Two chapters that share the stylesheet [sheet_b]. *)
Definition chapter_one : Crawler.document :=
  Crawler.Document [] [[Crawler.Text "one"]] [Some sheet_a; Some sheet_b] [].
Definition chapter_two : Crawler.document :=
  Crawler.Document [] [[Crawler.Text "two"]] [Some sheet_b] [].

Definition show_piece (p : Crawler.piece) : string :=
  match p with
  | Crawler.Text s => s
  | Crawler.Link t => t
  end.

Definition book : list chapter :=
  [Chapter "One" "ch01.html" ∅; Chapter "Two" "ch02.html" ∅].

Definition crawl_env (fetch : string → Crawler.fetched) : Crawler.env :=
  Crawler.Env urljoin "https://www.safaribooksonline.com/library/view/book/1/"
    "/books/Book" fetch (λ _, false) false book
    (λ s, Some ("<style>" +:+ Crawler.style_text s +:+ "</style>"))
    (λ l, Some (Py.concat (map show_piece l)))
    (λ _, "").

Definition offline : Crawler.env := crawl_env (λ _, Crawler.Unreachable "offline").

(** A second run: both chapters of [book] are on disk. *)
Definition resumed : Crawler.crawler :=
  Crawler.Crawler_ session0 [] [] [] "" "" false 0
    {[ "/books/Book/OEBPS/ch01.xhtml" := "first"; "/books/Book/OEBPS/ch02.xhtml" := "second" ]}
    0.

(** The download phase: the first stylesheet cannot be fetched. *)
Definition depot0 : Assets.depot := Assets.Depot ∅ false false (-1) 0 false [] [] [].

Definition unreachable_sheet : Assets.env :=
  Assets.Env urljoin [sheet_a; sheet_b] ["/library/img/x.png"]
    "/books/Book/OEBPS/Styles" "/books/Book/OEBPS/Images"
    (λ url, if bool_decide (url = sheet_a) then Assets.Failed "Connection refused"
            else Assets.Body ["bo"; "dy"]).

Definition twelve : list string := (λ n, "u" +:+ Py.str n) <$> seq 0 12.

(** A book without images, on its first run: nothing was discovered,
    and the [Images] directory is empty. *)
Definition metadata : Opf.info :=
  Opf.Info "9781449367817" "A Book" ["An Author"] "About" ["Things"] ["A Press"] "All rights".

Definition no_image : Opf.env := Opf.Env "1234" metadata ["Style00.css"] [].

(** The same book resumed, with two images left by an earlier run. *)
Definition old_images : Opf.env :=
  Opf.Env "1234" metadata ["Style00.css"] ["cover.jpg"; "fig.1.png"].

Definition package0 : Opf.package := Opf.Package "" [sheet_a] [] book.

(** A service whose chapter list has two pages. *)
Definition api_base : string := "https://www.safaribooksonline.com/api/v1/book/1/".

Definition service (first second : reply) : Api.env :=
  Api.Env urljoin api_base
    (λ url, if bool_decide (url = api_base +:+ "chapter/") then first else second)
    (λ _, "").

Definition ch (name : string) : chapter := Chapter name (name +:+ ".html") ∅.

Definition two_pages : Api.env :=
  service
    (Json (RDict {[ "results" := VList [ch "a"; ch "cover."; ch "b"];
                    "next" := VStr (api_base +:+ "chapter/?page=2") ]}))
    (Json (RDict {[ "results" := VList [ch "c"]; "next" := VNull ]})).

(** The second page is an object with two keys and no record. *)
Definition empty_second_page : Api.env :=
  service
    (Json (RDict {[ "results" := VList [ch "a"];
                    "next" := VStr (api_base +:+ "chapter/?page=2") ]}))
    (Json (RDict {[ "results" := VList []; "next" := VNull ]})).

End Demo.

(** ** The book record: [get_book_info] *)

Module Info.
Import Api.

Definition no_info : string := "API: unable to retrieve book info.".

(** [get_book_info]: the object the service answers, without its
    [last_chapter_read]. *)
Definition get_book_info (E : env) : M session (gmap string value) :=
  response <- requests_provider E (api_url E) ;;
  match response with
  | Failed _ => display_exit no_info
  | NotJson => raise ValueError
  | Json (RValue v) =>
      message <- api_error E (RValue v) ;; display_exit message
  | Json (RDict d) =>
      if decide (size d = 1) then
        message <- api_error E (RDict d) ;; display_exit message
      else
        ret (if bool_decide (is_Some (d !! "last_chapter_read"))
             then delete "last_chapter_read" d else d)
  end.

End Info.

(** ** The navigation document: [create_toc] *)

Module Ncx.
Import Api.

(** What [response.json()] returns for the table of contents: an array
    of nodes, an object, or a value that is neither (null, a number, a
    boolean, a string). *)
Inductive toc_response :=
  | TList (l : list Toc.toc)
  | TDict (d : gmap string value)
  | TOther.

Inductive reply :=
  | Failed (reason : string)
  | NotJson
  | Json (r : toc_response).

Record env := Env {
  api : Api.env;
  toc_server : string → reply;
  book_id : string;
  book_info : Opf.info;
}.

Definition requests_provider (E : env) (url : string) : M session reply :=
  modify (ask url) ;;
  match toc_server E url with
  | Failed reason => modify (log reason) ;; ret (Failed reason)
  | r => ret r
  end.

Definition run_again : string :=
  " Don't delete any files, just run again this program"
  +:+ " in order to complete the `.epub` creation!".

Definition no_toc : string :=
  "API: unable to retrieve book chapters. "
  +:+ "Don't delete any files, just run again this program"
  +:+ " in order to complete the `.epub` creation!".

(** [TOC_NCX.format(id, depth, title, author, navmap)] *)
Definition TOC_NCX (id depth title author navmap : string) : string :=
  "<?xml version=" +:+ Py.q "1.0" +:+ " encoding=" +:+ Py.q "UTF-8"
  +:+ " standalone=" +:+ Py.q "no" +:+ " ?>"
  +:+ "<!DOCTYPE ncx PUBLIC " +:+ Py.q "-//NISO//DTD ncx 2005-1//EN"
  +:+ " " +:+ Py.q "http://www.daisy.org/z3986/2005/ncx-2005-1.dtd" +:+ ">"
  +:+ "<ncx xmlns=" +:+ Py.q "http://www.daisy.org/z3986/2005/ncx/"
  +:+ " version=" +:+ Py.q "2005-1" +:+ ">"
  +:+ "<head>"
  +:+ "<meta content=" +:+ Py.q ("ID:ISBN:" +:+ id) +:+ " name=" +:+ Py.q "dtb:uid" +:+ "/>"
  +:+ "<meta content=" +:+ Py.q depth +:+ " name=" +:+ Py.q "dtb:depth" +:+ "/>"
  +:+ "<meta content=" +:+ Py.q "0" +:+ " name=" +:+ Py.q "dtb:totalPageCount" +:+ "/>"
  +:+ "<meta content=" +:+ Py.q "0" +:+ " name=" +:+ Py.q "dtb:maxPageNumber" +:+ "/>"
  +:+ "</head>"
  +:+ "<docTitle><text>" +:+ title +:+ "</text></docTitle>"
  +:+ "<docAuthor><text>" +:+ author +:+ "</text></docAuthor>"
  +:+ "<navMap>" +:+ navmap +:+ "</navMap>"
  +:+ "</ncx>".

(** [self.parse_toc(response)]: the loop over an object runs over its
    keys, and a key, a [str], has no item ["depth"]. *)
Definition parse_response (r : toc_response) : M session (string * nat * Z) :=
  match r with
  | TList l => ret (Toc.parse_toc l 0 0)
  | TDict d => if decide (size d = 0) then ret ("", 0, 0%Z) else raise TypeError
  | TOther => raise TypeError
  end.

(** [create_toc]. The guard reads
    [not isinstance(response, list) and len(response.keys()) == 1]: a
    value that is neither an array nor an object has no [keys]. *)
Definition create_toc (E : env) : M session string :=
  response <- requests_provider E (urljoin (api E) (api_url (api E)) "toc/") ;;
  match response with
  | Failed _ => display_exit no_toc
  | NotJson => raise ValueError
  | Json response =>
      (match response with
       | TList _ => ret tt
       | TDict d =>
           if decide (size d = 1) then
             message <- api_error (api E) (RDict d) ;;
             display_exit (message +:+ run_again)
           else ret tt
       | TOther => raise AttributeError
       end) ;;
      parsed <- parse_response response ;;
      let '(navmap, _, max_depth) := parsed in
      ret (TOC_NCX
             (if decide (String.length (Opf.isbn (book_info E)) = 0) then book_id E
              else Opf.isbn (book_info E))
             (pretty max_depth)
             (Opf.title (book_info E))
             (Py.join ", " (Opf.authors (book_info E)))
             navmap)
  end.

End Ncx.

(** ** Logging in: [do_login] *)

Module Login.
Import Api.

(** What the home page gives: the request failed, the page cannot be
    parsed, or it was parsed and
    [//input[@name='csrfmiddlewaretoken'][@value]] selects these inputs,
    each by its [value]. *)
Inductive home_page :=
  | NoHome (reason : string)
  | BadHome (parsing_error : string)
  | Home (csrf : list string).

(** The page that comes with a login that was not accepted: the texts
    of [//ul[@class='errorlist']//li] and the number of
    [//div[@class='g-recaptcha']]. *)
Inductive error_page :=
  | BadPage (parsing_error : string)
  | Errors (errors_message : list string) (recaptcha : nat).

Inductive answer :=
  | NoAnswer (reason : string)
  | Answer (status_code : Z) (page : error_page).

Record env := Env {
  home : home_page;
  (** the answer to the form posted with this token, e-mail and
      password *)
  login : string → string → string → answer;
}.

Definition BASE_URL : string := "https://www.safaribooksonline.com".
Definition LOGIN_URL : string := BASE_URL +:+ "/accounts/login/".

Definition no_home : string := "Login: unable to reach Safari Books Online. Try again...".
Definition bad_home : string :=
  "Login: error trying to parse the home of Safari Books Online.".
Definition no_token : string :=
  "Login: no CSRF Token found in the page."
  +:+ " Unable to continue the login." +:+ " Try again...".
Definition no_answer : string :=
  "Login: unable to perform auth to Safari Books Online." +:+ Py.nl +:+ "    Try again...".
Definition bad_page : string :=
  "Login: your login went wrong and it encountered in an error"
  +:+ " trying to parse the login details of Safari Books Online. Try again...".

(** The lines shown for a login that was not accepted. *)
Definition messages (errors_message : list string) (recaptcha : nat) : list string :=
  (if decide (length errors_message = 0) then []
   else (λ error, "    `" +:+ error +:+ "`")
        <$> filter (λ error, Py.contains "password" error = true
                             ∨ Py.contains "email" error = true) errors_message)
  ++ (if decide (recaptcha = 0) then []
      else ["    `ReCaptcha required (wait or do logout from the website).`"]).

Definition refused (errors_message : list string) (recaptcha : nat) : string :=
  let messages := messages errors_message recaptcha in
  "Login: unable to perform auth login to Safari Books Online." +:+ Py.nl
  +:+ SH_YELLOW +:+ "[*]" +:+ SH_DEFAULT +:+ " Details:" +:+ Py.nl
  +:+ Py.join Py.nl (if decide (length messages = 0) then ["    Unexpected error!"]
                     else messages).

(** [do_login] *)
Definition do_login (E : env) (email password : string) : M session unit :=
  modify (ask BASE_URL) ;;
  match home E with
  | NoHome reason => modify (log reason) ;; display_exit no_home
  | BadHome parsing_error => modify (log parsing_error) ;; display_exit bad_home
  | Home csrf =>
      (if decide (length csrf = 0) then display_exit no_token else ret tt) ;;
      csrf <- or_raise IndexError (head csrf) ;;
      modify (ask LOGIN_URL) ;;
      match login E csrf email password with
      | NoAnswer reason => modify (log reason) ;; display_exit no_answer
      | Answer status_code page =>
          if decide (status_code ≠ 302)%Z then
            match page with
            | BadPage parsing_error => modify (log parsing_error) ;; display_exit bad_page
            | Errors errors_message recaptcha =>
                display_exit (refused errors_message recaptcha)
            end
          else ret tt
      end
  end.

(** A credential with its single quotes, then its double quotes,
    replaced by nothing. *)
Definition unquote (c : string) : string := Py.replace Py.dq "" (Py.replace "'" "" c).

(** [do_login] as [__init__] calls it: on the credentials, each without
    its quotes. *)
Definition login_with (E : env) (cred : list string) : M session unit :=
  match unquote <$> cred with
  | [email; password] => do_login E email password
  | _ => raise TypeError
  end.

End Login.

(** ** The command line: the checks made before the run starts *)

Module Cli.

(** The parsed arguments; [cred] is [None] when the option was not
    given ([False], its default). *)
Record args := Args {
  cred : option string;
  no_cookies : bool;
  no_kindle : bool;
  log : bool;
  bookid : string;
}.

Definition bad_option : string :=
  "invalid option: `--no-cookies` is valid only if you use the `--cred` option".

Section Main.
(** [str.isdigit] *)
Variable isdigit : string → bool.

(** The checks of the main program. [arguments.error] ends the program
    with its message ([inl]); otherwise the run starts with the
    credentials split in two, if any ([inr]). *)
Definition check (a : args) : string + option (list string) :=
  let checked_cred :=
    match cred a with
    | Some given =>
        if bool_decide (given = "") then
          if no_cookies a then inl bad_option else inr None
        else
          let cred := Py.split ":" given in
          if negb (length cred =? 2) || negb (Py.contains "@" (default "" (head cred)))
          then inl ("invalid credential: " +:+ given)
          else inr (Some cred)
    | None =>
        if no_cookies a then inl bad_option else inr None
    end in
  match checked_cred with
  | inl message => inl message
  | inr cred =>
      if negb (isdigit (bookid a)) then inl ("invalid book id: " +:+ bookid a)
      else inr cred
  end.
End Main.

End Cli.

(** ** Vocabulary of the further properties *)

Module Terms.
Import Api Crawler.

(** Every run of [m] takes a state to one related to it by [R], however
    the run ends. *)
Definition preserves {S A} (R : relation S) (m : M S A) : Prop :=
  ∀ s, R s (m s).1.

(** The stylesheets known only grow at the end, and no URL comes to be
    listed twice. *)
Definition css_grows (s s' : crawler) : Prop :=
  css s `prefix_of` css s' ∧ (NoDup (css s) → NoDup (css s')).

(** What fetching and parsing a page leave alone. *)
Definition same_chapter (s s' : crawler) : Prop :=
  files s' = files s ∧ filename s' = filename s
  ∧ chapter_title s' = chapter_title s ∧ chapters_queue s' = chapters_queue s
  ∧ book_ad_info s' = book_ad_info s ∧ state_status s' = state_status s.

(** The links of a content node, in document order. *)
Definition links (l : list piece) : list string :=
  omap (λ p, match p with Link t => Some t | Text _ => None end) l.

(** A reference [link_replace] takes for an image. *)
Definition image_link (link : string) : bool :=
  String.prefix "/" link && Notions.hinted link.

(** A piece and what [rewrite_links] makes of it: a text is kept, a link
    becomes what [link_replace] returns for it. *)
Definition rewritten_as (p p' : piece) : Prop :=
  match p, p' with
  | Text a, Text b => a = b
  | Link t, Link t' => ∀ s, (link_replace t s).2 = Ret t'
  | _, _ => False
  end.

(** The crawler after the image references [l] were recorded, one after
    the other. *)
Definition all_recorded (l : list string) (s : crawler) : crawler :=
  foldl (λ s link, Notions.recorded link s) s l.

(** What [api_error] answers to a response without detail. *)
Definition use_cred : string :=
  "API: " +:+ "" +:+ SH_YELLOW +:+ "[+]" +:+ SH_DEFAULT
  +:+ " Use the `--cred` option in order to perform the auth login to Safari Books Online.".

(** The name of the file of a stylesheet. *)
Definition style_name (i : nat) : string := "Style" +:+ Py.zfill2 i +:+ ".css".

(** A name without its dots. *)
Fixpoint undotted (s : string) : string :=
  match s with
  | "" => ""
  | String c s' => if decide (c = "."%char) then undotted s' else String c (undotted s')
  end.

(** The files of the stylesheets the download phase is to fetch. *)
Definition styles (E : Assets.env) (path : string) : Prop :=
  ∃ i, i < length (Assets.css E) ∧ path = Notions.css_file E i.

(** Outside the paths [P] the files are as before. *)
Definition only_at (P : string → Prop) (s s' : Assets.depot) : Prop :=
  ∀ path, ¬ P path → Assets.files s' !! path = Assets.files s !! path.

(** When the files on disk are as [P] asks, the run changes no file and
    makes no request. *)
Definition at_rest (P : gmap string string → Prop) (s s' : Assets.depot) : Prop :=
  P (Assets.files s) → Assets.files s' = Assets.files s ∧ Assets.asked s' = Assets.asked s.

(** The file of every stylesheet, and of every image, is on disk. *)
Definition styles_on_disk (E : Assets.env) (on_disk : gmap string string) : Prop :=
  ∀ url i, Py.index url (Assets.css E) = Some i → is_Some (on_disk !! Notions.css_file E i).

Definition images_on_disk (E : Assets.env) (on_disk : gmap string string) : Prop :=
  ∀ url, url ∈ Assets.images E → is_Some (on_disk !! Notions.image_path E url).

(** The progress shown did not go back. *)
Definition progress_kept (s s' : Assets.depot) : Prop :=
  (Assets.state_status s ≤ Assets.state_status s')%Z.

Definition crawl_progress_kept (s s' : crawler) : Prop :=
  (state_status s ≤ state_status s')%Z.

(** A reply told again with another [next], as true or as false as the
    one it had. *)
Definition retold (r r' : reply) : Prop :=
  r' = r
  ∨ ∃ d v v', r = Json (RDict d) ∧ d !! "next" = Some v ∧ truthy v = truthy v'
              ∧ r' = Json (RDict (<["next" := v']> d)).

(** The requests made so far are as before. *)
Definition asked_same (s s' : crawler) : Prop := asked (sess s') = asked (sess s).

(** The address a chapter is fetched from. *)
Definition chapter_page (E : Crawler.env) (c : chapter) : string :=
  urljoin E (base_url E) (c_filename c).

(** The chapters of a queue that have to be fetched, given the paths
    that are on disk: a chapter whose file is there is passed over, and
    the file of a chapter that was fetched is there from then on. *)
Fixpoint to_fetch (E : Crawler.env) (present : gset string) (queue : list chapter)
  : list chapter :=
  match queue with
  | [] => []
  | c :: queue' =>
      if bool_decide (Notions.target E c ∈ present) then to_fetch E present queue'
      else c :: to_fetch E ({[Notions.target E c]} ∪ present) queue'
  end.

(** A page without its controls. *)
Definition without_controls (root : document) : document :=
  Document [] (sbo_rt_content root) (stylesheet_links root) (stylesheets root).

End Terms.

(** ** Further inputs of the examples *)

Module Inputs.
Import Api.

(** Every chapter can be fetched. *)
Definition online : Crawler.env :=
  Demo.crawl_env (λ _, Crawler.Page Demo.chapter_one).

(** A page that shows the controls of a visitor, with a link to an
    image and a link to the next chapter. *)
Definition signed_out : Crawler.document :=
  Crawler.Document ["Sign In"]
    [[Crawler.Text "one"; Crawler.Link "/library/cover.png"; Crawler.Link "ch02.html"]]
    [Some Demo.sheet_a] [].

(** The draw of [random] is above one half at every page. *)
Definition suspicious : Crawler.env :=
  Crawler.Env Demo.urljoin "https://www.safaribooksonline.com/library/view/book/1/"
    "/books/Book" (λ _, Crawler.Page signed_out) (λ _, true) false Demo.book
    (λ s, Some ("<style>" +:+ Crawler.style_text s +:+ "</style>"))
    (λ l, Some (Py.concat (map Demo.show_piece l)))
    (λ _, "").

(** The download phase of a second run: the files of the two
    stylesheets and of the image of [Demo.unreachable_sheet] are on
    disk. *)
Definition stocked : Assets.depot :=
  Assets.Depot
    {[ "/books/Book/OEBPS/Styles/Style00.css" := "a";
       "/books/Book/OEBPS/Styles/Style01.css" := "b";
       "/books/Book/OEBPS/Images/x.png" := "image" ]}
    false false (-1) 0 false [] [] [].

End Inputs.


(** * Properties *)

(** ** Python primitives *)

Module PyFacts.

Lemma prefix_char (c : ascii) (s : string) :
  String.prefix (String c "") s = true ↔ ∃ s', s = String c s'.
Proof.
  destruct s as [|b s]; simpl.
  - split; [done | intros [? ?]; done].
  - destruct (ascii_dec c b) as [->|Hne]; simpl.
    + split; [eauto | by destruct s].
    + split; [done | intros [? [= ? ?]]; done].
Qed.

Lemma contains_char_cons (sep c : ascii) (s : string) :
  Py.contains (String sep "") (String c s)
  = bool_decide (sep = c) || Py.contains (String sep "") s.
Proof.
  simpl. destruct (ascii_dec sep c); case_bool_decide; simpl; try congruence.
  by destruct s.
Qed.

Lemma contains_char_app (sep : ascii) (a b : string) :
  Py.contains (String sep "") (a +:+ String sep b) = true.
Proof.
  induction a as [|c a IH].
  - simpl. destruct (ascii_dec sep sep); [by destruct b | done].
  - change (String c a +:+ String sep b) with (String c (a +:+ String sep b)).
    rewrite contains_char_cons, IH. apply orb_true_r.
Qed.

(** The last item of a split carries no separator, and the string is
    that item or ends with a separator followed by it. *)
Lemma split_shape (sep : ascii) (s : string) :
  (Py.split sep s = [s] ∧ Py.contains (String sep "") s = false)
  ∨ (∃ h t dir, Py.split sep s = h :: t ∧ t ≠ [] ∧
       s = dir +:+ String sep (Py.last_item (h :: t)) ∧
       Py.contains (String sep "") (Py.last_item (h :: t)) = false).
Proof.
  induction s as [|c s IH].
  - left. done.
  - simpl Py.split. destruct (decide (c = sep)) as [->|Hne].
    + right. destruct IH as [[-> Hno]|(h & t & dir & -> & Ht & Hs & Hno)].
      * exists "", [s], "". split_and!; done.
      * exists "", (h :: t), (String sep dir). split_and!; try done.
        change ((String sep dir) +:+ ?x) with (String sep (dir +:+ x)).
        by f_equal.
    + destruct IH as [[-> Hno]|(h & t & dir & -> & Ht & Hs & Hno)].
      * left. split; [done|]. rewrite contains_char_cons, Hno.
        case_bool_decide; naive_solver.
      * right. exists (String c h), t, (String c dir).
        assert (Py.last_item (String c h :: t) = Py.last_item (h :: t)) as ->
          by (unfold Py.last_item; by destruct t).
        split_and!; try done.
        change ((String c dir) +:+ ?x) with (String c (dir +:+ x)).
        by f_equal.
Qed.

Lemma last_segment (sep : ascii) (s : string) :
  Py.contains (String sep "") s = true →
  ∃ dir, s = dir +:+ String sep (Py.last_item (Py.split sep s))
         ∧ Py.contains (String sep "") (Py.last_item (Py.split sep s)) = false.
Proof.
  intros Hs. destruct (split_shape sep s) as [[_ Hno]|(h & t & dir & -> & _ & ? & ?)].
  - congruence.
  - eauto.
Qed.

Lemma substring_length (n m : nat) (s : string) :
  String.length (String.substring n m s) ≤ m.
Proof.
  revert n m. induction s as [|c s IH]; intros [|n] [|m]; simpl; try lia.
  - specialize (IH 0 m). lia.
  - apply IH.
  - apply IH.
Qed.

Lemma app_cons (x : ascii) (a b : string) : String x a +:+ b = String x (a +:+ b).
Proof. reflexivity. Qed.

Lemma app_nil_l (a : string) : "" +:+ a = a.
Proof. reflexivity. Qed.

Lemma app_assoc (a b c : string) : (a +:+ b) +:+ c = a +:+ b +:+ c.
Proof. induction a as [|x a IH]; [done|]. by rewrite !app_cons, IH. Qed.

Lemma app_nil_r (a : string) : a +:+ "" = a.
Proof. induction a as [|x a IH]; [done|]. by rewrite app_cons, IH. Qed.

Lemma app_length (a b : string) :
  String.length (a +:+ b) = String.length a + String.length b.
Proof. induction a as [|x a IH]; [done|]. rewrite app_cons. cbn. by rewrite IH. Qed.

Lemma suffix_length (n : nat) (s : string) : String.length (Py.suffix n s) ≤ n.
Proof. apply substring_length. Qed.

Lemma index_first `{EqDecision A} (x : A) (pre post : list A) :
  (∀ y, y ∈ pre → y ≠ x) → Py.index x (pre ++ x :: post) = Some (length pre).
Proof.
  induction pre as [|y pre IH]; intros Hpre; cbn.
  - by rewrite decide_True.
  - rewrite decide_False by (apply Hpre; left).
    rewrite IH; [done|]. intros z Hz. apply Hpre. by right.
Qed.

Lemma index_elem `{EqDecision A} (x : A) (l : list A) :
  x ∈ l → ∃ i, Py.index x l = Some i ∧ x ∉ take i l.
Proof.
  induction l as [|y l IH]; [by intros ?%elem_of_nil|].
  intros Hx. cbn. destruct (decide (y = x)) as [->|Hne].
  - exists 0. split; [done | apply not_elem_of_nil].
  - apply elem_of_cons in Hx as [->|Hx]; [done|].
    destruct (IH Hx) as (i & -> & Hi). exists (S i). split; [done|].
    cbn. intros [->|?]%elem_of_cons; done.
Qed.

Example primitives_examples :
  Py.contains "cover" "/a/cover.png" = true
  ∧ Py.replace ".html" ".xhtml" "a.html#b.html" = "a.xhtml#b.xhtml"
  ∧ Py.split "/" "/a/b" = [""; "a"; "b"]
  ∧ Py.suffix 3 "/a/b.jpeg" = "peg"
  ∧ Py.zfill2 7 = "07" ∧ Py.zfill2 12 = "12" ∧ Py.zfill2 123 = "123"
  ∧ Py.escape "a<b&c" = "a&lt;b&amp;c"
  ∧ Py.range 12 5 = [0; 5; 10]
  ∧ Py.path_join "/books/Book" "OEBPS" = "/books/Book/OEBPS".
Proof. by vm_compute. Qed.

End PyFacts.

(** ** The link rewriter *)

Module LinkFacts.
Import Api Crawler Notions.

(** The three-character tail of a reference is never [jpeg]. *)
Lemma tail_not_jpeg (link : string) : Py.suffix 3 link ≠ "jpeg".
Proof.
  intros H. pose proof (PyFacts.suffix_length 3 link) as Hlen.
  rewrite H in Hlen. simpl in Hlen. lia.
Qed.

Lemma guard_hinted (link : string) :
  Py.contains "cover" link || Py.contains "images" link || Py.contains "graphics" link
  || bool_decide (Py.suffix 3 link ∈ ["jpg"; "jpeg"; "png"]) = hinted link.
Proof.
  unfold hinted. pose proof (tail_not_jpeg link) as Hj.
  rewrite <- !orb_assoc. do 3 f_equal.
  rewrite <- bool_decide_or. apply bool_decide_ext.
  rewrite !elem_of_cons, elem_of_nil. tauto.
Qed.

Lemma link_replace_image (rest : string) (s : crawler) :
  hinted (String "/" rest) = true →
  link_replace (String "/" rest) s
  = (recorded (String "/" rest) s,
     Ret ("Images/" +:+ Py.last_item (Py.split "/" (String "/" rest)))).
Proof.
  intros Hh. unfold link_replace, bind, or_raise, Py.item0, ret. cbv beta iota.
  rewrite guard_hinted, Hh. done.
Qed.

Lemma link_replace_root (rest : string) (s : crawler) :
  hinted (String "/" rest) = false →
  link_replace (String "/" rest) s = (s, Ret (String "/" rest)).
Proof.
  intros Hh. unfold link_replace, bind, or_raise, Py.item0, ret. cbv beta iota.
  rewrite guard_hinted, Hh. done.
Qed.

Lemma link_replace_h (rest : string) (s : crawler) :
  link_replace (String "h" rest) s = (s, Ret (String "h" rest)).
Proof. done. Qed.

Lemma link_replace_other (c : ascii) (rest : string) (s : crawler) :
  c ≠ "/"%char → c ≠ "h"%char →
  link_replace (String c rest) s
  = (s, Ret (Py.replace ".html" ".xhtml" (String c rest))).
Proof.
  intros H1 H2. unfold link_replace, bind, or_raise, Py.item0, ret. cbv beta iota.
  rewrite (bool_decide_false (String c "" = "/")) by (by intros [= ?]).
  rewrite andb_false_l, (bool_decide_true (String c "" ∉ ["/"; "h"])); [done|].
  rewrite !not_elem_of_cons.
  split_and!; [by intros [= ?] | by intros [= ?] | apply not_elem_of_nil].
Qed.

Lemma link_replace_empty (s : crawler) : link_replace "" s = (s, Raise IndexError).
Proof. done. Qed.

End LinkFacts.

Module LinkClaims.
Import Api Crawler Notions LinkFacts.

Lemma replace_go_absent (old new s : string) :
  Py.contains old s = false → Py.replace_go old new 0 s = s.
Proof.
  induction s as [|c s IH]; [done|].
  intros H. cbn [Py.contains] in H. apply orb_false_iff in H as [Hp Hc].
  cbn [Py.replace_go]. rewrite Hp. f_equal. auto.
Qed.




Example link_replace_examples :
  (link_replace "/covers/x.png" Demo.crawler0).2 = Ret "Images/x.png"
  ∧ (link_replace "chapter2.html" Demo.crawler0).2 = Ret "chapter2.xhtml"
  ∧ (link_replace "https://cdn.example/x.js" Demo.crawler0).2 = Ret "https://cdn.example/x.js"
  ∧ (link_replace "/library/a/b.jpeg" Demo.crawler0).2 = Ret "/library/a/b.jpeg"
  ∧ (link_replace "ftp://host/a.html" Demo.crawler0).2 = Ret "ftp://host/a.xhtml".
Proof. split_and!; reflexivity. Qed.

End LinkClaims.

(** ** Stylesheets of a chapter *)

Module StylesheetFacts.
Import Api Crawler Notions.

(** Whatever is already known, the links written for a page are
    numbered by their position in that page, from the count the loop
    starts with; the URLs join the discovery list at their first sight. *)
Lemma link_stylesheets_numbers (E : env) (hrefs : list string) (n : nat)
    (acc : string) (s : crawler) :
  ∃ s', link_stylesheets E (Some <$> hrefs) n acc s
        = (s', Ret (n + length hrefs,
                    acc +:+ Py.concat (stylesheet_tag <$> seq (n + 1) (length hrefs))))
        ∧ css s' = discover (css s) (css_url E <$> hrefs).
Proof.
  revert n acc s. induction hrefs as [|h hrefs IH]; intros n acc s.
  - exists s. cbn. rewrite PyFacts.app_nil_r, Nat.add_0_r. done.
  - cbn [fmap list_fmap link_stylesheets length].
    cbv beta iota delta [bind ret gets modify or_raise display_log in_session].
    destruct (bool_decide (css_url E h ∈ css s)) eqn:Hk;
      match goal with |- context [link_stylesheets E _ _ _ ?st] =>
        destruct (IH (n + 1) (acc +:+ stylesheet_tag (n + 1)) st) as (s' & Heq & Hcss)
      end;
      rewrite Heq; exists s';
      (split; [| rewrite Hcss; cbn [discover foldl fmap list_fmap css set_sess set_css];
                 by rewrite Hk]);
      replace (n + 1 + length hrefs) with (n + S (length hrefs)) by lia;
      rewrite PyFacts.app_assoc; cbn [seq fmap list_fmap Py.concat foldr];
      replace (S (n + 1)) with (n + 1 + 1) by lia; done.
Qed.

(** C1: a stylesheet shared by two chapters. After both chapters were
    parsed [sheet_b] is the second stylesheet discovered; the first
    chapter, which lists it after [sheet_a], links it as [Style02.css],
    the second chapter, which lists it alone, as [Style01.css]. *)
Theorem shared_stylesheet_renumbered :
  let first := parse_html Demo.offline Demo.chapter_one Demo.crawler0 in
  let second := parse_html Demo.offline Demo.chapter_two first.1 in
  css second.1 = [Demo.sheet_a; Demo.sheet_b]
  ∧ Claimed.stylesheet_number (css second.1) Demo.sheet_b = Some 2
  ∧ first.2 = Ret (stylesheet_tag 1 +:+ stylesheet_tag 2, "one")
  ∧ second.2 = Ret (stylesheet_tag 1, "two").
Proof. vm_compute. split_and!; reflexivity. Qed.

End StylesheetFacts.

(** ** The chapter list *)

Module ApiFacts.
Import Api Notions.

Ltac run :=
  cbv beta iota delta
    [bind ret gets modify or_raise raise exit stalled display_exit
     requests_provider remove_cookies_file has_detail get_detail
     mentions_not_found len records].

(** Deleting, for each cover in turn, the first record equal to it
    leaves the other records, in their order. *)
Lemma del_each_covers (pre l : list chapter) (s : session) :
  (∀ y, y ∈ pre → is_cover y ≠ true) →
  del_each (filter (λ c, is_cover c = true) l) (pre ++ l) s
  = (s, Ret (pre ++ filter (λ c, is_cover c ≠ true) l)).
Proof.
  revert pre. induction l as [|x l IH]; intros pre Hpre.
  - done.
  - destruct (decide (is_cover x = true)) as [Hx|Hx].
    + rewrite filter_cons_True by done.
      rewrite (filter_cons_False (λ c, is_cover c ≠ true)) by naive_solver.
      cbn [del_each]. run. rewrite PyFacts.index_first by (intros y Hy ->; by apply Hpre in Hy).
      unfold Py.del. rewrite delete_middle. by apply IH.
    + rewrite filter_cons_False by done.
      rewrite (filter_cons_True (λ c, is_cover c ≠ true)) by done.
      rewrite (cons_middle x pre l), (cons_middle x pre), !app_assoc.
      apply IH. intros y [Hy| ->%list_elem_of_singleton]%elem_of_app; auto.
Qed.

Lemma api_error_ends (E : env) (r : response) (s : session) :
  asked (api_error E r s).1 = asked s
  ∧ ((∃ m, (api_error E r s).2 = Ret m) ∨ (∃ e, (api_error E r s).2 = Raise e)).
Proof.
  unfold api_error.
  destruct r as [d|v].
  - run. destruct (d !! "detail") as [v|] eqn:Hd; cbn.
    + destruct v; run; cbn; eauto.
      * destruct (Py.contains "Not found" s0); run; cbn; eauto.
        destruct (cookies_file s); run; cbn; eauto.
      * destruct (cookies_file s); run; cbn; eauto.
    + destruct (cookies_file s); run; cbn; eauto.
  - destruct v; run; cbn; eauto.
    + destruct (Py.contains "detail" s0); run; cbn; eauto.
      destruct (cookies_file s); run; cbn; eauto.
    + destruct (cookies_file s); run; cbn; eauto.
Qed.

(** Reporting an error payload always ends the run. *)
Lemma api_error_exit {A} (E : env) (r : response) (s : session) :
  let out := bind (api_error E r) (λ message, @display_exit A message) s in
  failed out.2 = true ∧ asked out.1 = asked s.
Proof.
  destruct (api_error_ends E r s) as [Ha [[m Hm]|[e He]]];
    cbv beta iota zeta delta [bind display_exit modify exit];
    destruct (api_error E r s) as [s' o]; cbn in *; subst o; cbn; done.
Qed.

Lemma provider_run (E : env) (url : string) (s : session) :
  requests_provider E url s
  = (match server E url with
     | Failed reason => log reason (ask url s)
     | _ => ask url s
     end, Ret (server E url)).
Proof. unfold requests_provider. run. by destruct (server E url). Qed.

(** One page: either it is usable and the method goes on as
    [after_page] says, or it is not and the run ends there. *)
Lemma one_page (E : env) (depth p : nat) (s : session) :
  (∃ results next, well_formed (page E p) results next
      ∧ get_book_chapters E (S depth) p s = after_page E depth p s results next)
  ∨ (¬ usable (page E p)
     ∧ failed (get_book_chapters E (S depth) p s).2 = true
     ∧ asked (get_book_chapters E (S depth) p s).1 = asked s ++ [chapter_url E p]).
Proof.
  unfold usable, well_formed, page.
  remember (get_book_chapters E (S depth) p s) as r eqn:Hr.
  cbn [get_book_chapters] in Hr. unfold bind at 1 in Hr. rewrite provider_run in Hr.
  destruct (server E (chapter_url E p)) as [reason| |[d|v]] eqn:Hs;
    cbv beta iota in Hr.
  - right. split; [by intros (? & ? & ? & [=] & _)|]. revert Hr. run. by intros ->.
  - right. split; [by intros (? & ? & ? & [=] & _)|]. revert Hr. run. by intros ->.
  - destruct (decide (size d = 1)) as [H1|H1].
    { right. split; [intros (? & ? & ? & [= <-] & ? & _); done|].
      subst r. apply (api_error_exit E (RDict d) (ask (chapter_url E p) s)). }
    destruct (d !! "results") as [v|] eqn:Hres.
    2:{ right. split; [intros (? & ? & ? & [= <-] & ? & ? & _); congruence|].
        revert Hr. run. by intros ->. }
    destruct v as [| | |t|l];
      try (right; split; [intros (? & ? & ? & [= <-] & ? & ? & _); congruence|];
           revert Hr; run; by intros ->).
    { right. split; [intros (? & ? & ? & [= <-] & ? & ? & _); congruence|].
      revert Hr. run. destruct (decide (String.length t = 0)); by intros ->. }
    revert Hr. run.
    destruct (decide (length l = 0)) as [H0|H0].
    { intros ->. right. split; [|done].
      intros (? & ? & ? & [= <-] & ? & ? & ? & _). destruct l; naive_solver. }
    rewrite (del_each_covers [] l) by (intros ? ?%elem_of_nil; done).
    destruct (d !! "next") as [nx|] eqn:Hn.
    2:{ intros ->. right. split; [|done].
        intros (? & ? & ? & [= <-] & ? & ? & ? & ?); congruence. }
    intros Hr. left. exists l, nx. split.
    { exists d. split_and!; try done. by intros ->. }
    subst r. unfold after_page. cbn [app].
    destruct (truthy nx).
    + destruct (get_book_chapters E depth (p + 1) (ask (chapter_url E p) s)) as [s' [| | |]];
        done.
    + by rewrite app_nil_r.
  - right. split; [by intros (? & ? & ? & [=] & _)|]. subst r.
    apply (api_error_exit E (RValue v) (ask (chapter_url E p) s)).
Qed.

Lemma well_formed_inj (r : reply) (rs rs' : list chapter) (nx nx' : value) :
  well_formed r rs nx → well_formed r rs' nx' → rs = rs' ∧ nx = nx'.
Proof.
  intros (d & -> & _ & Hr & _ & Hn) (d' & [= <-] & _ & Hr' & _ & Hn').
  split; congruence.
Qed.

(** The pages of a complete chapter list: all but the last announce a
    next page, the last is usable and announces none. *)
Lemma pages_from_spec (E : env) (pages : list (list chapter)) (p : nat) :
  pages_from E p pages →
  (∀ i, S i < length pages → continuing (page E (p + i)))
  ∧ usable (page E (p + (length pages - 1)))
  ∧ ¬ continuing (page E (p + (length pages - 1))).
Proof.
  revert p. induction pages as [|rs more IH]; intros p; [done|].
  intros (nx & Hwf & Hmore). destruct more as [|rs' more].
  - cbn. rewrite Nat.add_0_r. split_and!.
    + intros i ?. lia.
    + by exists rs, nx.
    + intros (rs2 & nx2 & Hwf2 & Ht).
      destruct (well_formed_inj _ _ _ _ _ Hwf Hwf2) as [_ <-]. congruence.
  - destruct Hmore as [Ht Hfrom]. destruct (IH _ Hfrom) as (Hc & Hu & Hn).
    cbn [length] in *.
    replace (p + (S (S (length more)) - 1)) with (S p + (S (length more) - 1)) by lia.
    split_and!; [|done..].
    intros [|i] Hi.
    + rewrite Nat.add_0_r. by exists rs, nx.
    + replace (p + S i) with (S p + i) by lia. apply Hc. lia.
Qed.

(** Every outcome of the retrieval, with the requests it made. *)
Lemma chapters_cases (E : env) (depth : nat) : ∀ (p : nat) (s : session),
  let r := get_book_chapters E depth p s in
  match r.2 with
  | Ret l =>
      ∃ pages, pages_from E p pages ∧ length pages ≤ depth
               ∧ l = concat (cover_first <$> pages)
               ∧ asked r.1 = asked s ++ (chapter_url E <$> seq p (length pages))
  | Stalled =>
      (∀ i, i < depth → continuing (page E (p + i)))
      ∧ asked r.1 = asked s ++ (chapter_url E <$> seq p depth)
  | _ =>
      ∃ k, k < depth ∧ (∀ i, i < k → continuing (page E (p + i)))
           ∧ ¬ usable (page E (p + k))
           ∧ asked r.1 = asked s ++ (chapter_url E <$> seq p (S k))
  end.
Proof.
  induction depth as [|depth IH]; intros p s r.
  { cbn. split; [intros; lia | by rewrite app_nil_r]. }
  destruct (one_page E depth p s) as [(rs & nx & Hwf & Heq)|(Hbad & Hf & Ha)].
  2:{ subst r. destruct (get_book_chapters E (S depth) p s) as [s' [| | |]];
        try done; exists 0; rewrite Nat.add_0_r;
        (split_and!; [lia | intros; lia | done | done]). }
  subst r. rewrite Heq. unfold after_page. destruct (truthy nx) eqn:Ht.
  2:{ cbn. exists [rs]. split_and!.
      - by exists nx.
      - cbn; lia.
      - cbn. by rewrite app_nil_r.
      - done. }
  specialize (IH (p + 1) (ask (chapter_url E p) s)). cbv zeta in IH.
  assert (Hc : continuing (page E (p + 0))) by (rewrite Nat.add_0_r; by exists rs, nx).
  destruct (get_book_chapters E depth (p + 1) (ask (chapter_url E p) s)) as [s' [l|m|e|]];
    cbn [fst snd] in *.
  - destruct IH as (pages & Hfrom & Hlen & -> & Ha).
    exists (rs :: pages). split_and!.
    + exists nx. split; [done|]. destruct pages; [done|].
      split; [done|]. by rewrite <- Nat.add_1_r.
    + cbn; lia.
    + done.
    + rewrite Ha. cbn. rewrite <- app_assoc. cbn. by rewrite Nat.add_1_r.
  - destruct IH as (k & Hk & Hcs & Hb & Ha). exists (S k). split_and!.
    + lia.
    + intros [|i] Hi; [done|]. replace (p + S i) with (p + 1 + i) by lia. apply Hcs. lia.
    + by replace (p + S k) with (p + 1 + k) by lia.
    + rewrite Ha. cbn. rewrite <- app_assoc. cbn. by rewrite Nat.add_1_r.
  - destruct IH as (k & Hk & Hcs & Hb & Ha). exists (S k). split_and!.
    + lia.
    + intros [|i] Hi; [done|]. replace (p + S i) with (p + 1 + i) by lia. apply Hcs. lia.
    + by replace (p + S k) with (p + 1 + k) by lia.
    + rewrite Ha. cbn. rewrite <- app_assoc. cbn. by rewrite Nat.add_1_r.
  - destruct IH as (Hcs & Ha). split.
    + intros [|i] Hi; [done|]. replace (p + S i) with (p + 1 + i) by lia. apply Hcs. lia.
    + rewrite Ha. cbn. rewrite <- app_assoc. cbn. by rewrite Nat.add_1_r.
Qed.

Lemma pages_from_unique (E : env) (pages pages' : list (list chapter)) (p : nat) :
  pages_from E p pages → pages_from E p pages' → pages = pages'.
Proof.
  revert p pages'.
  induction pages as [|rs pages IH]; intros p [|rs' pages'] H1 H2; try done.
  destruct H1 as (nx & Hwf & H1), H2 as (nx' & Hwf' & H2).
  destruct (well_formed_inj _ _ _ _ _ Hwf Hwf') as [<- <-].
  destruct pages as [|? ?], pages' as [|? ?]; [done|..].
  - destruct H2; congruence.
  - destruct H1; congruence.
  - f_equal. apply (IH (S p)); [by destruct H1 | by destruct H2].
Qed.

(** A complete chapter list is returned whole, once the bound allows
    for its pages; each page is requested once, in order. *)
Lemma chapters_returned (E : env) (pages : list (list chapter)) :
  ∀ (p depth : nat) (s : session),
  pages_from E p pages → length pages ≤ depth →
  (get_book_chapters E depth p s).2 = Ret (concat (cover_first <$> pages))
  ∧ asked (get_book_chapters E depth p s).1
    = asked s ++ (chapter_url E <$> seq p (length pages)).
Proof.
  intros p depth s Hfrom Hlen.
  destruct (pages_from_spec E pages p Hfrom) as (Hc & Hu & Hn).
  assert (Hpos : 0 < length pages) by (destruct pages; [done | cbn; lia]).
  pose proof (chapters_cases E depth p s) as H. cbv zeta in H.
  destruct (get_book_chapters E depth p s) as [s' [l|m|e|]]; cbn [fst snd] in *.
  - destruct H as (pages' & Hfrom' & _ & -> & Ha).
    by rewrite (pages_from_unique E pages pages' p).
  - exfalso. destruct H as (k & Hk & Hcs & Hb & _).
    destruct (decide (k < length pages - 1)) as [?|?].
    { apply Hb. destruct (Hc k ltac:(lia)) as (? & ? & ? & ?). eexists _, _; eauto. }
    destruct (decide (k = length pages - 1)) as [->|?]; [done|].
    apply Hn, Hcs. lia.
  - exfalso. destruct H as (k & Hk & Hcs & Hb & _).
    destruct (decide (k < length pages - 1)) as [?|?].
    { apply Hb. destruct (Hc k ltac:(lia)) as (? & ? & ? & ?). eexists _, _; eauto. }
    destruct (decide (k = length pages - 1)) as [->|?]; [done|].
    apply Hn, Hcs. lia.
  - exfalso. destruct H as [Hcs _]. apply Hn, Hcs. lia.
Qed.

(** Pages given one by one, each with the URL of the next but the last,
    which has [null], form a complete chapter list. *)
Lemma pages_listed (E : env) (pages : list (list chapter)) (p : nat) :
  pages ≠ [] →
  (∀ i results, pages !! i = Some results →
     ∃ next, well_formed (page E (p + i)) results next
             ∧ if decide (S i < length pages)
               then ∃ url, next = VStr url ∧ url ≠ ""
               else next = VNull) →
  pages_from E p pages.
Proof.
  revert p. induction pages as [|rs pages IH]; intros p Hne H; [done|].
  destruct (H 0 rs eq_refl) as (nx & Hwf & Hnx). rewrite Nat.add_0_r in Hwf.
  exists nx. split; [done|]. destruct pages as [|rs' pages].
  - rewrite decide_False in Hnx by (cbn; lia). by subst nx.
  - rewrite decide_True in Hnx by (cbn; lia). destruct Hnx as (url & -> & Hurl). split.
    { cbn. by rewrite bool_decide_false. }
    apply IH; [done|]. intros i results Hi.
    destruct (H (S i) results Hi) as (nx & Hwf' & Hnx').
    exists nx. replace (S p + i) with (p + S i) by lia. split; [done|].
    cbn [length] in *. destruct (decide (S (S i) < S (S (length pages))));
      destruct (decide (S i < S (length pages))); try done; lia.
Qed.

End ApiFacts.

Module ApiClaims.
Import Api Notions ApiFacts.

(** C3. When the service answers page after page with a usable object,
    each with the URL of the next page but the last, whose [next] is
    [null], [get_book_chapters] requests the pages once each in that
    order and returns their records, page after page, the records of a
    page whose [filename] contains [cover.] first, both groups in the
    order of the page. *)
Theorem get_book_chapters_merges (E : env) (pages : list (list chapter))
    (depth : nat) (s : session) :
  pages ≠ [] →
  (∀ i results, pages !! i = Some results →
     ∃ next, well_formed (page E i) results next
             ∧ if decide (S i < length pages)
               then ∃ url, next = VStr url ∧ url ≠ ""
               else next = VNull) →
  length pages ≤ depth →
  (get_book_chapters E depth 0 s).2 = Ret (concat (cover_first <$> pages))
  ∧ asked (get_book_chapters E depth 0 s).1
    = asked s ++ (chapter_url E <$> seq 0 (length pages)).
Proof.
  intros Hne H Hlen. apply chapters_returned; [|done].
  by apply pages_listed.
Qed.

Lemma get_book_chapters_merges_witness :
  (get_book_chapters Demo.two_pages 2 0 Demo.session0).2
  = Ret [Demo.ch "cover."; Demo.ch "a"; Demo.ch "b"; Demo.ch "c"].
Proof.
  refine (proj1 (get_book_chapters_merges Demo.two_pages
            [[Demo.ch "a"; Demo.ch "cover."; Demo.ch "b"]; [Demo.ch "c"]]
            2 Demo.session0 _ _ _)).
  - done.
  - intros [|[|i]] results Hi; cbn in Hi; simplify_eq.
    + eexists. split.
      * eexists. split_and!; [reflexivity | by vm_compute | reflexivity | done | reflexivity].
      * cbn. eexists. split; [reflexivity | done].
    + eexists. split.
      * eexists. split_and!; [reflexivity | by vm_compute | reflexivity | done | reflexivity].
      * reflexivity.
  - cbn. lia.
Defined.

(** C4, as amended. The retrieval ends the run exactly when one of the
    pages it comes to is not usable: the request failed, the body is not
    a JSON object, the object has exactly one key, it has no [results]
    or no [next], or its [results] hold no record, on the first page or
    on a later one. It returns exactly when the pages end, and then
    returns the merged list. Either way each page was requested once, in
    order. *)
Theorem retrieval_fails_at_first_unusable_page (E : env) (depth : nat) (s : session) :
  let r := get_book_chapters E depth 0 s in
  (failed r.2 = true ↔
     ∃ k, k < depth ∧ (∀ i, i < k → continuing (page E i)) ∧ ¬ usable (page E k))
  ∧ (∀ l, r.2 = Ret l ↔
       ∃ pages, pages_from E 0 pages ∧ length pages ≤ depth
                ∧ l = concat (cover_first <$> pages))
  ∧ (∃ n, n ≤ depth ∧ asked r.1 = asked s ++ (chapter_url E <$> seq 0 n)).
Proof.
  intros r. pose proof (chapters_cases E depth 0 s) as H. cbv zeta in H.
  fold r in H. split_and!.
  - split.
    + intros Hf. destruct r.2 as [l|m|e|]; try done;
        destruct H as (k & ? & ? & ? & _); exists k; eauto.
    + intros (k & Hk & Hcs & Hb).
      destruct r.2 as [l|m|e|] eqn:Hr; try done; exfalso.
      * destruct H as (pages & Hfrom & Hlen & _).
        destruct (pages_from_spec E pages 0 Hfrom) as (Hc & Hu & Hn). cbn in Hc, Hu, Hn.
        destruct (decide (k < length pages - 1)) as [?|?].
        { apply Hb. destruct (Hc k ltac:(lia)) as (? & ? & ? & ?). eexists _, _; eauto. }
        destruct (decide (k = length pages - 1)) as [->|?]; [done|].
        apply Hn, Hcs. lia.
      * destruct H as [Hcs' _]. apply Hb.
        destruct (Hcs' k Hk) as (? & ? & ? & ?). eexists _, _; eauto.
  - intros l. split.
    + intros Hr. rewrite Hr in H. destruct H as (pages & ? & ? & ? & _). eauto.
    + intros (pages & Hfrom & Hlen & ->).
      apply (chapters_returned E pages 0 depth s Hfrom Hlen).
  - destruct r.2 as [l|m|e|].
    + destruct H as (pages & _ & ? & _ & ?). eauto.
    + destruct H as (k & ? & _ & _ & ?). exists (S k). split; [lia | done].
    + destruct H as (k & ? & _ & _ & ?). exists (S k). split; [lia | done].
    + destruct H as [_ ?]. eauto.
Qed.

(** C4 as it is stated fails when a later page has no record: both pages
    are objects with two keys, the first page has a record, and the run
    ends on the second page. *)
Lemma empty_later_page_is_fatal :
  (get_book_chapters Demo.empty_second_page 5 0 Demo.session0).2 = Exit no_chapters
  ∧ (∀ i, ∃ d, page Demo.empty_second_page i = Json (RDict d) ∧ 1 < size d)
  ∧ (∃ d, page Demo.empty_second_page 0 = Json (RDict d)
          ∧ d !! "results" = Some (VList [Demo.ch "a"])).
Proof.
  split_and!.
  - by vm_compute.
  - intros i. unfold page, Demo.empty_second_page, Demo.service. cbn [server].
    case_bool_decide; eexists; (split; [reflexivity | vm_compute; lia]).
  - eexists. split; reflexivity.
Qed.

(** For an object, the cookies file goes whenever the payload is not a
    "Not found"; a detail that is neither text nor a list raises. *)
Lemma api_error_dict (E : env) (d : gmap string value) (s : session) :
  cookies_file s = true →
  match d !! "detail" with
  | Some (VStr t) =>
      if Py.contains "Not found" t
      then (api_error E (RDict d) s).1 = s
      else cookies_file (api_error E (RDict d) s).1 = false
  | Some (VList _) | None => cookies_file (api_error E (RDict d) s).1 = false
  | Some _ => api_error E (RDict d) s = (s, Raise TypeError)
  end.
Proof.
  intros Hc. unfold api_error. run.
  destruct (d !! "detail") as [[| | |t|l]|] eqn:Hd; cbn; try done.
  - destruct (Py.contains "Not found" t); [done|]. rewrite Hc. done.
  - rewrite Hc. done.
  - rewrite Hc. done.
Qed.

(** C10: the body [null]. The response is not an object, so it is
    handed to [api_error]; the test ["detail" in response] raises before
    [os.remove] is reached, and the cookies file stays. *)
Theorem null_payload_keeps_cookies (E : env) (s : session) :
  api_error E (RValue VNull) s = (s, Raise TypeError)
  ∧ (get_book_chapters
       (Env (urljoin E) (api_url E) (λ _, Json (RValue VNull)) (repr E)) 1 0
       Demo.session0).2 = Raise TypeError
  ∧ cookies_file
      (get_book_chapters
         (Env (urljoin E) (api_url E) (λ _, Json (RValue VNull)) (repr E)) 1 0
         Demo.session0).1 = true.
Proof. done. Qed.

End ApiClaims.

(** ** The table of contents *)

Module TocFacts.
Import Toc.

(** Induction on a tree whose children are kept in a list. *)
Lemma toc_rect' (P : toc → Prop) :
  (∀ id fragment label href depth children,
     Forall P children → P (Node id fragment label href depth children)) →
  ∀ cc, P cc.
Proof.
  intros H. fix IH 1. intros [id fragment label href depth children].
  apply H. induction children as [|cc children IHc]; constructor; [apply IH | apply IHc].
Qed.

Lemma loop_ok (l : list toc) :
  Forall visit_ok l → ∀ r c mx,
    for_nodes parse_node l r c mx
    = (r +:+ Py.concat (render <$> (number_nodes number_node l c).1),
       c + length (flat_map nodes_of l),
       foldl Z.max mx (depth_of <$> flat_map nodes_of l))
    ∧ (number_nodes number_node l c).2 = c + length (flat_map nodes_of l)
    ∧ playOrder_of <$> flat_map points_of (number_nodes number_node l c).1
      = seq (c + 1) (length (flat_map nodes_of l))
    ∧ ident_of <$> flat_map points_of (number_nodes number_node l c).1
      = written_id <$> flat_map nodes_of l.
Proof.
  induction 1 as [|cc l Hcc Hl IH]; intros r c mx.
  - cbn. rewrite PyFacts.app_nil_r, Nat.add_0_r. done.
  - destruct (Hcc c mx) as (Hp & Hn & Ho & Hi).
    cbn [for_nodes number_nodes flat_map]. rewrite Hp.
    destruct (number_node cc c) as [n c1] eqn:Hnum. cbn [fst snd] in *. subst c1.
    destruct (IH (r +:+ render n) (c + length (nodes_of cc))
                (foldl Z.max mx (depth_of <$> nodes_of cc))) as (Hp' & Hn' & Ho' & Hi').
    rewrite Hp'.
    destruct (number_nodes number_node l (c + length (nodes_of cc))) as [ns c2] eqn:Hnums.
    cbn [fst snd] in *. subst c2.
    cbn [flat_map fst snd fmap list_fmap Py.concat foldr].
    change (list_fmap nav string render) with (fmap (M:=list) render).
    rewrite !length_app, !fmap_app, foldl_app, Ho, Ho', Hi, Hi', seq_app.
    split_and!.
    + rewrite PyFacts.app_assoc. unfold Py.concat. do 2 f_equal. lia.
    + lia.
    + do 2 f_equal. lia.
    + done.
Qed.

Lemma visit_all (cc : toc) : visit_ok cc.
Proof.
  induction cc as [id fragment label href depth children IH] using toc_rect'.
  intros c mx. pose proof (loop_ok children IH "" (c + 1)) as Hloop.
  cbn [parse_node number_node nodes_of].
  assert (Hm : (match children with
                | [] => ("", c + 1, if decide (depth > mx)%Z then depth else mx)
                | _ => for_nodes parse_node children "" (c + 1)
                         (if decide (depth > mx)%Z then depth else mx)
                end)
               = for_nodes parse_node children "" (c + 1)
                   (if decide (depth > mx)%Z then depth else mx))
    by (by destruct children).
  rewrite Hm. clear Hm.
  destruct (Hloop (if decide (depth > mx)%Z then depth else mx)) as (Hp & Hn & Ho & Hi).
  rewrite Hp.
  destruct (number_nodes number_node children (c + 1)) as [ns c'] eqn:Hnums.
  cbn [fst snd] in *. subst c'.
  cbn [render points_of fmap list_fmap length depth_of foldl playOrder_of ident_of seq].
  change (list_fmap nav nat playOrder_of) with (fmap (M:=list) playOrder_of).
  change (list_fmap nav string ident_of) with (fmap (M:=list) ident_of).
  change (list_fmap toc Z depth_of) with (fmap (M:=list) depth_of).
  change (list_fmap toc string written_id) with (fmap (M:=list) written_id).
  rewrite Ho, Hi.
  assert ((if decide (depth > mx)%Z then depth else mx) = (mx `max` depth)%Z) as ->
    by (destruct (decide (depth > mx)%Z); lia).
  replace (c + S (length (flat_map nodes_of children)))
    with (c + 1 + length (flat_map nodes_of children)) by lia.
  split_and!.
  - unfold navPoint_open. rewrite !PyFacts.app_assoc. done.
  - done.
  - do 2 f_equal. lia.
  - done.
Qed.

End TocFacts.

Module TocClaims.
Import Toc TocFacts.

Lemma foldl_max_le (l : list Z) (mx : Z) :
  (mx ≤ foldl Z.max mx l)%Z
  ∧ (∀ d, d ∈ l → (d ≤ foldl Z.max mx l)%Z)
  ∧ (foldl Z.max mx l = mx ∨ foldl Z.max mx l ∈ l).
Proof.
  revert mx. induction l as [|x l IH]; intros mx; cbn.
  - split_and!; [lia | by intros ? ?%elem_of_nil | by left].
  - destruct (IH (mx `max` x)%Z) as (H1 & H2 & H3). split_and!.
    + lia.
    + intros d [->|Hd]%elem_of_cons; [lia | auto].
    + destruct H3 as [->|H3].
      * destruct (Z.max_spec mx x) as [[_ ->]|[_ ->]]; [right; left | by left].
      * right. by right.
Qed.

(** C5. [parse_toc] writes the navigation points of the tree in
    pre-order: the markup is that of the numbered tree, whose
    [playOrder] values, read in the order of the opening tags (a node,
    then its children, then its next sibling), are [c + 1], [c + 2], ...
    without a gap, so [1], [2], ... for the call the program makes; the
    counter returned is the number of the last node; the depth returned
    is the largest of [mx] and the [depth] of every node; a node is
    written under its fragment when it has one and under its own id
    otherwise. On the tree of the example the numbers are 1, 2, 3 and
    the depth is 2. *)
Theorem parse_toc_preorder (l : list toc) (c : nat) (mx : Z) :
  let nodes := flat_map nodes_of l in
  let points := flat_map points_of (flatten l c) in
  (parse_toc l c mx).1.1 = Py.concat (render <$> flatten l c)
  ∧ playOrder_of <$> points = seq (c + 1) (length nodes)
  ∧ (parse_toc l c mx).1.2 = c + length nodes
  ∧ (parse_toc l c mx).2 = foldl Z.max mx (depth_of <$> nodes)
  ∧ (∀ cc, cc ∈ nodes → (depth_of cc ≤ (parse_toc l c mx).2)%Z)
  ∧ ((parse_toc l c mx).2 = mx ∨ ∃ cc, cc ∈ nodes ∧ depth_of cc = (parse_toc l c mx).2)
  ∧ ident_of <$> points = written_id <$> nodes
  ∧ playOrder_of <$> flat_map points_of (flatten example 0) = [1; 2; 3]
  ∧ (parse_toc example 0 0).2 = 2%Z.
Proof.
  intros nodes points.
  assert (Hall : Forall visit_ok l) by (apply Forall_forall; intros; apply visit_all).
  destruct (loop_ok l Hall "" c mx) as (Hp & Hn & Ho & Hi).
  unfold parse_toc, flatten. rewrite Hp. cbn [fst snd].
  destruct (foldl_max_le (depth_of <$> nodes) mx) as (H1 & H2 & H3).
  split_and!; try done.
  - intros cc Hcc. apply H2. by apply list_elem_of_fmap_2.
  - destruct H3 as [?|H3]; [by left|]. right.
    apply list_elem_of_fmap in H3 as (cc & ? & ?). eauto.
Qed.

Example parse_toc_example :
  (parse_toc example 0 0).1.1
  = "<navPoint id=" +:+ Py.q "a" +:+ " playOrder=" +:+ Py.q "1" +:+ ">"
    +:+ "<navLabel><text>A</text></navLabel><content src=" +:+ Py.q "a.xhtml" +:+ "/>"
    +:+ "<navPoint id=" +:+ Py.q "sec" +:+ " playOrder=" +:+ Py.q "2" +:+ ">"
    +:+ "<navLabel><text>B</text></navLabel><content src=" +:+ Py.q "a.xhtml" +:+ "/>"
    +:+ "</navPoint>" +:+ Py.nl +:+ "</navPoint>" +:+ Py.nl
    +:+ "<navPoint id=" +:+ Py.q "c" +:+ " playOrder=" +:+ Py.q "3" +:+ ">"
    +:+ "<navLabel><text>C</text></navLabel><content src=" +:+ Py.q "c.xhtml" +:+ "/>"
    +:+ "</navPoint>" +:+ Py.nl.
Proof. by vm_compute. Qed.

End TocClaims.

(** ** The asset fetcher *)

Module AssetsFacts.
Import Assets Notions.

Ltac run :=
  cbv beta iota delta
    [bind ret gets modify or_raise raise exit stalled
     display_info display_error display_state requests_provider].

(** *** Batches *)

Lemma range_slices {A} (q : list A) (count start : nat) :
  length q - start ≤ count →
  concat ((λ i, Py.slice i (i + 5) q) <$> Py.range_go count start (length q) 5)
  = drop start q.
Proof.
  revert start. induction count as [|count IH]; intros start Hc; cbn.
  - rewrite drop_ge by lia. done.
  - destruct (decide (start < length q)) as [Hlt|Hge].
    + cbn. rewrite IH by lia. unfold Py.slice.
      replace (start + 5 - start) with 5 by lia.
      rewrite <- (take_drop 5 (drop start q)) at 2. by rewrite drop_drop.
    + cbn. rewrite drop_ge by lia. done.
Qed.

Lemma batches_concat (q : list string) : concat (batches q) = q.
Proof.
  unfold batches. destruct (decide (5 < length q)).
  - unfold Py.range. rewrite range_slices by lia. done.
  - cbn. by rewrite app_nil_r.
Qed.

Lemma batches_small (q : list string) : Forall (λ b, length b ≤ 5) (batches q).
Proof.
  unfold batches. destruct (decide (5 < length q)).
  - apply Forall_fmap, Forall_forall. intros i _. cbn. unfold Py.slice.
    rewrite length_take. lia.
  - constructor; [lia | constructor].
Qed.

Lemma batches_of_twelve (q : list string) :
  length q = 12 → length <$> batches q = [5; 5; 2].
Proof.
  intros H. unfold batches. rewrite decide_True by lia. rewrite H.
  change (Py.range 12 5) with [0; 5; 10]. cbn [fmap list_fmap]. unfold Py.slice.
  rewrite !length_take, !length_drop, H. done.
Qed.

Lemma elem_of_concat {A} (x : A) (ls : list (list A)) :
  x ∈ concat ls ↔ ∃ l, x ∈ l ∧ l ∈ ls.
Proof.
  induction ls as [|l ls IH]; cbn.
  - split; [by intros ?%elem_of_nil | by intros (? & _ & ?%elem_of_nil)].
  - rewrite elem_of_app, IH. split.
    + intros [?|(l' & ? & ?)]; [exists l; split; [done | left] | exists l'; split; [done | by right]].
    + intros (l' & ? & [->|?]%elem_of_cons); [by left | right; eauto].
Qed.

(** *** The trace of the parent *)

Lemma in_flight_app (a b : list event) : in_flight (a ++ b) = (in_flight a + in_flight b)%Z.
Proof.
  induction a as [|[x|x] a IH]; cbn; [done|..]; unfold in_flight in *; lia.
Qed.

Lemma in_flight_started (b : list string) : in_flight (Started <$> b) = Z.of_nat (length b).
Proof. induction b as [|x b IH]; cbn; [done|]. unfold in_flight in *. lia. Qed.

Lemma in_flight_joined (b : list string) : in_flight (Joined <$> b) = (- Z.of_nat (length b))%Z.
Proof. induction b as [|x b IH]; cbn; [done|]. unfold in_flight in *. lia. Qed.

Lemma in_flight_schedule (b : list string) : in_flight (schedule b) = 0%Z.
Proof.
  unfold schedule. rewrite in_flight_app, in_flight_started, in_flight_joined. lia.
Qed.

Lemma in_flight_within (b : list string) (k : nat) :
  (0 ≤ in_flight (take k (schedule b)) ≤ Z.of_nat (length b))%Z.
Proof.
  unfold schedule. rewrite take_app, in_flight_app, length_fmap.
  rewrite <- !fmap_take, in_flight_started, in_flight_joined, !length_take. lia.
Qed.

(** At no point of the trace are more than five workers in flight, and
    never fewer than none. *)
Lemma in_flight_bound (bs : list (list string)) (k : nat) :
  Forall (λ b, length b ≤ 5) bs →
  (0 ≤ in_flight (take k (concat (schedule <$> bs))) ≤ 5)%Z.
Proof.
  intros H. revert k. induction H as [|b bs Hb Hbs IH]; intros k.
  - cbn. rewrite take_nil. done.
  - cbn [fmap list_fmap concat]. rewrite take_app, in_flight_app.
    destruct (decide (k ≤ length (schedule b))).
    + replace (k - length (schedule b)) with 0 by lia. rewrite take_0. cbn.
      pose proof (in_flight_within b k). lia.
    + rewrite take_ge by lia. rewrite in_flight_schedule.
      specialize (IH (k - length (schedule b))). lia.
Qed.

(** *** The parent never fails: batch after batch *)

Lemma start_run (operation : string → M depot unit) (arg : string) (s : depot) :
  start operation arg s = (started operation s arg, Ret tt).
Proof.
  unfold started, start, process. run.
  by destruct (operation arg _).
Qed.

Lemma starts_run (operation : string → M depot unit) (b : list string) (s : depot) :
  for_each b (start operation) s = (foldl (started operation) s b, Ret tt).
Proof.
  revert s. induction b as [|x b IH]; intros s; [done|].
  cbn [for_each foldl]. unfold bind. by rewrite start_run, IH.
Qed.

Lemma joins_run (b : list string) (s : depot) :
  for_each b join s = (foldl joined s b, Ret tt).
Proof.
  revert s. induction b as [|x b IH]; intros s; [done|].
  cbn [for_each foldl]. unfold bind. cbn. by rewrite IH.
Qed.

Lemma small_queue_run (operation : string → M depot unit) (depth : nat)
    (q : list string) (dq : bool) (s : depot) :
  length q ≤ 5 →
  _start_multiprocessing (S depth) operation q dq s
  = (batch_done operation (if dq then s else set_done_queue 0 s) q, Ret tt).
Proof.
  intros Hq. cbn [_start_multiprocessing]. rewrite decide_False by lia.
  unfold batch_done, bind. destruct dq; cbn; by rewrite starts_run, joins_run.
Qed.

Lemma slices_run (operation : string → M depot unit) (depth : nat)
    (q : list string) (l : list nat) (s : depot) :
  for_each l (λ i, _start_multiprocessing (S depth) operation (Py.slice i (i + 5) q) true) s
  = (foldl (batch_done operation) s ((λ i, Py.slice i (i + 5) q) <$> l), Ret tt).
Proof.
  revert s. induction l as [|i l IH]; intros s; [done|].
  cbn [for_each foldl fmap list_fmap]. unfold bind.
  rewrite small_queue_run by (unfold Py.slice; rewrite length_take; lia).
  by rewrite IH.
Qed.

(** With room for one nested call, [_start_multiprocessing] returns, and
    the depot is the one left by its batches, one after the other. *)
Lemma multiprocessing_run (operation : string → M depot unit) (depth : nat)
    (q : list string) (dq : bool) (s : depot) :
  _start_multiprocessing (S (S depth)) operation q dq s
  = (foldl (batch_done operation) (if dq then s else set_done_queue 0 s) (batches q),
     Ret tt).
Proof.
  unfold batches. destruct (decide (5 < length q)) as [Hq|Hq].
  - cbn [_start_multiprocessing]. rewrite decide_True by done.
    unfold bind at 1. destruct dq; cbn -[_start_multiprocessing]; apply slices_run.
  - rewrite small_queue_run by lia. done.
Qed.

(** *** What the parent records *)

Lemma batch_events (operation : string → M depot unit) (b : list string) (s : depot) :
  careful operation →
  events (batch_done operation s b) = events s ++ schedule b.
Proof.
  intros Hk. unfold batch_done, schedule.
  assert (Hs : ∀ l s, events (foldl (started operation) s l) = events s ++ (Started <$> l)).
  { induction l as [|x l IH]; intros s0; cbn; [by rewrite app_nil_r|].
    rewrite IH. unfold started, start, process. run.
    destruct (Hk x (set_events (events s0 ++ [Started x]) s0)) as [Hx _].
    destruct (operation x _) as [s1 o]. cbn in *. rewrite Hx.
    by rewrite <- app_assoc. }
  assert (Hj : ∀ l s, events (foldl joined s l) = events s ++ (Joined <$> l)).
  { induction l as [|x l IH]; intros s0; cbn; [by rewrite app_nil_r|].
    rewrite IH. cbn. by rewrite <- app_assoc. }
  rewrite Hj, Hs. by rewrite app_assoc.
Qed.

Lemma batches_events (operation : string → M depot unit) (bs : list (list string))
    (s : depot) :
  careful operation →
  events (foldl (batch_done operation) s bs) = events s ++ concat (schedule <$> bs).
Proof.
  intros Hk. revert s. induction bs as [|b bs IH]; intros s; cbn.
  - by rewrite app_nil_r.
  - rewrite IH, batch_events by done. by rewrite app_assoc.
Qed.

(** *** The workers *)

Lemma write_chunks (path : string) (chunks : list string) (acc : string) (s : depot) :
  files s !! path = Some acc →
  for_each chunks (λ chunk,
    modify (λ s, set_files (alter (λ written, written +:+ chunk) path (files s)) s)) s
  = (set_files (<[path := acc +:+ Py.concat chunks]> (files s)) s, Ret tt).
Proof.
  revert acc s. induction chunks as [|chunk chunks IH]; intros acc s Hacc.
  - cbn. rewrite PyFacts.app_nil_r, insert_id by done. by destruct s.
  - cbn [for_each]. unfold bind, modify at 1.
    assert (Halter : alter (λ written, written +:+ chunk) path (files s)
                     = <[path := acc +:+ chunk]> (files s)).
    { apply map_eq. intros k. rewrite lookup_alter, lookup_insert.
      case_decide as Hk; [subst k; by rewrite Hacc | done]. }
    rewrite (IH (acc +:+ chunk)).
    + cbn [files set_files]. rewrite Halter, insert_insert_eq.
      cbn [Py.concat foldr]. by rewrite PyFacts.app_assoc.
    + cbn [files set_files]. rewrite Halter. apply lookup_insert_eq.
Qed.

Lemma stream_to_run (path : string) (response : download) (s : depot) :
  stream_to path response s
  = (set_files (<[path := content response]> (files s)) s,
     match response with
     | Failed _ => Raise AttributeError
     | Body _ => Ret tt
     end).
Proof.
  unfold stream_to. run. destruct response as [reason|chunks]; [done|].
  rewrite (write_chunks path chunks ""); cbn [files set_files].
  - by rewrite insert_insert_eq.
  - apply lookup_insert_eq.
Qed.


Lemma css_worker_failed (E : env) (url reason : string) (i : nat) (s : depot) :
  Py.index url (css E) = Some i →
  files s !! css_file E i = None →
  remote E url = Failed reason →
  _thread_download_css E url s
  = (failed_fetch (css_file E i) url reason (css_error E i url) s, Raise AttributeError).
Proof.
  intros Hidx Hf Hr. unfold _thread_download_css.
  unfold bind at 1. rewrite Hidx. cbn [or_raise]. unfold ret at 1.
  fold (css_file E i). unfold bind at 1, gets at 1. rewrite Hf.
  rewrite bool_decide_false by (by intros [? ?]).
  unfold bind at 1. unfold bind at 1. unfold requests_provider.
  unfold bind at 1, modify at 1. rewrite Hr.
  unfold bind at 1. unfold display_error at 1. unfold bind at 1, modify at 1, modify at 1.
  unfold ret at 1. unfold bind at 1. unfold display_error at 1.
  unfold bind at 1, modify at 1, modify at 1.
  rewrite stream_to_run. cbn [content]. unfold failed_fetch.
  f_equal. destruct s. cbn. f_equal. by rewrite <- app_assoc.
Qed.

Lemma images_worker_failed (E : env) (url reason : string) (s : depot) :
  files s !! image_path E url = None →
  remote E (urljoin E BASE_URL url) = Failed reason →
  _thread_download_images E url s
  = (failed_fetch (image_path E url) (urljoin E BASE_URL url) reason
       (image_error url) s, Raise AttributeError).
Proof.
  intros Hf Hr. unfold _thread_download_images.
  cbv beta iota zeta delta
    [bind ret gets modify or_raise raise display_info display_error requests_provider].
  fold (image_path E url). rewrite Hf, Hr.
  rewrite bool_decide_false by (by intros [? ?]).
  rewrite stream_to_run. cbn [content]. unfold failed_fetch, image_error.
  f_equal. destruct s. cbn. f_equal. by rewrite <- app_assoc.
Qed.

Ltac crunch :=
  cbv beta iota zeta delta
    [bind ret gets modify or_raise raise display_info display_error requests_provider].

Lemma display_state_keeps (origin done : Z) (s : depot) :
  files (display_state origin done s).1 = files s
  ∧ events (display_state origin done s).1 = events s.
Proof.
  unfold display_state. crunch. destruct (decide (origin = 0)%Z); [done|].
  by case_decide.
Qed.

Lemma css_worker_careful (E : env) : careful (_thread_download_css E).
Proof.
  intros url s. unfold _thread_download_css. crunch.
  destruct (Py.index url (css E)) as [i|]; [|done].
  fold (css_file E i).
  destruct (files s !! css_file E i) as [x|] eqn:Hf.
  - rewrite bool_decide_true by eauto.
    destruct (negb (css_ad_info s) && bool_decide (url ∉ take i (css E)));
      match goal with |- context [display_state ?o ?d ?st] =>
        destruct (display_state_keeps o d st) as [H1 H2];
        destruct (display_state o d st) as [s' out] end;
      cbn in *; rewrite H1, H2; done.
  - rewrite bool_decide_false by (by intros [? ?]).
    destruct (remote E url) as [reason|chunks]; rewrite stream_to_run; cbn [content].
    + cbn. split; [done|]. intros path x Hp. rewrite lookup_insert_ne; [done|congruence].
    + match goal with |- context [display_state ?o ?d ?st] =>
        destruct (display_state_keeps o d st) as [H1 H2];
        destruct (display_state o d st) as [s' out] end.
      cbn in *. rewrite H1, H2. split; [done|].
      intros path x Hp. rewrite lookup_insert_ne; [done|congruence].
Qed.

Lemma images_worker_careful (E : env) : careful (_thread_download_images E).
Proof.
  intros url s. unfold _thread_download_images. crunch.
  fold (image_path E url).
  destruct (files s !! image_path E url) as [x|] eqn:Hf.
  - rewrite bool_decide_true by eauto.
    destruct (images_ad_info s).
    { match goal with |- context [display_state ?o ?d ?st] =>
        destruct (display_state_keeps o d st) as [H1 H2];
        destruct (display_state o d st) as [s' out] end.
      cbn in *. rewrite H1, H2. done. }
    destruct (Py.index url (images E)) as [i|]; [|done].
    destruct (bool_decide (url ∉ take i (images E)));
      match goal with |- context [display_state ?o ?d ?st] =>
        destruct (display_state_keeps o d st) as [H1 H2];
        destruct (display_state o d st) as [s' out] end;
      cbn in *; rewrite H1, H2; done.
  - rewrite bool_decide_false by (by intros [? ?]).
    destruct (remote E (urljoin E BASE_URL url)) as [reason|chunks];
      rewrite stream_to_run; cbn [content].
    + cbn. split; [done|]. intros path x Hp. rewrite lookup_insert_ne; [done|congruence].
    + match goal with |- context [display_state ?o ?d ?st] =>
        destruct (display_state_keeps o d st) as [H1 H2];
        destruct (display_state o d st) as [s' out] end.
      cbn in *. rewrite H1, H2. split; [done|].
      intros path x Hp. rewrite lookup_insert_ne; [done|congruence].
Qed.

(** Files on disk before a batch, or before a run, are there after it,
    unchanged. *)
Lemma batch_keeps_files (operation : string → M depot unit) (b : list string)
    (s : depot) (path x : string) :
  careful operation →
  files s !! path = Some x → files (batch_done operation s b) !! path = Some x.
Proof.
  intros Hk. unfold batch_done.
  assert (Hj : ∀ l s, files (foldl joined s l) = files s).
  { induction l as [|y l IH]; intros s0; cbn; [done|]. by rewrite IH. }
  rewrite Hj. clear Hj. revert s. induction b as [|y b IH]; intros s Hs; [done|].
  cbn [foldl]. apply IH. unfold started, start, process.
  cbv beta iota zeta delta [bind modify].
  destruct (Hk y (set_events (events s ++ [Started y]) s)) as [_ Hy].
  destruct (operation y _) as [s1 o]. cbn in *. by apply Hy.
Qed.

Lemma batches_keep_files (operation : string → M depot unit) (bs : list (list string))
    (s : depot) (path x : string) :
  careful operation →
  files s !! path = Some x →
  files (foldl (batch_done operation) s bs) !! path = Some x.
Proof.
  intros Hk. revert s. induction bs as [|b bs IH]; intros s Hs; [done|].
  cbn [foldl]. apply IH. by apply batch_keeps_files.
Qed.


(** *** Every asset of the queue gets its file *)

Lemma css_worker_creates (E : env) (url : string) (i : nat) (s : depot) :
  Py.index url (css E) = Some i →
  is_Some (files (_thread_download_css E url s).1 !! css_file E i).
Proof.
  intros Hi. destruct (files s !! css_file E i) as [x|] eqn:Hf.
  { destruct (css_worker_careful E url s) as [_ Hk]. rewrite (Hk _ _ Hf). eauto. }
  unfold _thread_download_css. crunch. rewrite Hi. cbv beta iota.
  fold (css_file E i). rewrite Hf.
  rewrite bool_decide_false by (by intros [? ?]).
  destruct (remote E url) as [reason|chunks]; rewrite stream_to_run; cbn [content].
  - cbn. rewrite lookup_insert_eq. eauto.
  - match goal with |- context [display_state ?o ?d ?st] =>
      destruct (display_state_keeps o d st) as [H1 _];
      destruct (display_state o d st) as [s' out] end.
    cbn in *. rewrite H1, lookup_insert_eq. eauto.
Qed.

Lemma images_worker_creates (E : env) (url : string) (i : nat) (s : depot) :
  Py.index url (images E) = Some i →
  is_Some (files (_thread_download_images E url s).1 !! image_path E url).
Proof.
  intros Hi. destruct (files s !! image_path E url) as [x|] eqn:Hf.
  { destruct (images_worker_careful E url s) as [_ Hk]. rewrite (Hk _ _ Hf). eauto. }
  unfold _thread_download_images. crunch.
  fold (image_path E url). rewrite Hf.
  rewrite bool_decide_false by (by intros [? ?]).
  destruct (remote E (urljoin E BASE_URL url)) as [reason|chunks];
    rewrite stream_to_run; cbn [content].
  - cbn. rewrite lookup_insert_eq. eauto.
  - match goal with |- context [display_state ?o ?d ?st] =>
      destruct (display_state_keeps o d st) as [H1 _];
      destruct (display_state o d st) as [s' out] end.
    cbn in *. rewrite H1, lookup_insert_eq. eauto.
Qed.

Lemma batch_creates (operation : string → M depot unit) (path_of : string → string)
    (b : list string) (s : depot) (arg : string) :
  careful operation →
  (∀ x s, x ∈ b → is_Some (files (operation x s).1 !! path_of x)) →
  arg ∈ b →
  is_Some (files (batch_done operation s b) !! path_of arg).
Proof.
  intros Hk Hop Harg. unfold batch_done.
  assert (Hj : ∀ l s, files (foldl joined s l) = files s).
  { induction l as [|y l IH]; intros s0; cbn; [done|]. by rewrite IH. }
  rewrite Hj. clear Hj.
  assert (Hkeep : ∀ l s path, is_Some (files s !! path) →
            is_Some (files (foldl (started operation) s l) !! path)).
  { induction l as [|y l IH]; intros s0 path Hs; [done|]. cbn [foldl]. apply IH.
    destruct Hs as [x Hx]. exists x. unfold started, start, process.
    cbv beta iota zeta delta [bind modify].
    destruct (Hk y (set_events (events s0 ++ [Started y]) s0)) as [_ Hy].
    destruct (operation y _) as [s1 o]. cbn in *. by apply Hy. }
  revert s. induction b as [|y b IH]; intros s; [by apply elem_of_nil in Harg|].
  cbn [foldl]. apply elem_of_cons in Harg as [->|Harg].
  - apply Hkeep. unfold started, start, process.
    cbv beta iota zeta delta [bind modify].
    specialize (Hop y (set_events (events s ++ [Started y]) s) ltac:(left)).
    destruct (operation y _) as [s1 o]. done.
  - apply IH; [|done]. intros x s0 Hx. apply Hop. by right.
Qed.

Lemma batches_create (operation : string → M depot unit) (path_of : string → string)
    (bs : list (list string)) (s : depot) (arg : string) :
  careful operation →
  (∀ x s, x ∈ concat bs → is_Some (files (operation x s).1 !! path_of x)) →
  arg ∈ concat bs →
  is_Some (files (foldl (batch_done operation) s bs) !! path_of arg).
Proof.
  intros Hk. revert s. induction bs as [|b bs IH]; intros s Hop Harg;
    [by apply elem_of_nil in Harg|].
  cbn [foldl concat] in *. apply elem_of_app in Harg as [Harg|Harg].
  - destruct (batch_creates operation path_of b s arg Hk) as [x Hx]; [|done|].
    { intros y s0 Hy. apply Hop, elem_of_app. by left. }
    exists x. by apply batches_keep_files.
  - apply IH; [|done]. intros y s0 Hy. apply Hop, elem_of_app. by right.
Qed.

End AssetsFacts.

Module AssetsClaims.
Import Assets Notions AssetsFacts.

(** C9. Whatever the queue, [_start_multiprocessing] cuts it into
    consecutive batches of at most five URLs; the parent starts the
    workers of a batch, joins them all, and only then turns to the next
    batch, for the stylesheets as for the images. So at every point of
    its trace at most five workers are started and not yet joined. A
    queue of twelve URLs gives batches of five, five and two. *)
Theorem batches_of_five (E : env) (depth : nat) (queue : list string) (s : depot) :
  let css_run :=
    _start_multiprocessing (S (S depth)) (_thread_download_css E) queue false s in
  let images_run :=
    _start_multiprocessing (S (S depth)) (_thread_download_images E) queue false s in
  Forall (λ b, length b ≤ 5) (batches queue)
  ∧ concat (batches queue) = queue
  ∧ css_run.2 = Ret tt
  ∧ images_run.2 = Ret tt
  ∧ events css_run.1 = events s ++ concat (schedule <$> batches queue)
  ∧ events images_run.1 = events s ++ concat (schedule <$> batches queue)
  ∧ (∀ k, (0 ≤ in_flight (take k (concat (schedule <$> batches queue))) ≤ 5)%Z)
  ∧ (length queue = 12 → length <$> batches queue = [5; 5; 2]).
Proof.
  intros css_run images_run. subst css_run images_run.
  rewrite !multiprocessing_run. cbn [fst snd].
  rewrite !batches_events by (apply css_worker_careful || apply images_worker_careful).
  split_and!; try done.
  - apply batches_small.
  - apply batches_concat.
  - intros k. apply in_flight_bound, batches_small.
  - apply batches_of_twelve.
Qed.

Lemma batches_of_five_witness :
  length Demo.twelve = 12 ∧ length <$> batches Demo.twelve = [5; 5; 2].
Proof.
  split; [reflexivity|].
  apply (batches_of_five Demo.unreachable_sheet 0 Demo.twelve Demo.depot0).
  reflexivity.
Defined.



End AssetsClaims.

(** ** The crawl over the chapters *)

Module CrawlFacts.
Import Api Crawler Notions.

Ltac crunch :=
  cbv beta iota zeta delta
    [bind ret gets modify or_raise raise display_log in_session display_state].

(** A chapter of the book whose file is on disk is passed over: the
    crawl goes on with the rest of the queue, nothing fetched, nothing
    written. *)
Lemma get_cached (E : env) (depth : nat) (s : crawler) (c : chapter) (q : list chapter) :
  chapters_queue s = c :: q →
  is_Some (files s !! target E c) →
  c ∈ book_chapters E →
  ∃ s', get E (S depth) s = get E depth s'
        ∧ untouched s s' ∧ chapters_queue s' = q.
Proof.
  intros Hq Hf Hc. destruct (PyFacts.index_elem c (book_chapters E) Hc) as (i & Hi & Hni).
  assert (Hlen : Z.of_nat (length (book_chapters E)) ≠ 0%Z).
  { destruct (book_chapters E); [by apply elem_of_nil in Hc | cbn; lia]. }
  cbn [get]. crunch. rewrite Hq. cbv beta iota.
  fold (target E c).
  change (files (set_filename (c_filename c)
                   (set_chapter_title (c_title c) (set_chapters_queue q s))))
    with (files s).
  rewrite bool_decide_true by done.
  change (book_ad_info (set_filename (c_filename c)
                   (set_chapter_title (c_title c) (set_chapters_queue q s))))
    with (book_ad_info s).
  destruct (book_ad_info s) eqn:Hb.
  - rewrite decide_False by done. case_decide; eexists; (split; [reflexivity|]); done.
  - rewrite Hi. cbv beta iota. rewrite bool_decide_true by done.
    rewrite decide_False by done. case_decide; eexists; (split; [reflexivity|]); done.
Qed.

(** The same for one chapter alone, whatever the book is: with room for
    one chapter the crawl stops after it, and nothing was fetched or
    written. *)
Lemma get_one_cached (E : env) (s : crawler) (c : chapter) (q : list chapter) :
  chapters_queue s = c :: q →
  is_Some (files s !! target E c) →
  untouched s (get E 1 s).1.
Proof.
  intros Hq Hf. cbn [get]. crunch. rewrite Hq. cbv beta iota.
  fold (target E c).
  change (files (set_filename (c_filename c)
                   (set_chapter_title (c_title c) (set_chapters_queue q s))))
    with (files s).
  rewrite bool_decide_true by done.
  change (book_ad_info (set_filename (c_filename c)
                   (set_chapter_title (c_title c) (set_chapters_queue q s))))
    with (book_ad_info s).
  destruct (book_ad_info s).
  - destruct (decide (Z.of_nat (length (book_chapters E)) = 0%Z)); [done|].
    by case_decide.
  - destruct (Py.index c (book_chapters E)) as [i|]; [|done]. cbv beta iota.
    destruct (bool_decide (c ∉ take i (book_chapters E)));
      (destruct (decide (Z.of_nat (length (book_chapters E)) = 0%Z)); [done|]);
      by case_decide.
Qed.

Lemma get_skips (E : env) (depth : nat) : ∀ (s : crawler) (k : nat),
  chapters_queue s = drop k (book_chapters E) →
  (∀ c, c ∈ book_chapters E → is_Some (files s !! target E c)) →
  length (chapters_queue s) < depth →
  (get E depth s).2 = Ret tt ∧ untouched s (get E depth s).1.
Proof.
  induction depth as [|depth IH]; intros s k Hk Hall Hlen; [lia|].
  destruct (chapters_queue s) as [|c q] eqn:Hq.
  { cbn [get]. crunch. by rewrite Hq. }
  assert (Hc : c ∈ book_chapters E).
  { rewrite <- (take_drop k (book_chapters E)), <- Hk. apply elem_of_app. right. left. }
  destruct (get_cached E depth s c q Hq (Hall c Hc) Hc) as (s' & -> & Hs' & Hq').
  destruct Hs' as (Hf & Ha & Hcss & Him).
  destruct (IH s' (S k)) as (Hr & Hf' & Ha' & Hcss' & Him').
  - rewrite Hq'. replace (S k) with (k + 1) by lia.
    rewrite <- drop_drop, <- Hk. done.
  - intros c' Hc'. rewrite Hf. by apply Hall.
  - rewrite Hq'. cbn in Hlen. lia.
  - split; [done|]. unfold untouched. split_and!; congruence.
Qed.

End CrawlFacts.

Module CrawlClaims.
Import Api Crawler Notions CrawlFacts.

(** C8. When the file of every chapter of the book is on disk, the crawl
    returns after passing over every chapter: no request was made, no
    file was written or changed, and nothing was added to the discovered
    stylesheets and images. And for one chapter whose file is on disk,
    whatever the others, the step of the crawl for it makes no request
    and leaves every file as it was. *)
Theorem crawl_skips_existing_files (E : env) (extra : nat) (s : crawler) :
  (∀ c, c ∈ book_chapters E → is_Some (files s !! target E c)) →
  let r := crawl E (S (length (book_chapters E)) + extra) s in
  r.2 = Ret tt
  ∧ files r.1 = files s
  ∧ asked (sess r.1) = asked (sess s)
  ∧ css r.1 = css s
  ∧ images r.1 = images s
  ∧ ∀ s1 c q, chapters_queue s1 = c :: q →
              is_Some (files s1 !! target E c) →
              files (get E 1 s1).1 = files s1
              ∧ asked (sess (get E 1 s1).1) = asked (sess s1).
Proof.
  intros Hall r. subst r. unfold crawl. unfold bind, modify at 1.
  destruct (get_skips E (S (length (book_chapters E)) + extra)
              (set_chapters_queue (book_chapters E) s) 0) as (Hr & Hf & Ha & Hc & Hi).
  - done.
  - intros c Hc. by apply Hall.
  - cbn. lia.
  - split_and!; try done.
    intros s1 c q Hq Hs1. destruct (get_one_cached E s1 c q Hq Hs1) as (? & ? & _).
    done.
Qed.

Lemma crawl_skips_existing_files_witness :
  (crawl Demo.offline 3 Demo.resumed).2 = Ret tt
  ∧ files (crawl Demo.offline 3 Demo.resumed).1 = files Demo.resumed
  ∧ asked (sess (crawl Demo.offline 3 Demo.resumed).1) = [].
Proof.
  destruct (crawl_skips_existing_files Demo.offline 0 Demo.resumed) as (H1 & H2 & H3 & _).
  - intros c Hc. unfold Demo.offline, Demo.crawl_env, Demo.book in Hc. cbn in Hc.
    apply elem_of_cons in Hc as [->|Hc]; [by vm_compute; eexists|].
    apply list_elem_of_singleton in Hc as ->. by vm_compute; eexists.
  - split_and!; [exact H1 | exact H2 | exact H3].
Defined.

End CrawlClaims.

(** ** The package document *)

Module OpfFacts.
Import Api Opf.

Ltac crunch :=
  cbv beta iota zeta delta [bind ret gets modify or_raise raise].

Lemma image_head_nonempty (i : string) : image_head i ≠ "".
Proof. done. Qed.

Lemma alt_cover_kept (h : string) (l : list string) :
  h ≠ "" → alt_cover (Some h) l = Some h.
Proof.
  intros Hh. induction l as [|i l IH]; [done|].
  cbn. by rewrite bool_decide_false.
Qed.

Lemma alt_cover_first (l : list string) :
  alt_cover None l = image_head <$> head l.
Proof.
  destruct l as [|i l]; [done|]. cbn. apply alt_cover_kept, image_head_nonempty.
Qed.

(** The arguments computed when no image was discovered: the cover
    identifier is that of the first image entry of the manifest when
    there is one, and the text [False] when there is none. *)
Lemma fields_without_discovery (E : env) (s : package) :
  images s = [] → book_chapters s ≠ [] →
  ∃ a, content_opf_fields E s
       = (Package "" (styles_listing E) (images_listing E) (rename <$> book_chapters s),
          Ret a)
       ∧ f_cover_id a = default "False" (image_head <$> head (images_listing E)).
Proof.
  intros Hi Hc. unfold content_opf_fields. crunch. rewrite Hi.
  destruct (book_chapters s) as [|c l] eqn:Hb; [done|].
  cbn [map head set_cover set_css set_images set_book_chapters book_chapters
       images css cover].
  rewrite Hb. cbn [map head]. eexists. split; [reflexivity|].
  cbn [f_cover_id]. rewrite alt_cover_first. unfold cover_id.
  rewrite bool_decide_true by done. by destruct (images_listing E).
Qed.

(** The cover fallback, where it works: images left on disk by an
    earlier run. *)
Lemma cover_falls_back (E : env) (s : package) (first : string) (rest : list string) :
  images s = [] → book_chapters s ≠ [] → images_listing E = first :: rest →
  ∃ a, (content_opf_fields E s).2 = Ret a
       ∧ f_cover_id a = image_head first
       ∧ head (image_entries (content_opf_fields E s).1) = Some (f_cover_id a)
       ∧ f_cover_id a ≠ "".
Proof.
  intros Hi Hc Hl. destruct (fields_without_discovery E s Hi Hc) as (a & -> & Ha).
  exists a. rewrite Ha, Hl. cbn. split_and!; done.
Qed.

End OpfFacts.

Module OpfClaims.
Import Api Opf OpfFacts.

(** C6: a book without images. No image was discovered and the [Images]
    directory lists no file: the manifest has no image entry, and the
    cover attribute of the package document is the text [False]. *)
Theorem no_image_no_cover (E : env) (s : package) :
  images s = [] → images_listing E = [] → book_chapters s ≠ [] →
  ∃ a, (content_opf_fields E s).2 = Ret a
       ∧ (create_content_opf E s).2 = Ret (CONTENT_OPF a)
       ∧ f_cover_id a = "False"
       ∧ image_entries (content_opf_fields E s).1 = [].
Proof.
  intros Hi Hl Hc. destruct (fields_without_discovery E s Hi Hc) as (a & Heq & Ha).
  exists a. unfold create_content_opf, bind. rewrite Heq, Ha, Hl.
  split_and!; done.
Qed.

Lemma no_image_no_cover_witness :
  ∃ a, (create_content_opf Demo.no_image Demo.package0).2 = Ret (CONTENT_OPF a)
       ∧ f_cover_id a = "False".
Proof.
  destruct (no_image_no_cover Demo.no_image Demo.package0) as (a & _ & H & Ha & _);
    [reflexivity | reflexivity | discriminate |].
  exists a. split; [exact H | exact Ha].
Defined.

Example no_image_document :
  Py.contains ("<meta name=" +:+ Py.q "cover" +:+ " content=" +:+ Py.q "False" +:+ "/>")
    (match (create_content_opf Demo.no_image Demo.package0).2 with
     | Ret document => document
     | _ => ""
     end) = true.
Proof. by vm_compute. Qed.

Example cover_falls_back_example :
  ∃ a, (content_opf_fields Demo.old_images Demo.package0).2 = Ret a
       ∧ f_cover_id a = "img_cover".
Proof. eexists. split; reflexivity. Qed.

End OpfClaims.

(** ** More on the Python primitives *)

Module PyMore.

Lemma prefix_app (p s : string) :
  String.prefix p s = true ↔ ∃ t, s = p +:+ t.
Proof.
  revert p. induction s as [|c s IH]; intros [|d p]; cbn.
  - split; [by exists "" | done].
  - split; [done | by intros [t [=]]].
  - split; [by exists (String c s) | done].
  - destruct (ascii_dec d c) as [->|Hne].
    + rewrite IH. split; intros [t Ht]; exists t.
      * by rewrite Ht.
      * rewrite PyFacts.app_cons in Ht. by injection Ht.
    + split; [done|]. intros [t Ht]. rewrite PyFacts.app_cons in Ht. congruence.
Qed.

Lemma replace_go_skip (old new a t : string) :
  Py.replace_go old new (String.length a) (a +:+ t) = Py.replace_go old new 0 t.
Proof. induction a as [|c a IH]; [done|]. rewrite PyFacts.app_cons. cbn. apply IH. Qed.

(** A match at the head is replaced, and the scan resumes after it. *)
Lemma replace_match (old new t : string) :
  old ≠ "" → Py.replace old new (old +:+ t) = new +:+ Py.replace old new t.
Proof.
  intros Hne. destruct old as [|c old]; [done|]. unfold Py.replace.
  rewrite PyFacts.app_cons. cbn [Py.replace_go].
  assert (String.prefix (String c old) (String c (old +:+ t)) = true) as ->.
  { apply prefix_app. by exists t. }
  cbn [String.length]. replace (S (String.length old) - 1) with (String.length old) by lia.
  by rewrite replace_go_skip.
Qed.

Lemma replace_no_match (old new : string) (c : ascii) (s : string) :
  String.prefix old (String c s) = false →
  Py.replace old new (String c s) = String c (Py.replace old new s).
Proof. intros H. unfold Py.replace. cbn [Py.replace_go]. by rewrite H. Qed.

Lemma app_length_lt (p t : string) :
  p ≠ "" → String.length t < String.length (p +:+ t).
Proof. intros H. rewrite PyFacts.app_length. destruct p; [done | cbn; lia]. Qed.

Lemma prefix_head_ne (c d : ascii) (p s t : string) :
  c ≠ d → String.prefix (String c p) (String d s +:+ t) = false.
Proof. intros H. rewrite PyFacts.app_cons. cbn. by destruct (ascii_dec c d). Qed.

(** What starts the rewritten name and holds no dot started the name. *)
Lemma prefix_rewritten (p s : string) :
  Py.contains "." p = false →
  String.prefix p (Py.replace ".html" ".xhtml" s) = String.prefix p s.
Proof.
  revert s. induction p as [|c p IH]; intros s Hp.
  - destruct (Py.replace ".html" ".xhtml" s); by destruct s.
  - rewrite PyFacts.contains_char_cons in Hp. apply orb_false_iff in Hp as [Hc Hp].
    apply bool_decide_eq_false in Hc.
    destruct s as [|d s]; [done|].
    destruct (String.prefix ".html" (String d s)) eqn:Hm.
    + apply prefix_app in Hm as [t Ht]. rewrite Ht, replace_match by done.
      rewrite !prefix_head_ne; congruence.
    + rewrite replace_no_match by done. cbn.
      destruct (ascii_dec c d); [by apply IH | done].
Qed.

Lemma contains_xhtml (s : string) :
  Py.contains ".html" (".xhtml" +:+ s) = Py.contains ".html" s.
Proof.
  change (".xhtml" +:+ s)
    with (String "." (String "x" (String "h" (String "t" (String "m" (String "l" s)))))).
  cbn. by destruct s.
Qed.

(** Once [.html] was replaced by [.xhtml], no [.html] is left. *)
Lemma no_html_left (s : string) :
  Py.contains ".html" (Py.replace ".html" ".xhtml" s) = false.
Proof.
  remember (String.length s) as n eqn:Hn.
  revert s Hn. induction n as [n IH] using lt_wf_ind. intros s Hn.
  destruct s as [|d s]; [done|].
  destruct (String.prefix ".html" (String d s)) eqn:Hm.
  - apply prefix_app in Hm as [t Ht]. rewrite Ht, replace_match by done.
    assert (Hlt : String.length t < n).
    { subst n. rewrite Ht. by apply app_length_lt. }
    rewrite contains_xhtml. by apply (IH _ Hlt).
  - rewrite replace_no_match by done. cbn [Py.contains].
    rewrite (IH (String.length s) ltac:(subst n; cbn; lia) s eq_refl).
    rewrite orb_false_r. cbn [String.prefix] in Hm |- *.
    destruct (ascii_dec "." d) as [<-|?]; [|done].
    by rewrite (prefix_rewritten "html").
Qed.

Lemma replace_settles (s : string) :
  Py.replace ".html" ".xhtml" (Py.replace ".html" ".xhtml" s)
  = Py.replace ".html" ".xhtml" s.
Proof. apply LinkClaims.replace_go_absent, no_html_left. Qed.

(** The rewritten name starts with the character the name starts with. *)
Lemma replace_head (c : ascii) (s : string) :
  ∃ r, Py.replace ".html" ".xhtml" (String c s) = String c r.
Proof.
  destruct (String.prefix ".html" (String c s)) eqn:Hm.
  - apply prefix_app in Hm as [t Ht]. rewrite Ht, replace_match by done.
    injection Ht as -> _. eauto.
  - rewrite replace_no_match by done. eauto.
Qed.

End PyMore.

(** ** Further properties of the link rewriter *)

Module LinkMore.
Import Api Crawler Notions.

(** X1. A reference whose first character is neither a slash nor [h] is
    rewritten to a reference that holds no [.html] any more, nothing is
    recorded, and rewriting the result again gives it back unchanged. *)
Theorem page_reference_rewrite_settles (c : ascii) (rest : string) (s : crawler) :
  c ≠ "/"%char → c ≠ "h"%char →
  ∃ r, link_replace (String c rest) s = (s, Ret r)
       ∧ Py.contains ".html" r = false
       ∧ link_replace r s = (s, Ret r).
Proof.
  intros Hs Hh. exists (Py.replace ".html" ".xhtml" (String c rest)).
  split; [by apply LinkFacts.link_replace_other|].
  split; [apply PyMore.no_html_left|].
  destruct (PyMore.replace_head c rest) as [r Hr].
  rewrite Hr at 1. rewrite LinkFacts.link_replace_other by done.
  by rewrite <- Hr, PyMore.replace_settles.
Qed.

Lemma page_reference_rewrite_settles_witness :
  ∃ r, link_replace "ch02.html#s.html" Demo.crawler0 = (Demo.crawler0, Ret r)
       ∧ Py.contains ".html" r = false
       ∧ link_replace r Demo.crawler0 = (Demo.crawler0, Ret r).
Proof. apply (page_reference_rewrite_settles "c" "h02.html#s.html"); done. Defined.

End LinkMore.

(** ** What a run preserves *)

Module Frame.
Import Terms.

Section Preserves.
Context {S : Type} (R : relation S) `{!PreOrder R}.

Lemma preserves_ret {A} (a : A) : preserves R (ret a).
Proof. intros s. reflexivity. Qed.

Lemma preserves_raise {A} (e : exn) : preserves R (@raise S A e).
Proof. intros s. reflexivity. Qed.

Lemma preserves_exit {A} (m : string) : preserves R (@exit S A m).
Proof. intros s. reflexivity. Qed.

Lemma preserves_stalled {A} : preserves R (@stalled S A).
Proof. intros s. reflexivity. Qed.

Lemma preserves_gets {A} (f : S → A) : preserves R (gets f).
Proof. intros s. reflexivity. Qed.

Lemma preserves_or_raise {A} (e : exn) (o : option A) : preserves R (or_raise e o).
Proof. intros s. destruct o; reflexivity. Qed.

Lemma preserves_modify (f : S → S) : (∀ s, R s (f s)) → preserves R (modify f).
Proof. intros H s. apply H. Qed.

Lemma preserves_bind {A B} (m : M S A) (k : A → M S B) :
  preserves R m → (∀ a, preserves R (k a)) → preserves R (bind m k).
Proof.
  intros Hm Hk s. unfold bind. specialize (Hm s).
  destruct (m s) as [s1 [a| | |]]; [|done..].
  etrans; [exact Hm|]. apply Hk.
Qed.

Lemma preserves_for_each {A} (l : list A) (body : A → M S unit) :
  (∀ a, preserves R (body a)) → preserves R (for_each l body).
Proof.
  intros H. induction l as [|a l IH]; [apply preserves_ret|].
  apply preserves_bind; [apply H | by intros _].
Qed.

End Preserves.

Lemma preserves_weaken {S A} (R R' : relation S) (m : M S A) :
  (∀ s s', R s s' → R' s s') → preserves R m → preserves R' m.
Proof. intros H Hm s. apply H, Hm. Qed.

(** A returning [bind] is a returning run followed by a returning run. *)
Lemma bind_ret_inv {S A B} (m : M S A) (k : A → M S B) (s s' : S) (b : B) :
  bind m k s = (s', Ret b) → ∃ s1 a, m s = (s1, Ret a) ∧ k a s1 = (s', Ret b).
Proof. unfold bind. destruct (m s) as [s1 [a| | |]]; [eauto | done..]. Qed.

Lemma bind_ret_run {S A B} (m : M S A) (k : A → M S B) (s s1 : S) (a : A) :
  m s = (s1, Ret a) → bind m k s = k a s1.
Proof. unfold bind. by intros ->. Qed.

End Frame.

(** ** Invariants of the crawl *)

Module CrawlMore.
Import Api Crawler Notions Terms Frame.

#[local] Instance css_grows_preorder : PreOrder css_grows.
Proof.
  split.
  - intros s. by split.
  - intros a b c [H1 H2] [H3 H4]. split; [by etrans | auto].
Qed.

#[local] Instance same_chapter_preorder : PreOrder same_chapter.
Proof.
  split.
  - intros s. by repeat split.
  - intros a b c (?&?&?&?&?&?) (?&?&?&?&?&?). unfold same_chapter. split_and!; congruence.
Qed.

#[local] Instance crawl_progress_kept_preorder : PreOrder crawl_progress_kept.
Proof. split; unfold crawl_progress_kept; [intros s; lia | intros a b c; lia]. Qed.

(** What is done inside the session touches the session only. *)
Lemma preserves_in_session (R : relation crawler) {A} (m : M session A) :
  (∀ s x, R s (set_sess x s)) → preserves R (in_session m).
Proof. intros H s. unfold in_session. destruct (m (sess s)). apply H. Qed.

Lemma css_grows_sess (s : crawler) (x : session) : css_grows s (set_sess x s).
Proof. by split. Qed.

Lemma same_chapter_sess (s : crawler) (x : session) : same_chapter s (set_sess x s).
Proof. by repeat split. Qed.

Lemma crawl_progress_sess (s : crawler) (x : session) :
  crawl_progress_kept s (set_sess x s).
Proof. unfold crawl_progress_kept. cbn. lia. Qed.

Ltac frame :=
  repeat match goal with
    | |- preserves ?R (ret _) => apply (preserves_ret R)
    | |- preserves ?R (raise _) => apply (preserves_raise R)
    | |- preserves ?R (exit _) => apply (preserves_exit R)
    | |- preserves ?R stalled => apply (preserves_stalled R)
    | |- preserves ?R (gets _) => apply (preserves_gets R)
    | |- preserves ?R (or_raise _ _) => apply (preserves_or_raise R)
    | |- preserves _ (in_session _) =>
        apply preserves_in_session;
        [first [apply css_grows_sess | apply same_chapter_sess | apply crawl_progress_sess]]
    | |- preserves ?R (bind _ _) => apply (preserves_bind R); [|intros ?]
    | |- preserves ?R (modify _) => apply (preserves_modify R); intros ?
    | |- preserves _ (let _ := _ in _) => progress cbv zeta
    | |- preserves _ (if ?b then _ else _) => destruct b
    | |- preserves _ (match ?x with _ => _ end) => destruct x
    end.

Lemma link_replace_css (link : string) : preserves css_grows (link_replace link).
Proof. unfold link_replace, display_log. frame. by split. Qed.

Lemma link_replace_chapter (link : string) : preserves same_chapter (link_replace link).
Proof. unfold link_replace, display_log. frame. by repeat split. Qed.

Lemma rewrite_links_css (l : list piece) : preserves css_grows (rewrite_links l).
Proof.
  induction l as [|[t|t] l IH]; cbn [rewrite_links]; frame; try done.
  apply link_replace_css.
Qed.

Lemma rewrite_links_chapter (l : list piece) : preserves same_chapter (rewrite_links l).
Proof.
  induction l as [|[t|t] l IH]; cbn [rewrite_links]; frame; try done.
  apply link_replace_chapter.
Qed.

Lemma inline_styles_css (E : env) (l : list style) (acc : string) :
  preserves css_grows (inline_styles E l acc).
Proof.
  revert acc. induction l as [|x l IH]; intros acc; cbn [inline_styles];
    unfold display_log, display_exit; frame; done.
Qed.

Lemma inline_styles_chapter (E : env) (l : list style) (acc : string) :
  preserves same_chapter (inline_styles E l acc).
Proof.
  revert acc. induction l as [|x l IH]; intros acc; cbn [inline_styles];
    unfold display_log, display_exit; frame; done.
Qed.

(** A stylesheet URL joins the list only when it is not yet there. *)
Lemma link_stylesheets_css (E : env) (links : list (option string)) (n : nat)
    (acc : string) :
  preserves css_grows (link_stylesheets E links n acc).
Proof.
  revert n acc. induction links as [|[href|] links IH]; intros n acc s;
    [reflexivity | | reflexivity].
  cbn [link_stylesheets].
  cbv beta iota zeta delta [bind ret gets modify or_raise display_log in_session].
  destruct (bool_decide (Crawler.css_url E href ∈ css s)) eqn:Hk; [apply IH|].
  apply bool_decide_eq_false in Hk.
  etrans; [|apply IH]. split; cbn.
  - by apply prefix_app_r.
  - intros Hnd. apply NoDup_app. split_and!; [done| |apply NoDup_singleton].
    intros x Hx ->%list_elem_of_singleton. done.
Qed.

Lemma link_stylesheets_chapter (E : env) (links : list (option string)) (n : nat)
    (acc : string) :
  preserves same_chapter (link_stylesheets E links n acc).
Proof.
  revert n acc. induction links as [|[href|] links IH]; intros n acc;
    cbn [link_stylesheets]; unfold display_log; frame; done.
Qed.

Lemma parse_html_css (E : env) (root : document) : preserves css_grows (parse_html E root).
Proof.
  unfold parse_html, display_log, display_exit. frame; try done.
  - apply link_stylesheets_css.
  - apply inline_styles_css.
  - apply rewrite_links_css.
Qed.

Lemma parse_html_chapter (E : env) (root : document) :
  preserves same_chapter (parse_html E root).
Proof.
  unfold parse_html, display_log, display_exit. frame; try done.
  - apply link_stylesheets_chapter.
  - apply inline_styles_chapter.
  - apply rewrite_links_chapter.
Qed.

Lemma get_html_css (E : env) (url : string) : preserves css_grows (get_html E url).
Proof. unfold get_html, requests_provider, display_log, display_exit. frame; done. Qed.

Lemma get_html_chapter (E : env) (url : string) : preserves same_chapter (get_html E url).
Proof. unfold get_html, requests_provider, display_log, display_exit. frame; done. Qed.

Lemma display_state_css (origin done : Z) : preserves css_grows (display_state origin done).
Proof. unfold display_state. frame; done. Qed.

Lemma get_css (E : env) (depth : nat) : preserves css_grows (get E depth).
Proof.
  induction depth as [|depth IH]; cbn [get]; [frame|].
  unfold save_page_html, display_log. frame; try done.
  - apply get_html_css.
  - apply parse_html_css.
  - apply display_state_css.
Qed.

Ltac crunch :=
  cbv beta iota zeta delta
    [bind ret gets modify or_raise raise display_log in_session display_state
     save_page_html].

Lemma crawl_state_progress (origin done : Z) :
  preserves crawl_progress_kept (display_state origin done).
Proof.
  intros s. unfold crawl_progress_kept. crunch.
  destruct (decide (origin = 0)%Z); [cbn; lia|]. case_decide; cbn; lia.
Qed.

Lemma same_chapter_progress (s s' : crawler) :
  same_chapter s s' → crawl_progress_kept s s'.
Proof. intros (_ & _ & _ & _ & _ & H). unfold crawl_progress_kept. lia. Qed.

Lemma get_progress (E : env) (depth : nat) : preserves crawl_progress_kept (get E depth).
Proof.
  induction depth as [|depth IH]; cbn [get]; [frame|].
  unfold save_page_html, display_log. frame; try done;
    try (unfold crawl_progress_kept; cbn; lia).
  - apply (preserves_weaken same_chapter); [apply same_chapter_progress|].
    apply get_html_chapter.
  - apply (preserves_weaken same_chapter); [apply same_chapter_progress|].
    apply parse_html_chapter.
  - apply crawl_state_progress.
Qed.

(** A chapter whose file is not on disk: either the step fails and
    every file is as before, save for the page when it was already
    written; or the page was written to the file of the chapter, and the
    crawl goes on with the rest of the queue. *)
Lemma get_fetched (E : env) (depth : nat) (s : crawler) (c : chapter) (q : list chapter) :
  chapters_queue s = c :: q →
  files s !! target E c = None →
  (∃ s1 page, get E (S depth) s = get E depth s1
        ∧ chapters_queue s1 = q
        ∧ files s1 = <[target E c := page]> (files s)
        ∧ book_ad_info s1 = book_ad_info s)
  ∨ ((get E (S depth) s).2 ≠ Ret tt ∧ files s ⊆ files (get E (S depth) s).1).
Proof.
  intros Hq Hnone. cbn [get]. crunch. rewrite Hq. cbv beta iota.
  fold (target E c).
  set (s0 := set_filename (c_filename c)
               (set_chapter_title (c_title c) (set_chapters_queue q s))).
  change (files s0) with (files s).
  rewrite bool_decide_false by (rewrite Hnone; apply is_Some_None).
  pose proof (get_html_chapter E (urljoin E (base_url E) (c_filename c)) s0) as Hg.
  destruct (get_html E (urljoin E (base_url E) (c_filename c)) s0) as [s1 [root| | |]];
    destruct Hg as (Hf1 & Hn1 & _ & Hq1 & Hb1 & _); cbn [fst snd] in *;
    try (right; split; [done | by rewrite Hf1]).
  pose proof (parse_html_chapter E root s1) as Hp.
  destruct (parse_html E root s1) as [s2 [contents| | |]];
    destruct Hp as (Hf2 & Hn2 & _ & Hq2 & Hb2 & _); cbn [fst snd] in *;
    try (right; split; [done | by rewrite Hf2, Hf1]).
  assert (Hname : filename s2 = c_filename c) by (by rewrite Hn2, Hn1).
  assert (Hfiles : files s2 = files s) by (by rewrite Hf2, Hf1).
  cbn [filename set_filename files set_files set_sess chapters_queue state_status].
  rewrite Hname. fold (target E c).
  destruct (decide (Z.of_nat (length (book_chapters E)) = 0%Z)).
  { right. split; [done|]. cbn. rewrite Hfiles. by apply insert_subseteq. }
  case_decide;
    (left; eexists; eexists; split; [reflexivity|]; cbn; rewrite ?Hfiles;
     split_and!; [by rewrite Hq2, Hq1 | reflexivity | by rewrite Hb2, Hb1]).
Qed.

Lemma index_None `{EqDecision A} (x : A) (l : list A) :
  x ∉ l → Py.index x l = None.
Proof.
  induction l as [|y l IH]; [done|]. intros Hx. cbn.
  rewrite decide_False by (intros ->; apply Hx; left).
  rewrite IH; [done|]. intros ?. apply Hx. by right.
Qed.

(** A chapter whose file is on disk: nothing is fetched or written. The
    first time this happens in a run the notice is logged. The step
    only fails on a chapter that is not one of the book. *)
Lemma get_cached_any (E : env) (depth : nat) (s : crawler) (c : chapter)
    (q : list chapter) :
  chapters_queue s = c :: q →
  is_Some (files s !! target E c) →
  (∃ s1, get E (S depth) s = get E depth s1
        ∧ chapters_queue s1 = q
        ∧ files s1 = files s
        ∧ asked (sess s1) = asked (sess s)
        ∧ book_ad_info s1 = true
        ∧ logged (sess s1)
          = logged (sess s)
            ++ (if book_ad_info s then []
                else [already_exists E (Py.replace ".html" ".xhtml" (c_filename c))]))
  ∨ ((c ∉ book_chapters E)
     ∧ (get E (S depth) s).2 ≠ Ret tt ∧ files (get E (S depth) s).1 = files s).
Proof.
  intros Hq Hf. cbn [get]. crunch. rewrite Hq. cbv beta iota.
  fold (target E c).
  set (s0 := set_filename (c_filename c)
               (set_chapter_title (c_title c) (set_chapters_queue q s))).
  change (files s0) with (files s).
  rewrite bool_decide_true by done.
  change (book_ad_info s0) with (book_ad_info s).
  destruct (decide (c ∈ book_chapters E)) as [Hc|Hc].
  - destruct (PyFacts.index_elem c (book_chapters E) Hc) as (i & Hi & Hni).
    assert (Hlen : Z.of_nat (length (book_chapters E)) ≠ 0%Z).
    { destruct (book_chapters E); [by apply elem_of_nil in Hc | cbn; lia]. }
    left. destruct (book_ad_info s) eqn:Hb.
    + rewrite decide_False by done.
      case_decide; eexists; (split; [reflexivity|]); cbn; rewrite ?app_nil_r; done.
    + rewrite Hi. cbv beta iota. rewrite bool_decide_true by done.
      rewrite decide_False by done.
      case_decide; eexists; (split; [reflexivity|]); done.
  - destruct (book_ad_info s) eqn:Hb.
    + destruct (decide (Z.of_nat (length (book_chapters E)) = 0%Z)).
      { by right. }
      left. case_decide; eexists; (split; [reflexivity|]); cbn; rewrite ?app_nil_r; done.
    + rewrite (index_None c) by done. by right.
Qed.

(** Whatever the crawl does and however it ends, what was on disk is
    still there, unchanged. *)
Lemma get_keeps_files (E : env) (depth : nat) (s : crawler) :
  files s ⊆ files (get E depth s).1.
Proof.
  revert s. induction depth as [|depth IH]; intros s; [done|].
  destruct (chapters_queue s) as [|c q] eqn:Hq.
  { cbn [get]. crunch. by rewrite Hq. }
  destruct (files s !! target E c) as [x|] eqn:Hf.
  - destruct (get_cached_any E depth s c q Hq) as [(s1 & -> & _ & Hs1 & _)|(_ & _ & ->)];
      [by rewrite Hf | | done].
    rewrite <- Hs1. apply IH.
  - destruct (get_fetched E depth s c q Hq Hf) as [(s1 & page & -> & _ & Hs1 & _)|[_ ?]];
      [|done].
    etrans; [|apply IH]. rewrite Hs1. by apply insert_subseteq.
Qed.

(** When the crawl returns, the file of every chapter it was to handle
    is on disk. *)
Lemma get_returns_files (E : env) (depth : nat) (s : crawler) :
  (get E depth s).2 = Ret tt →
  ∀ c, c ∈ chapters_queue s → is_Some (files (get E depth s).1 !! target E c).
Proof.
  revert s. induction depth as [|depth IH]; intros s Hr c' Hc'; [done|].
  destruct (chapters_queue s) as [|c q] eqn:Hq; [by apply elem_of_nil in Hc'|].
  assert (∃ s1, get E (S depth) s = get E depth s1 ∧ chapters_queue s1 = q
                ∧ is_Some (files s1 !! target E c)) as (s1 & Heq & Hq1 & Hc1).
  { destruct (files s !! target E c) as [x|] eqn:Hf.
    - destruct (get_cached_any E depth s c q Hq) as [(s1 & ? & ? & Hs1 & _)|(_ & ? & _)];
        [by rewrite Hf | | done].
      exists s1. rewrite Hs1, Hf. eauto.
    - destruct (get_fetched E depth s c q Hq Hf) as [(s1 & page & ? & ? & Hs1 & _)|[? _]];
        [|done].
      exists s1. rewrite Hs1, lookup_insert_eq. eauto. }
  rewrite Heq in Hr |- *.
  apply elem_of_cons in Hc' as [->|Hc'].
  - eapply lookup_weaken_is_Some; [exact Hc1 | apply get_keeps_files].
  - apply IH; [done | by rewrite Hq1].
Qed.

(** With every file of the queue on disk, the notice is logged for the
    first chapter handled, unless it was given before, and for no
    other. *)
Lemma get_notice (E : env) (depth : nat) : ∀ (s : crawler) (k : nat),
  chapters_queue s = drop k (book_chapters E) →
  (∀ c, c ∈ book_chapters E → is_Some (files s !! target E c)) →
  length (chapters_queue s) < depth →
  logged (sess (get E depth s).1)
  = logged (sess s)
    ++ (if book_ad_info s then []
        else match chapters_queue s with
             | [] => []
             | c :: _ => [already_exists E (Py.replace ".html" ".xhtml" (c_filename c))]
             end).
Proof.
  induction depth as [|depth IH]; intros s k Hk Hall Hlen; [lia|].
  destruct (chapters_queue s) as [|c q] eqn:Hq.
  { cbn [get]. crunch. rewrite Hq. cbn. by destruct (book_ad_info s); rewrite app_nil_r. }
  assert (Hc : c ∈ book_chapters E).
  { rewrite <- (take_drop k (book_chapters E)), <- Hk. apply elem_of_app. right. left. }
  destruct (get_cached_any E depth s c q Hq (Hall c Hc))
    as [(s1 & -> & Hq1 & Hf1 & _ & Hb1 & Hl1)|(? & _)]; [|done].
  rewrite (IH s1 (S k)).
  - by rewrite Hb1, app_nil_r.
  - rewrite Hq1. replace (S k) with (k + 1) by lia.
    by rewrite <- drop_drop, <- Hk.
  - intros c' Hc'. rewrite Hf1. by apply Hall.
  - rewrite Hq1. cbn in Hlen. lia.
Qed.

Lemma index_app `{EqDecision A} (x : A) (l k : list A) (i : nat) :
  Py.index x l = Some i → Py.index x (l ++ k) = Some i.
Proof.
  revert i. induction l as [|y l IH]; intros i; [done|]. cbn.
  destruct (decide (y = x)); [done|].
  destruct (Py.index x l) as [j|]; [|done]. intros [= <-]. by rewrite (IH j).
Qed.

(** What [link_replace] returns does not depend on the state. *)
Lemma link_replace_result (link : string) (s s' : crawler) :
  (link_replace link s).2 = (link_replace link s').2.
Proof.
  unfold link_replace. crunch. destruct (Py.item0 link); [|done].
  cbv beta iota. by repeat case_match.
Qed.

Lemma link_replace_records (link : string) (s : crawler) :
  link ≠ "" →
  ∃ t, link_replace link s
       = (if image_link link then recorded link s else s, Ret t).
Proof.
  intros Hne. destruct link as [|c rest]; [done|]. unfold image_link.
  destruct (ascii_dec c "/") as [->|Hs].
  - assert (String.prefix "/" (String "/" rest) = true) as ->.
    { apply PyFacts.prefix_char. eauto. }
    destruct (hinted (String "/" rest)) eqn:Hh.
    + rewrite LinkFacts.link_replace_image by done. eauto.
    + rewrite LinkFacts.link_replace_root by done. eauto.
  - assert (String.prefix "/" (String c rest) = false) as ->.
    { cbn [String.prefix]. destruct (ascii_dec "/" c) as [<-|?]; done. }
    destruct (ascii_dec c "h") as [->|Hh].
    + rewrite LinkFacts.link_replace_h. eauto.
    + rewrite LinkFacts.link_replace_other by done. eauto.
Qed.

Lemma rewrite_links_run (l : list piece) : ∀ s : crawler,
  Forall (λ t, t ≠ "") (links l) →
  ∃ l', rewrite_links l s
        = (all_recorded (filter (λ t, image_link t = true) (links l)) s, Ret l')
        ∧ Forall2 rewritten_as l l'.
Proof.
  induction l as [|[a|t] l IH]; intros s Hl.
  - exists []. split; [done | constructor].
  - destruct (IH s Hl) as (l' & Heq & Hall).
    exists (Text a :: l'). cbn [rewrite_links]. unfold bind. rewrite Heq.
    split; [done|]. by constructor.
  - change (links (Link t :: l)) with (t :: links l) in Hl.
    apply Forall_cons in Hl as [Ht Hl].
    destruct (link_replace_records t s Ht) as [t' Heq].
    destruct (IH (if image_link t then recorded t s else s) Hl) as (l' & Heq' & Hall).
    exists (Link t' :: l'). cbn [rewrite_links]. unfold bind. rewrite Heq, Heq'.
    split.
    + unfold ret. f_equal. change (links (Link t :: l)) with (t :: links l).
      rewrite filter_cons.
      destruct (image_link t); [by rewrite decide_True | by rewrite decide_False].
    + constructor; [|done]. intros s0.
      by rewrite (link_replace_result t s0 s), Heq.
Qed.

Lemma all_recorded_images (l : list string) (s : crawler) :
  images (all_recorded l s) = images s ++ l
  ∧ css (all_recorded l s) = css s ∧ files (all_recorded l s) = files s
  ∧ logged (sess (all_recorded l s))
    = logged (sess s) ++ ((λ t, "Crawler: found a new image at " +:+ t) <$> l).
Proof.
  revert s. induction l as [|t l IH]; intros s.
  - cbn. by rewrite !app_nil_r.
  - change (all_recorded (t :: l) s) with (all_recorded l (recorded t s)).
    destruct (IH (recorded t s)) as (-> & -> & -> & ->).
    cbn. by rewrite <- !app_assoc.
Qed.

End CrawlMore.

Module CrawlProperties.
Import Api Crawler Notions Terms Frame CrawlMore.



(** X3. However a page is parsed and however far the crawl gets, the
    stylesheets known before are still the first ones of the list, at
    the same positions, and a list without duplicates stays without
    duplicates. *)
Theorem stylesheet_positions_are_stable (E : env) (root : document) (depth : nat)
    (s : crawler) :
  NoDup (css s) →
  NoDup (css (parse_html E root s).1)
  ∧ css s `prefix_of` css (parse_html E root s).1
  ∧ NoDup (css (get E depth s).1)
  ∧ css s `prefix_of` css (get E depth s).1
  ∧ ∀ url i, Py.index url (css s) = Some i →
             Py.index url (css (get E depth s).1) = Some i.
Proof.
  intros Hnd. destruct (parse_html_css E root s) as [Hp Hn].
  destruct (get_css E depth s) as [Hp' Hn'].
  split_and!; auto.
  intros url i Hi. destruct Hp' as [k ->]. by apply index_app.
Qed.

Lemma stylesheet_positions_are_stable_witness :
  NoDup (css Demo.crawler0)
  ∧ NoDup (css (parse_html Demo.offline Demo.chapter_one Demo.crawler0).1)
  ∧ NoDup (css (get Demo.offline 3 Demo.crawler0).1).
Proof.
  assert (H : NoDup (css Demo.crawler0)) by apply NoDup_nil_2.
  destruct (stylesheet_positions_are_stable Demo.offline Demo.chapter_one 3
              Demo.crawler0 H) as (H1 & _ & H2 & _).
  split; [exact H|]. split; [exact H1 | exact H2].
Defined.


(** X5. When the crawl returns, the file of every chapter of the book
    is on disk, and a crawl started again from there returns as well
    without a request and without touching a file. *)
Theorem crawl_then_resume (E : env) (depth extra : nat) (s : crawler) :
  (crawl E depth s).2 = Ret tt →
  let s' := (crawl E depth s).1 in
  let again := crawl E (S (length (book_chapters E)) + extra) s' in
  (∀ c, c ∈ book_chapters E → is_Some (files s' !! target E c))
  ∧ again.2 = Ret tt
  ∧ files again.1 = files s'
  ∧ asked (sess again.1) = asked (sess s').
Proof.
  intros Hr s' again.
  assert (Hall : ∀ c, c ∈ book_chapters E → is_Some (files s' !! target E c)).
  { intros c Hc. subst s'. revert Hr. unfold crawl, bind, modify.
    intros Hr. by apply get_returns_files. }
  split; [done|]. subst again. unfold crawl. unfold bind, modify at 1.
  destruct (CrawlFacts.get_skips E (S (length (book_chapters E)) + extra)
              (set_chapters_queue (book_chapters E) s') 0) as (H1 & H2 & H3 & _).
  - done.
  - done.
  - cbn. lia.
  - done.
Qed.

Lemma crawl_then_resume_witness :
  let s' := (crawl Inputs.online 3 Demo.crawler0).1 in
  is_Some (files s' !! "/books/Book/OEBPS/ch02.xhtml")
  ∧ asked (sess (crawl Inputs.online 3 s').1) = asked (sess s').
Proof.
  destruct (crawl_then_resume Inputs.online 3 0 Demo.crawler0) as (H1 & _ & _ & H2).
  - vm_compute. reflexivity.
  - split; [|exact H2].
    apply (H1 (Chapter "Two" "ch02.html" ∅)). right. left.
Defined.

(** X6. A run that finds the file of every chapter on disk logs the
    notice that a file already exists once, for the first chapter of
    the book, and for no other chapter; when the notice was given before,
    nothing is logged. *)
Theorem resume_notice_once (E : env) (extra : nat) (s : crawler) :
  (∀ c, c ∈ book_chapters E → is_Some (files s !! target E c)) →
  logged (sess (crawl E (S (length (book_chapters E)) + extra) s).1)
  = logged (sess s)
    ++ (if book_ad_info s then []
        else match book_chapters E with
             | [] => []
             | c :: _ => [already_exists E (Py.replace ".html" ".xhtml" (c_filename c))]
             end).
Proof.
  intros Hall. unfold crawl. unfold bind, modify at 1.
  rewrite (get_notice E _ (set_chapters_queue (book_chapters E) s) 0); [done..|].
  cbn. lia.
Qed.

Lemma resume_notice_once_witness :
  logged (sess (crawl Demo.offline 3 Demo.resumed).1)
  = [already_exists Demo.offline "ch01.xhtml"].
Proof.
  apply (resume_notice_once Demo.offline 0 Demo.resumed).
  intros c Hc. unfold Demo.offline, Demo.crawl_env, Demo.book in Hc. cbn in Hc.
  apply elem_of_cons in Hc as [->|Hc]; [by vm_compute; eexists|].
  apply list_elem_of_singleton in Hc as ->. by vm_compute; eexists.
Defined.

(** X7. A page that shows controls is parsed like the same page without
    them when the draw of [random] is not above one half. When it is,
    the run ends there: with the cookies file on disk, the file is
    removed and the run exits with the advice to use [--cred]; without
    it, [os.remove] raises. In both cases no stylesheet, image or file
    was touched. *)
Theorem controls_end_the_session (E : env) (root : document) (s : crawler) :
  controls root ≠ [] →
  if random_above_half E (draws s) then
    parse_html E root s
    = if cookies_file (sess s)
      then (set_sess (log use_cred (set_cookies_file false (sess s)))
              (set_draws (draws s + 1) s), Exit use_cred)
      else (set_draws (draws s + 1) s, Raise FileNotFoundError)
  else parse_html E root s = parse_html E (without_controls root) s.
Proof.
  intros Hc. unfold parse_html. crunch.
  destruct (random_above_half E (draws s)); cbn [andb].
  - rewrite bool_decide_false by done. cbn [negb].
    unfold api_error, display_exit, Api.display_exit, remove_cookies_file, has_detail. crunch.
    change (Py.contains "detail" " ") with false. cbv beta iota.
    cbn [sess set_draws set_sess].
    destruct (cookies_file (sess s)); [|by destruct s].
    cbv beta iota. cbn [sess set_sess]. by destruct s.
  - done.
Qed.

Lemma controls_end_the_session_witness :
  parse_html Inputs.suspicious Inputs.signed_out Demo.crawler0
  = (set_sess (log use_cred (set_cookies_file false Demo.session0))
       (set_draws 1 Demo.crawler0), Exit use_cred).
Proof. apply (controls_end_the_session Inputs.suspicious Inputs.signed_out Demo.crawler0). done. Defined.

End CrawlProperties.

(** ** The navigation document *)

Module NcxFacts.
Import Api Toc Ncx Notions Terms.

(** The markup of the nodes visited is appended to what the loop was
    given. *)
Lemma for_nodes_acc (visit : toc → nat → Z → string * nat * Z) (l : list toc) :
  ∀ (r : string) (c : nat) (mx : Z),
    for_nodes visit l r c mx
    = (r +:+ (for_nodes visit l "" c mx).1.1,
       (for_nodes visit l "" c mx).1.2, (for_nodes visit l "" c mx).2).
Proof.
  induction l as [|cc l IH]; intros r c mx; cbn [for_nodes].
  - by rewrite PyFacts.app_nil_r.
  - destruct (visit cc c mx) as [[r1 c1] m1].
    rewrite (IH (r +:+ r1)), (IH ("" +:+ r1)). cbn [fst snd].
    by rewrite PyFacts.app_nil_l, PyFacts.app_assoc.
Qed.

Lemma for_nodes_app (visit : toc → nat → Z → string * nat * Z) (l1 l2 : list toc) :
  ∀ (r : string) (c : nat) (mx : Z),
    for_nodes visit (l1 ++ l2) r c mx
    = for_nodes visit l2 (for_nodes visit l1 r c mx).1.1
        (for_nodes visit l1 r c mx).1.2 (for_nodes visit l1 r c mx).2.
Proof.
  induction l1 as [|cc l1 IH]; intros r c mx; [done|].
  cbn [app for_nodes]. destruct (visit cc c mx) as [[r1 c1] m1]. apply IH.
Qed.

Lemma api_error_then_exit {A} (E : Api.env) (r : response) (suffix : string) (s : session) :
  let out := bind (api_error E r) (λ message, @display_exit A (message +:+ suffix)) s in
  (∃ m, out.2 = Exit (m +:+ suffix)) ∨ (∃ e, out.2 = Raise e).
Proof.
  cbv zeta. unfold bind.
  destruct (ApiFacts.api_error_ends E r s) as [_ [[m Hm]|[e He]]];
    destruct (api_error E r s) as [s1 o]; cbn [snd] in *; subst o.
  - left. exists m. reflexivity.
  - right. exists e. reflexivity.
Qed.

Ltac run :=
  cbv beta iota zeta delta
    [bind ret gets modify or_raise raise exit stalled display_exit
     Ncx.requests_provider Api.requests_provider].

End NcxFacts.

Module NcxProperties.
Import Api Toc Ncx Notions Terms NcxFacts.

(** X8. [parse_toc] composes: the markup of a list in two parts is the
    markup of the first part followed by that of the second, the second
    numbered from where the first ended and starting from the depth the
    first reached; and the markup of a node is its opening tag, numbered
    one more than what precedes, the markup of its children and the
    closing tag. *)
Theorem parse_toc_composes (l1 l2 : list toc) (c : nat) (mx : Z) :
  let first := parse_toc l1 c mx in
  let second := parse_toc l2 first.1.2 first.2 in
  parse_toc (l1 ++ l2) c mx = (first.1.1 +:+ second.1.1, second.1.2, second.2)
  ∧ parse_toc [] c mx = ("", c, mx)
  ∧ ∀ id fragment label href depth children,
      let below := parse_toc children (c + 1) (if decide (depth > mx)%Z then depth else mx) in
      parse_toc [Node id fragment label href depth children] c mx
      = (navPoint_open (if decide (String.length fragment = 0) then id else fragment)
           (c + 1) label href +:+ below.1.1 +:+ navPoint_close,
         below.1.2, below.2).
Proof.
  cbv zeta. split_and!.
  - unfold parse_toc. rewrite for_nodes_app.
    by rewrite (for_nodes_acc _ l2 (for_nodes parse_node l1 "" c mx).1.1).
  - done.
  - intros id fragment label href depth children. unfold parse_toc.
    cbn [for_nodes parse_node]. destruct children as [|cc children]; [done|].
    destruct (for_nodes parse_node (cc :: children) "" (c + 1)
                (if decide (depth > mx)%Z then depth else mx)) as [[sr c'] mx'].
    done.
Qed.

(** X9. [create_toc] returns in two cases only: the service answered an
    array of nodes, and the document carries the markup and the depth
    [parse_toc] computes from position 0 and depth 0; or it answered the
    empty object, and the document has an empty [navMap] and depth 0. The
    title and the authors are written as they are, not escaped. Then
    the request was the only thing done. *)
Theorem create_toc_returns_iff (E : Ncx.env) (s : session) (doc : string) :
  let url := urljoin (api E) (api_url (api E)) "toc/" in
  let uid := if decide (String.length (Opf.isbn (book_info E)) = 0) then book_id E
             else Opf.isbn (book_info E) in
  let document depth navmap :=
    TOC_NCX uid depth (Opf.title (book_info E))
      (Py.join ", " (Opf.authors (book_info E))) navmap in
  ((create_toc E s).2 = Ret doc ↔
     (∃ l, toc_server E url = Json (TList l)
           ∧ doc = document (pretty (parse_toc l 0 0).2) (parse_toc l 0 0).1.1)
     ∨ (toc_server E url = Json (TDict ∅) ∧ doc = document "0" ""))
  ∧ ((create_toc E s).2 = Ret doc → (create_toc E s).1 = ask url s).
Proof.
  cbv zeta. unfold create_toc. run.
  destruct (toc_server E (urljoin (api E) (api_url (api E)) "toc/")) as [reason| |[l|d|]].
  - split; [|done]. split; [done|]. intros [(l & [=] & _)|([=] & _)].
  - split; [|done]. split; [done|]. intros [(l & [=] & _)|([=] & _)].
  - cbn [parse_response]. run.
    destruct (parse_toc l 0 0) as [[navmap c] max_depth] eqn:Hp. cbn [fst snd].
    split; [|done]. split.
    + intros [= <-]. left. exists l. by rewrite Hp.
    + intros [(l' & [= <-] & ->)|([=] & _)]. by rewrite Hp.
  - destruct (decide (size d = 1)) as [H1|H1].
    + destruct (api_error_then_exit (A:=unit) (api E) (RDict d) run_again
                  (ask (urljoin (api E) (api_url (api E)) "toc/") s)) as [[m Hm]|[e He]];
        revert Hm || revert He; cbv zeta; run;
        destruct (api_error (api E) (RDict d) _) as [s1 [m'| | |]]; cbn [snd];
        intros [=]; subst;
        (split; [|done]); (split; [done|]);
        intros [(l & [=] & _)|([= ->] & _)]; by rewrite map_size_empty in H1.
    + cbn [parse_response]. destruct (decide (size d = 0)) as [H0|H0].
      * apply map_size_empty_iff in H0 as ->. run. split; [|done].
        split; [intros [= <-]; by right | intros [(l & [=] & _)|(_ & ->)]; done].
      * run. split; [|done]. split; [done|].
        intros [(l & [=] & _)|([= ->] & _)]. by rewrite map_size_empty in H0.
  - split; [|done]. split; [done|]. intros [(l & [=] & _)|([=] & _)].
Qed.

(** X10. How [create_toc] fails. A request that failed ends the run with
    the advice to run again; a value that is neither an array nor an
    object raises [AttributeError]; an object with two keys or more
    raises [TypeError]; an object with one key ends the run, by an exit
    whose message ends with the advice to run again or by an exception.
    Only in the last case can the cookies file be removed. In every case
    exactly one request was made. *)
Theorem create_toc_failures (E : Ncx.env) (s : session) :
  let url := urljoin (api E) (api_url (api E)) "toc/" in
  let r := create_toc E s in
  asked r.1 = asked s ++ [url]
  ∧ match toc_server E url with
    | Failed reason => r = (log no_toc (log reason (ask url s)), Exit no_toc)
    | NotJson => r = (ask url s, Raise ValueError)
    | Json TOther => r = (ask url s, Raise AttributeError)
    | Json (TDict d) =>
        if decide (size d = 1)
        then (∃ m, r.2 = Exit (m +:+ run_again)) ∨ (∃ e, r.2 = Raise e)
        else if decide (size d = 0) then r.1 = ask url s
        else r = (ask url s, Raise TypeError)
    | Json (TList _) => r.1 = ask url s
    end.
Proof.
  cbv zeta. unfold create_toc. run.
  destruct (toc_server E (urljoin (api E) (api_url (api E)) "toc/")) as [reason| |[l|d|]];
    try done.
  - cbn [parse_response]. run. by destruct (parse_toc l 0 0) as [[navmap c] max_depth].
  - destruct (decide (size d = 1)) as [H1|H1].
    + pose proof (ApiFacts.api_error_ends (api E) (RDict d)
                    (ask (urljoin (api E) (api_url (api E)) "toc/") s)) as [Ha Ho].
      revert Ha Ho.
      destruct (api_error (api E) (RDict d) _) as [s1 o]; cbn [fst snd].
      intros Ha [[m ->]|[e ->]]; cbn [fst snd]; (split; [exact Ha|]); eauto.
    + cbn [parse_response]. destruct (decide (size d = 0)); run; done.
Qed.

End NcxProperties.

(** ** The book record *)

Module InfoFacts.
Import Api Info Notions.

Lemma bind_ret_provider {A} (E : env) (url : string) (k : reply → M session A)
    (s : session) :
  bind (requests_provider E url) k s
  = k (server E url)
      (match server E url with
       | Failed reason => log reason (ask url s)
       | _ => ask url s
       end).
Proof. unfold bind at 1. by rewrite ApiFacts.provider_run. Qed.

End InfoFacts.

Module InfoProperties.
Import Api Info Notions InfoFacts.

(** X11. [get_book_info] returns exactly when the service answers an
    object with other than one key, the empty object included: the
    record is that object without its [last_chapter_read], every other
    key as it was. One request was made, whatever the answer, and when
    the record is returned nothing else was done. *)
Theorem get_book_info_returns_iff (E : env) (s : session) :
  let r := get_book_info E s in
  (∀ info, r.2 = Ret info ↔
     ∃ d, server E (api_url E) = Json (RDict d) ∧ size d ≠ 1
          ∧ info = delete "last_chapter_read" d)
  ∧ (∀ info, r.2 = Ret info → r.1 = ask (api_url E) s)
  ∧ asked r.1 = asked s ++ [api_url E].
Proof.
  cbv zeta. unfold get_book_info. rewrite bind_ret_provider.
  destruct (server E (api_url E)) as [reason| |[d|v]].
  - split_and!; [|done..]. intros info. split; [done | by intros (d & [=] & _)].
  - split_and!; [|done..]. intros info. split; [done | by intros (d & [=] & _)].
  - destruct (decide (size d = 1)) as [H1|H1].
    + destruct (ApiFacts.api_error_exit (A:=gmap string value) E (RDict d)
                  (ask (api_url E) s)) as [Hf Ha].
      split_and!; [| |exact Ha].
      * intros info. split; [intros H; by rewrite H in Hf|].
        by intros (d' & [= <-] & ? & _).
      * intros info H. by rewrite H in Hf.
    + assert (Hd : (if bool_decide (is_Some (d !! "last_chapter_read"))
                    then delete "last_chapter_read" d else d)
                   = delete "last_chapter_read" d).
      { case_bool_decide as Hl; [done|]. symmetry. apply delete_id.
        by apply eq_None_not_Some. }
      unfold ret. cbn [fst snd]. rewrite Hd.
      split_and!; [|done..]. intros info. split.
      * intros [= <-]. by exists d.
      * by intros (d' & [= <-] & _ & ->).
  - destruct (ApiFacts.api_error_exit (A:=gmap string value) E (RValue v)
                (ask (api_url E) s)) as [Hf Ha].
    split_and!; [| |exact Ha].
    + intros info. split; [intros H; by rewrite H in Hf|].
      by intros (d' & [=] & _).
    + intros info H. by rewrite H in Hf.
Qed.

End InfoProperties.

(** ** Splitting and joining *)

Module SplitFacts.
Import Terms.

Lemma split_nonempty (sep : ascii) (s : string) : Py.split sep s ≠ [].
Proof.
  destruct s as [|c s]; cbn; [done|].
  destruct (decide (c = sep)); [done|]. by destruct (Py.split sep s).
Qed.

Lemma split_cons_other (sep c : ascii) (s : string) :
  c ≠ sep →
  ∃ h t, Py.split sep s = h :: t ∧ Py.split sep (String c s) = String c h :: t.
Proof.
  intros Hc. cbn. rewrite decide_False by done.
  destruct (Py.split sep s) as [|h t] eqn:Hs; [by apply split_nonempty in Hs|]. eauto.
Qed.

(** Splitting at a separator splits what precedes it and what follows
    it. *)
Lemma split_app (sep : ascii) (x e : string) :
  Py.split sep (x +:+ String sep e) = Py.split sep x ++ Py.split sep e.
Proof.
  induction x as [|c x IH].
  - rewrite PyFacts.app_nil_l. cbn. by rewrite decide_True.
  - rewrite PyFacts.app_cons. destruct (decide (c = sep)) as [->|Hc].
    + cbn. rewrite !decide_True by done. by rewrite IH.
    + destruct (split_cons_other sep c x Hc) as (h & t & Hx & ->).
      destruct (split_cons_other sep c (x +:+ String sep e) Hc) as (h' & t' & Hx' & ->).
      rewrite IH, Hx in Hx'. by injection Hx' as <- <-.
Qed.

Lemma split_whole (sep : ascii) (s : string) :
  Py.contains (String sep "") s = false → Py.split sep s = [s].
Proof.
  induction s as [|c s IH]; [done|]. rewrite PyFacts.contains_char_cons.
  intros [Hc Hs]%orb_false_iff. apply bool_decide_eq_false in Hc.
  cbn. rewrite decide_False by done. by rewrite IH.
Qed.

(** No part holds the separator, and joining the parts with it gives
    the string back. *)
Lemma split_parts (sep : ascii) (s : string) :
  Forall (λ p, Py.contains (String sep "") p = false) (Py.split sep s).
Proof.
  induction s as [|c s IH]; [by repeat constructor|].
  destruct (decide (c = sep)) as [->|Hc].
  - cbn. rewrite decide_True by done. by constructor.
  - destruct (split_cons_other sep c s Hc) as (h & t & Hs & ->).
    rewrite Hs in IH. apply Forall_cons in IH as [Hh Ht]. constructor; [|done].
    rewrite PyFacts.contains_char_cons, Hh, orb_false_r.
    by apply bool_decide_eq_false.
Qed.

Lemma join_cons (sep x : string) (l : list string) :
  l ≠ [] → Py.join sep (x :: l) = x +:+ sep +:+ Py.join sep l.
Proof. by destruct l. Qed.

Lemma join_split (sep : ascii) (s : string) :
  Py.join (String sep "") (Py.split sep s) = s.
Proof.
  induction s as [|c s IH]; [done|].
  destruct (decide (c = sep)) as [->|Hc].
  - cbn [Py.split]. rewrite decide_True by done.
    rewrite join_cons by apply split_nonempty. by rewrite IH.
  - destruct (split_cons_other sep c s Hc) as (h & t & Hs & ->).
    rewrite Hs in IH. destruct t as [|h' t].
    + cbn in IH |- *. by rewrite IH.
    + rewrite join_cons in IH |- * by done. by rewrite PyFacts.app_cons, IH.
Qed.

(** The parts put together without the separator: the string without
    its dots. *)
Lemma concat_split (s : string) : Py.concat (Py.split "." s) = undotted s.
Proof.
  induction s as [|c s IH]; [done|]. cbn [undotted].
  destruct (decide (c = "."%char)) as [->|Hc].
  - cbn [Py.split]. by rewrite decide_True.
  - destruct (split_cons_other "." c s Hc) as (h & t & Hs & ->).
    rewrite Hs in IH. cbn [Py.concat foldr] in *. by rewrite PyFacts.app_cons, IH.
Qed.

Lemma but_last_snoc {A} (l : list A) (x : A) : Py.but_last (l ++ [x]) = l.
Proof.
  unfold Py.but_last. rewrite length_app. cbn.
  replace (length l + 1 - 1) with (length l) by lia. by rewrite take_app_length.
Qed.

Lemma stem_extension (base ext : string) :
  Py.contains "." ext = false → Opf.stem (base +:+ "." +:+ ext) = undotted base.
Proof.
  intros He. unfold Opf.stem.
  change (base +:+ "." +:+ ext) with (base +:+ String "." ext).
  by rewrite split_app, (split_whole "." ext He), but_last_snoc, concat_split.
Qed.

End SplitFacts.

(** ** Further properties of the package document *)

Module OpfProperties.
Import Api Opf Notions Terms SplitFacts.

(** X12. The identifier the manifest gives a file is made of what
    precedes the last dot of its name, with every other dot taken out:
    two names that differ only by such dots get the same identifier, and
    a name without a dot gets the empty one. *)
Theorem manifest_ids_drop_dots (base ext : string) (c : chapter) :
  Py.contains "." ext = false →
  c_filename c = base +:+ "." +:+ ext →
  stem (base +:+ "." +:+ ext) = undotted base
  ∧ item_id c = Py.escape (undotted base)
  ∧ image_head (base +:+ "." +:+ ext) = "img_" +:+ Py.escape (undotted base)
  ∧ stem ext = "".
Proof.
  intros He Hc. pose proof (stem_extension base ext He) as Hs.
  split_and!; [done | | |].
  - unfold item_id. by rewrite Hc, Hs.
  - unfold image_head. fold (stem (base +:+ "." +:+ ext)). by rewrite Hs.
  - unfold stem. by rewrite (split_whole "." ext He).
Qed.

Lemma manifest_ids_drop_dots_witness :
  stem "ch.01.xhtml" = "ch01" ∧ stem "ch01.xhtml" = "ch01"
  ∧ item_id (Chapter "One" "ch.01.xhtml" ∅) = item_id (Chapter "Uno" "ch01.xhtml" ∅).
Proof.
  destruct (manifest_ids_drop_dots "ch.01" "xhtml" (Chapter "One" "ch.01.xhtml" ∅))
    as (H1 & H2 & _); [done..|].
  destruct (manifest_ids_drop_dots "ch01" "xhtml" (Chapter "Uno" "ch01.xhtml" ∅))
    as (H3 & H4 & _); [done..|].
  split; [exact H1|]. split; [exact H3|]. rewrite H2, H4. reflexivity.
Defined.

Ltac crunch :=
  cbv beta iota zeta delta [bind ret gets modify or_raise raise].

Lemma fields_run (E : env) (s : package) :
  (content_opf_fields E s).1
  = Package (default "" (head (images s))) (styles_listing E) (images_listing E)
      (rename <$> book_chapters s)
  ∧ match head (book_chapters s) with
    | None => (content_opf_fields E s).2 = Raise IndexError
    | Some first =>
        ∃ a, (content_opf_fields E s).2 = Ret a
             ∧ f_cover_url a
               = Py.replace ".html" ".xhtml" (c_filename (rename first))
             ∧ f_cover_id a
               = cover_id (default "" (head (images s))) (alt_cover None (images_listing E))
    end.
Proof.
  unfold content_opf_fields. crunch.
  cbn [book_chapters set_book_chapters set_images set_css set_cover images css cover].
  destruct (images s) as [|i l], (book_chapters s) as [|c l']; cbn; eauto.
Qed.

(** X13. After the package document was computed no chapter file name
    holds [.html] any more, so that computing it again renames nothing;
    and the cover reference of the guide is the file name of the first
    chapter as the manifest lists it. *)
Theorem chapter_names_settle (E : env) (s : package) (a : fields) :
  (content_opf_fields E s).2 = Ret a →
  let s' := (content_opf_fields E s).1 in
  Forall (λ c, Py.contains ".html" (c_filename c) = false) (book_chapters s')
  ∧ book_chapters (content_opf_fields E s').1 = book_chapters s'
  ∧ ∃ first, head (book_chapters s') = Some first ∧ f_cover_url a = c_filename first.
Proof.
  intros Ha. cbv zeta.
  destruct (fields_run E s) as [Hs Hh].
  destruct (fields_run E (content_opf_fields E s).1) as [Hs' _].
  rewrite Hs', Hs. cbn [book_chapters]. split_and!.
  - apply Forall_fmap, Forall_true. intros c. apply PyMore.no_html_left.
  - rewrite <- list_fmap_compose. apply list_fmap_ext. intros _ c _.
    unfold compose, rename. cbn [c_title c_filename c_more].
    by rewrite PyMore.replace_settles.
  - destruct (book_chapters s) as [|first l]; cbn [head] in Hh.
    + congruence.
    + destruct Hh as (a' & Ha' & Hurl & _). rewrite Ha in Ha'. injection Ha' as <-.
      exists (rename first). split; [done|]. rewrite Hurl. cbn.
      apply PyMore.replace_settles.
Qed.

Lemma chapter_names_settle_witness :
  ∃ a, (content_opf_fields Demo.no_image Demo.package0).2 = Ret a
       ∧ f_cover_url a = "ch01.xhtml".
Proof.
  destruct (fields_run Demo.no_image Demo.package0) as [_ (a & Ha & _)].
  exists a. split; [exact Ha|].
  destruct (chapter_names_settle Demo.no_image Demo.package0 a Ha)
    as (_ & _ & first & Hf & ->).
  destruct (fields_run Demo.no_image Demo.package0) as [Hs _].
  rewrite Hs in Hf. cbn in Hf. by injection Hf as <-.
Defined.

(** X14. When the crawl recorded images, the cover attribute of the
    package document is the reference of the first of them as the page
    had it, a path from the root of the site: it is the identifier of no
    image entry of the manifest, all of which start with [img_]. *)
Theorem discovered_cover_is_no_entry (E : env) (s : package) (first : string)
    (rest : list string) :
  images s = first :: rest →
  String.prefix "/" first = true →
  book_chapters s ≠ [] →
  ∃ a, (content_opf_fields E s).2 = Ret a
       ∧ f_cover_id a = first
       ∧ (first ∉ image_entries (content_opf_fields E s).1)
       ∧ Forall (λ i, String.prefix "img_" i = true)
           (image_entries (content_opf_fields E s).1).
Proof.
  intros Hi Hp Hc. destruct (fields_run E s) as [Hs Hh]. rewrite Hs.
  destruct (book_chapters s) as [|c l]; [done|]. cbn [head] in Hh.
  destruct Hh as (a & Ha & _ & Hid). exists a. split; [done|].
  rewrite Hi in Hid. cbn in Hid.
  apply PyFacts.prefix_char in Hp as [first' ->].
  unfold cover_id in Hid. rewrite bool_decide_false in Hid by done.
  assert (Hall : Forall (λ i, String.prefix "img_" i = true)
                   (image_entries
                      (Package (default "" (head (images s))) (styles_listing E)
                         (images_listing E) (rename <$> c :: l)))).
  { unfold image_entries. cbn [images]. apply Forall_fmap, Forall_true.
    intros i. unfold image_head. apply PyMore.prefix_app. eauto. }
  split_and!; [done| |done].
  intros Hin. rewrite Forall_forall in Hall. by apply Hall in Hin.
Qed.

Lemma discovered_cover_is_no_entry_witness :
  ∃ a, (content_opf_fields Demo.old_images
          (Package "" [] ["/library/cover.jpg"] Demo.book)).2 = Ret a
       ∧ f_cover_id a = "/library/cover.jpg"
       ∧ image_entries (content_opf_fields Demo.old_images
                          (Package "" [] ["/library/cover.jpg"] Demo.book)).1
         = ["img_cover"; "img_fig1"].
Proof.
  destruct (discovered_cover_is_no_entry Demo.old_images
              (Package "" [] ["/library/cover.jpg"] Demo.book) "/library/cover.jpg" [])
    as (a & H1 & H2 & _); [done..|].
  exists a. split; [exact H1|]. split; [exact H2|]. vm_compute. reflexivity.
Defined.

End OpfProperties.

(** ** Names of the stylesheet files *)

Module NameFacts.
Import Terms.

(** A positive number is not written with a leading zero. *)
Lemma pretty_N_go_leading (x : N) (s : string) :
  (0 < x)%N → ∃ c r, pretty_N_go x s = String c r ∧ c ≠ "0"%char.
Proof.
  revert s. induction (N.lt_wf_0 x) as [x _ IH]; intros s Hx.
  rewrite pretty_N_go_step by done.
  destruct (decide (x `div` 10 = 0)%N) as [H0|H0].
  - rewrite H0, pretty_N_go_0. eexists _, _. split; [done|].
    apply N.div_small_iff in H0; [|done]. rewrite N.mod_small by done.
    destruct x as [|p]; [lia|]. unfold pretty_N_char. by repeat case_match.
  - apply IH; [by apply N.div_lt | by apply N.neq_0_lt_0].
Qed.

Lemma str_leading (n : nat) (r : string) : Py.str n = String "0" r → n = 0.
Proof.
  unfold Py.str, pretty, pretty_nat, pretty, pretty_N. intros H.
  destruct (decide (N.of_nat n = 0)%N) as [?|Hn]; [lia|].
  destruct (pretty_N_go_leading (N.of_nat n) "") as (c & r' & Hc & Hne); [lia|].
  rewrite Hc in H. by injection H as -> _.
Qed.

Lemma app_inv_head (a b c : string) : a +:+ b = a +:+ c → b = c.
Proof.
  induction a as [|x a IH]; [done|]. rewrite !PyFacts.app_cons. intros [=]. auto.
Qed.

Lemma zfill2_inj (n m : nat) : Py.zfill2 n = Py.zfill2 m → n = m.
Proof.
  assert (Hmixed : ∀ a b, (String.length (Py.str b) <? 2) = false →
            "0" +:+ Py.str a = Py.str b → False).
  { intros a b Hb H. symmetry in H. apply str_leading in H as ->. done. }
  unfold Py.zfill2. cbv zeta.
  destruct (String.length (Py.str n) <? 2) eqn:Hn,
           (String.length (Py.str m) <? 2) eqn:Hm; intros H.
  - apply app_inv_head in H. by apply (inj pretty) in H.
  - by destruct (Hmixed n m).
  - by destruct (Hmixed m n).
  - by apply (inj pretty) in H.
Qed.

Lemma app_inv_tail (a b t : string) : a +:+ t = b +:+ t → a = b.
Proof.
  intros H. assert (Hl : String.length a = String.length b).
  { apply (f_equal String.length) in H. rewrite !PyFacts.app_length in H. lia. }
  revert b H Hl. induction a as [|x a IH]; intros [|y b] H Hl; try done.
  rewrite !PyFacts.app_cons in H. injection H as -> H. f_equal. apply IH; [done|].
  by injection Hl.
Qed.

Lemma style_name_inj (i j : nat) : style_name i = style_name j → i = j.
Proof.
  unfold style_name. intros H%app_inv_head. by apply app_inv_tail, zfill2_inj in H.
Qed.

Lemma path_join_relative (a b : string) :
  String.prefix "/" b = false → ∃ a', ∀ b', String.prefix "/" b' = false →
    Py.path_join a b' = a' +:+ b'.
Proof.
  intros _. unfold Py.path_join.
  destruct (bool_decide (a = "") || bool_decide (Py.suffix 1 a = "/")) eqn:Ha.
  - exists a. intros b' ->. done.
  - exists (a +:+ "/"). intros b' ->. by rewrite PyFacts.app_assoc.
Qed.

Lemma css_file_inj (E : Assets.env) (i j : nat) :
  Notions.css_file E i = Notions.css_file E j → i = j.
Proof.
  unfold Notions.css_file. fold (style_name i) (style_name j).
  destruct (path_join_relative (Assets.css_path E) (style_name i) eq_refl) as [a' Ha].
  rewrite !Ha by done. intros H%app_inv_head. by apply style_name_inj.
Qed.

Lemma index_lt `{EqDecision A} (x : A) (l : list A) (i : nat) :
  Py.index x l = Some i → i < length l.
Proof.
  revert i. induction l as [|y l IH]; intros i; [done|]. cbn.
  destruct (decide (y = x)); [intros [= <-]; lia|].
  destruct (Py.index x l) as [j|]; [|done]. intros [= <-].
  specialize (IH j eq_refl). lia.
Qed.

Lemma index_nodup `{EqDecision A} (x : A) (l : list A) (i : nat) :
  NoDup l → l !! i = Some x → Py.index x l = Some i.
Proof.
  intros Hnd Hi. apply list_elem_of_split_length in Hi as (pre & post & -> & ->).
  apply PyFacts.index_first. intros y Hy ->.
  apply NoDup_app in Hnd as (_ & Hnd & _). apply (Hnd x Hy). left.
Qed.

End NameFacts.

(** ** What the download phase touches *)

Module AssetsMore.
Import Assets Notions Terms Frame NameFacts.

#[local] Instance only_at_preorder (P : string → Prop) : PreOrder (only_at P).
Proof.
  split.
  - by intros s p _.
  - intros a b c H1 H2 p Hp. by rewrite H2, H1.
Qed.

#[local] Instance progress_kept_preorder : PreOrder progress_kept.
Proof. split; unfold progress_kept; [intros s; lia | intros a b c; lia]. Qed.

Ltac sweep :=
  repeat match goal with
    | |- preserves ?R (ret _) => apply (preserves_ret R)
    | |- preserves ?R (raise _) => apply (preserves_raise R)
    | |- preserves ?R (exit _) => apply (preserves_exit R)
    | |- preserves ?R stalled => apply (preserves_stalled R)
    | |- preserves ?R (gets _) => apply (preserves_gets R)
    | |- preserves ?R (or_raise _ _) => apply (preserves_or_raise R)
    | |- preserves ?R (bind _ _) => apply (preserves_bind R); [|intros ?]
    | |- preserves ?R (for_each _ _) => apply (preserves_for_each R); intros ?
    | |- preserves ?R (modify _) => apply (preserves_modify R); intros ?
    | |- preserves _ (let _ := _ in _) => progress cbv zeta
    | |- preserves _ (if ?b then _ else _) => destruct b
    | |- preserves _ (match ?x with _ => _ end) => destruct x
    end.

Lemma preserves_found {S A B} (R : relation S) `{!PreOrder R} (e : exn) (o : option A)
    (k : A → M S B) :
  (∀ a, o = Some a → preserves R (k a)) → preserves R (bind (or_raise e o) k).
Proof.
  intros H. destruct o as [a|]; [|by intros s].
  intros s. apply (H a eq_refl).
Qed.

Lemma preserves_process (R : relation depot) `{!PreOrder R}
    (operation : string → M depot unit) (arg : string) :
  preserves R (operation arg) → (∀ s x, R s (set_in_error x s)) →
  preserves R (process operation arg).
Proof.
  intros Ho He s. unfold process. specialize (Ho s).
  destruct (operation arg s) as [s' o]. cbn in *. etrans; [exact Ho | apply He].
Qed.

(** What every worker preserves, the whole phase preserves. *)
Lemma multiprocessing_preserves (R : relation depot) `{!PreOrder R}
    (operation : string → M depot unit) :
  (∀ arg, preserves R (operation arg)) →
  (∀ s x, R s (set_in_error x s)) →
  (∀ s x, R s (set_events x s)) →
  (∀ s x, R s (set_done_queue x s)) →
  ∀ depth full_queue done_queue,
    preserves R (_start_multiprocessing depth operation full_queue done_queue).
Proof.
  intros Ho He Hv Hd depth. induction depth as [|depth IH]; intros q dq;
    cbn [_start_multiprocessing]; unfold start, join; sweep; auto.
  by apply preserves_process.
Qed.

Lemma stream_to_only (P : string → Prop) (path : string) (response : download) :
  P path → preserves (only_at P) (stream_to path response).
Proof.
  intros HP. unfold stream_to. sweep; intros p Hp; cbn.
  - apply lookup_insert_ne. by intros <-.
  - apply lookup_alter_ne. by intros <-.
Qed.

Lemma css_worker_only (E : env) (url : string) :
  preserves (only_at (styles E)) (_thread_download_css E url).
Proof.
  unfold _thread_download_css. apply preserves_found; [apply _|]. intros i Hi.
  assert (HP : styles E (css_file E i)).
  { exists i. split; [by apply index_lt in Hi | done]. }
  unfold display_info, display_error, display_state, requests_provider.
  sweep; try done. by apply stream_to_only.
Qed.

Lemma display_state_progress (origin done : Z) :
  preserves progress_kept (display_state origin done).
Proof.
  intros s. unfold display_state, progress_kept. AssetsFacts.crunch.
  destruct (decide (origin = 0)%Z); [cbn; lia|]. case_decide; cbn; lia.
Qed.

Lemma css_worker_progress (E : env) (url : string) :
  preserves progress_kept (_thread_download_css E url).
Proof.
  unfold _thread_download_css, requests_provider, display_info, display_error, stream_to.
  sweep; try apply display_state_progress; unfold progress_kept; cbn; lia.
Qed.

Lemma images_worker_progress (E : env) (url : string) :
  preserves progress_kept (_thread_download_images E url).
Proof.
  unfold _thread_download_images, requests_provider, display_info, display_error,
    stream_to.
  sweep; try apply display_state_progress; unfold progress_kept; cbn; lia.
Qed.

Lemma css_phase_only (E : env) (depth : nat) (queue : list string) (done_queue : bool) :
  preserves (only_at (styles E))
    (_start_multiprocessing depth (_thread_download_css E) queue done_queue).
Proof.
  apply multiprocessing_preserves; [apply _ | apply css_worker_only | ..];
    by intros s x path Hp.
Qed.

Lemma phase_progress (operation : string → M depot unit) :
  (∀ arg, preserves progress_kept (operation arg)) →
  ∀ depth queue done_queue,
    preserves progress_kept (_start_multiprocessing depth operation queue done_queue).
Proof.
  intros H. apply multiprocessing_preserves; [apply _ | done | ..];
    intros s x; unfold progress_kept; cbn; lia.
Qed.

Lemma images_worker_cached (E : env) (url : string) (s : depot) :
  is_Some (files s !! image_path E url) →
  files (_thread_download_images E url s).1 = files s
  ∧ asked (_thread_download_images E url s).1 = asked s.
Proof.
  intros Hf. unfold _thread_download_images. AssetsFacts.crunch.
  fold (image_path E url). rewrite bool_decide_true by done.
  unfold display_state. AssetsFacts.crunch.
  destruct (images_ad_info s).
  { destruct (decide (Z.of_nat (length (images E)) = 0%Z)); [done|]. by case_decide. }
  destruct (Py.index url (images E)) as [i|]; [|done]. cbv beta iota.
  destruct (bool_decide (url ∉ take i (images E)));
    (destruct (decide (Z.of_nat (length (images E)) = 0%Z)); [done|]); by case_decide.
Qed.

Lemma images_worker_leaves (E : env) (url : string) (s : depot) :
  is_Some (files (_thread_download_images E url s).1 !! image_path E url).
Proof.
  destruct (files s !! image_path E url) as [x|] eqn:Hf.
  { destruct (AssetsFacts.images_worker_careful E url s) as [_ Hk].
    rewrite (Hk _ _ Hf). eauto. }
  unfold _thread_download_images. AssetsFacts.crunch.
  fold (image_path E url). rewrite Hf.
  rewrite bool_decide_false by (by intros [? ?]).
  destruct (remote E (urljoin E BASE_URL url)) as [reason|chunks];
    rewrite AssetsFacts.stream_to_run; cbn [content].
  - cbn. rewrite lookup_insert_eq. eauto.
  - match goal with |- context [display_state ?o ?d ?st] =>
      destruct (AssetsFacts.display_state_keeps o d st) as [H1 _];
      destruct (display_state o d st) as [s' out] end.
    cbn in *. rewrite H1, lookup_insert_eq. eauto.
Qed.

End AssetsMore.

Module AssetsProperties.
Import Assets Notions Terms Frame NameFacts AssetsMore.

(** X15. The stylesheet files are numbered from zero. With [n]
    stylesheets, all different, and none of their files on disk, the
    files the download phase leaves are those numbered 0 to [n - 1], and
    it changes no other file; files of different numbers have different
    names. The link written for the number [k] and the manifest entry of
    the number [k] name the file numbered [k], and the links of a page
    are numbered from one: a page with [n] stylesheets links the file
    numbered [n], which is not written. *)
Theorem style_files_numbered_from_zero (E : env) (depth : nat) (s : depot) :
  NoDup (css E) →
  (∀ i, files s !! css_file E i = None) →
  let run :=
    _start_multiprocessing (S (S depth)) (_thread_download_css E) (css E) false s in
  (∀ i, is_Some (files run.1 !! css_file E i) ↔ i < length (css E))
  ∧ (∀ path, (∀ i, path ≠ css_file E i) → files run.1 !! path = files s !! path)
  ∧ (∀ i j, css_file E i = css_file E j → i = j)
  ∧ (∀ k, css_file E k = Py.path_join (css_path E) (style_name k)
          ∧ Crawler.stylesheet_tag k
            = "<link href=" +:+ Py.q ("Styles/" +:+ style_name k)
              +:+ " rel=" +:+ Py.q "stylesheet" +:+ " type=" +:+ Py.q "text/css"
              +:+ " />" +:+ Py.nl
          ∧ Opf.style_item k
            = "<item id=" +:+ Py.q ("style_" +:+ Py.zfill2 k)
              +:+ " href=" +:+ Py.q ("Styles/" +:+ style_name k)
              +:+ " media-type=" +:+ Py.q "text/css" +:+ " />")
  ∧ (∀ (C : Crawler.env) (hrefs : list string) (st : Crawler.crawler),
       ∃ st', Crawler.link_stylesheets C (Some <$> hrefs) 0 "" st
              = (st', Ret (length hrefs,
                           Py.concat (Crawler.stylesheet_tag <$> seq 1 (length hrefs))))).
Proof.
  intros Hnd Hnone run.
  assert (Honly : only_at (styles E) s run.1).
  { subst run.
    apply (css_phase_only E (S (S depth)) (css E) false s). }
  split_and!.
  - intros i. split.
    + intros Hi. destruct (decide (i < length (css E))) as [|Hge]; [done|].
      rewrite Honly, Hnone in Hi; [by destruct Hi|].
      intros (j & Hj & Heq). apply css_file_inj in Heq as ->. done.
    + intros Hi. destruct (lookup_lt_is_Some_2 (css E) i Hi) as [url Hu].
      pose proof (index_nodup url (css E) i Hnd Hu) as Hidx.
      subst run. rewrite AssetsFacts.multiprocessing_run. cbn [fst].
      pose proof (AssetsFacts.batches_create (_thread_download_css E)
                    (λ u, css_file E (default 0 (Py.index u (css E))))
                    (batches (css E)) (set_done_queue 0 s) url
                    (AssetsFacts.css_worker_careful E)) as H.
      cbv beta in H. rewrite Hidx in H. apply H.
      * intros x s0 Hx. rewrite AssetsFacts.batches_concat in Hx.
        destruct (PyFacts.index_elem x (css E) Hx) as (j & Hj & _). rewrite Hj.
        by apply AssetsFacts.css_worker_creates.
      * rewrite AssetsFacts.batches_concat. by eapply list_elem_of_lookup_2.
  - intros path Hp. apply Honly. intros (i & _ & Heq). by apply (Hp i).
  - apply css_file_inj.
  - intros k. split_and!; reflexivity.
  - intros C hrefs st.
    destruct (StylesheetFacts.link_stylesheets_numbers C hrefs 0 "" st) as (st' & H & _).
    exists st'. exact H.
Qed.

Lemma style_files_numbered_from_zero_witness :
  let run :=
    _start_multiprocessing 2 (_thread_download_css Demo.unreachable_sheet)
      [Demo.sheet_a; Demo.sheet_b] false Demo.depot0 in
  is_Some (files run.1 !! "/books/Book/OEBPS/Styles/Style00.css")
  ∧ ¬ is_Some (files run.1 !! "/books/Book/OEBPS/Styles/Style02.css").
Proof.
  destruct (style_files_numbered_from_zero Demo.unreachable_sheet 0 Demo.depot0)
    as (H & _).
  - apply (bool_decide_unpack _). by vm_compute.
  - intros i. apply lookup_empty.
  - split.
    + apply (H 0). cbn. lia.
    + intros H2%(H 2). cbn in H2. lia.
Defined.



(** X17. The progress shown never goes back: through the crawl and
    through any run of the download phase, for stylesheets or for
    images, and however they end, the value displayed at the end is at
    least the value displayed at the start. *)
Theorem progress_never_goes_back (C : Crawler.env) (E : env) (depth : nat)
    (queue : list string) (done_queue : bool) (c : Crawler.crawler) (s : depot) :
  (Crawler.state_status c ≤ Crawler.state_status (Crawler.get C depth c).1)%Z
  ∧ (state_status s
     ≤ state_status
         (_start_multiprocessing depth (_thread_download_css E) queue done_queue s).1)%Z
  ∧ (state_status s
     ≤ state_status
         (_start_multiprocessing depth (_thread_download_images E) queue done_queue s).1)%Z.
Proof.
  split_and!.
  - apply (CrawlMore.get_progress C depth c).
  - apply (phase_progress (_thread_download_css E) (css_worker_progress E)
             depth queue done_queue s).
  - apply (phase_progress (_thread_download_images E) (images_worker_progress E)
             depth queue done_queue s).
Qed.

End AssetsProperties.

(** ** The command line *)

Module CliProperties.
Import Cli SplitFacts.

Lemma split_pair (given email password : string) :
  Py.split ":" given = [email; password] ↔
  given = email +:+ ":" +:+ password
  ∧ Py.contains ":" email = false ∧ Py.contains ":" password = false.
Proof.
  split.
  - intros H. pose proof (join_split ":" given) as Hj.
    pose proof (split_parts ":" given) as Hp. rewrite H in Hj, Hp.
    apply Forall_cons in Hp as [He Hp]. apply Forall_cons in Hp as [Hp _].
    cbn in Hj. by rewrite Hj.
  - intros (-> & He & Hp). change (email +:+ ":" +:+ password)
      with (email +:+ String ":" password).
    by rewrite split_app, (split_whole ":" email He), (split_whole ":" password Hp).
Qed.

Lemma pair_inj (e p e' p' : string) :
  e +:+ ":" +:+ p = e' +:+ ":" +:+ p' →
  Py.contains ":" e = false → Py.contains ":" p = false →
  Py.contains ":" e' = false → Py.contains ":" p' = false →
  e = e' ∧ p = p'.
Proof.
  intros H He Hp He' Hp'.
  assert (H1 : Py.split ":" (e +:+ ":" +:+ p) = [e; p]) by (by apply split_pair).
  assert (H2 : Py.split ":" (e' +:+ ":" +:+ p') = [e'; p']) by (by apply split_pair).
  rewrite H, H2 in H1. by injection H1 as -> ->.
Qed.

Lemma check_without_cred (isdigit : string → bool) (a : args) :
  cred a = None ∨ cred a = Some "" →
  check isdigit a
  = if no_cookies a then inl bad_option
    else if isdigit (bookid a) then inr None
         else inl ("invalid book id: " +:+ bookid a).
Proof.
  unfold check. intros [->| ->]; cbn [bool_decide];
    destruct (no_cookies a), (isdigit (bookid a)); done.
Qed.

Lemma check_with_cred (isdigit : string → bool) (a : args) (given : string) :
  cred a = Some given → given ≠ "" →
  check isdigit a
  = match Py.split ":" given with
    | [email; password] =>
        if Py.contains "@" email
        then if isdigit (bookid a) then inr (Some [email; password])
             else inl ("invalid book id: " +:+ bookid a)
        else inl ("invalid credential: " +:+ given)
    | _ => inl ("invalid credential: " +:+ given)
    end.
Proof.
  intros Hc Hg. unfold check. rewrite Hc. rewrite bool_decide_false by done.
  destruct (Py.split ":" given) as [|e [|p [|x l]]];
    cbn [length Nat.eqb negb orb head default id]; try done.
  destruct (Py.contains "@" e), (isdigit (bookid a)); done.
Qed.

(** X18. The checks of the command line let a run start in two cases
    only, and only with a book id that [isdigit] accepts: without
    credentials (the option absent or empty) and without [--no-cookies];
    or with credentials made of one colon between an e-mail part that
    holds an [@] and a password, neither part holding a colon. The run is
    then given the two parts. A password with a colon in it is refused. *)
Theorem check_accepts_iff (isdigit : string → bool) (a : args)
    (started : option (list string)) :
  check isdigit a = inr started ↔
    isdigit (bookid a) = true
    ∧ (((cred a = None ∨ cred a = Some "") ∧ no_cookies a = false ∧ started = None)
       ∨ ∃ email password,
           cred a = Some (email +:+ ":" +:+ password)
           ∧ Py.contains ":" email = false ∧ Py.contains ":" password = false
           ∧ Py.contains "@" email = true
           ∧ started = Some [email; password]).
Proof.
  assert (Hempty : ∀ e p, e +:+ ":" +:+ p ≠ "") by (by intros [|??] ?).
  destruct (decide (cred a = None ∨ cred a = Some "")) as [Hno|Hyes].
  - rewrite check_without_cred by done. split.
    + destruct (no_cookies a); [done|]. destruct (isdigit (bookid a)); [|done].
      intros [= <-]. split; [done|]. by left.
    + intros [-> [(_ & -> & ->)|(e & p & Hc & _)]]; [done|].
      destruct Hno as [Hno|Hno]; rewrite Hc in Hno; [done|].
      injection Hno as Hno. by apply Hempty in Hno.
  - destruct (cred a) as [given|] eqn:Hc; [|by destruct Hyes; left].
    assert (Hg : given ≠ "") by (intros ->; apply Hyes; by right).
    rewrite (check_with_cred isdigit a given Hc Hg). split.
    + destruct (Py.split ":" given) as [|e [|p [|x l]]] eqn:Hs; try done.
      apply split_pair in Hs as (-> & He & Hp).
      destruct (Py.contains "@" e) eqn:Hat; [|done].
      destruct (isdigit (bookid a)); [|done].
      intros [= <-]. split; [done|]. right. by exists e, p.
    + intros [-> [([[=]|[= ->]] & _)|(e & p & [= ->] & He & Hp & Hat & ->)]]; [done|].
      assert (Hs : Py.split ":" (e +:+ ":" +:+ p) = [e; p]) by (by apply split_pair).
      by rewrite Hs, Hat.
Qed.

End CliProperties.

(** ** Further properties of the chapter list *)

Module ChaptersProperties.
Import Api Notions.

Lemma cover_first_permutation (results : list chapter) : cover_first results ≡ₚ results.
Proof.
  unfold cover_first. induction results as [|c l IH]; [done|].
  rewrite !filter_cons. destruct (decide (is_cover c = true)) as [Hc|Hc].
  - rewrite decide_False by (by intros ?). cbn. by rewrite IH.
  - rewrite decide_True by done. rewrite <- Permutation_middle. by rewrite IH.
Qed.

(** X19. When the chapter list is retrieved, no record of any page is
    lost and none is repeated: the list returned is a rearrangement of
    the records of the pages, one after the other, and moving the cover
    records first keeps the order of the other records of a page. *)
Theorem chapters_nothing_lost (E : env) (depth p : nat) (s : session) (l : list chapter) :
  (get_book_chapters E depth p s).2 = Ret l →
  ∃ pages, pages_from E p pages
           ∧ l ≡ₚ concat pages
           ∧ length l = length (concat pages)
           ∧ filter (λ c, is_cover c ≠ true) l
             = filter (λ c, is_cover c ≠ true) (concat pages).
Proof.
  intros Hr. pose proof (ApiFacts.chapters_cases E depth p s) as H.
  cbv zeta in H. rewrite Hr in H. destruct H as (pages & Hp & _ & -> & _).
  exists pages. split; [done|].
  assert (Hperm : concat (cover_first <$> pages) ≡ₚ concat pages).
  { clear. induction pages as [|r pages IH]; [done|]. cbn.
    by rewrite cover_first_permutation, IH. }
  split; [done|]. split; [by rewrite Hperm|].
  clear. induction pages as [|r pages IH]; [done|]. cbn.
  rewrite !filter_app, IH. f_equal. unfold cover_first.
  rewrite filter_app. rewrite (list_filter_filter _ (λ c, is_cover c = true)).
  rewrite (list_filter_filter _ (λ c, is_cover c ≠ true)).
  assert (Hnone : filter (λ c, is_cover c ≠ true ∧ is_cover c = true) r = []).
  { induction r as [|c r IHr]; [done|]. rewrite filter_cons.
    by rewrite decide_False by (by intros [? ?]). }
  rewrite Hnone. cbn. apply list_filter_iff. intros c. tauto.
Qed.

Lemma chapters_nothing_lost_witness :
  ∃ pages, [Demo.ch "cover."; Demo.ch "a"; Demo.ch "b"; Demo.ch "c"] ≡ₚ concat pages
           ∧ pages_from Demo.two_pages 0 pages.
Proof.
  destruct (chapters_nothing_lost Demo.two_pages 2 0 Demo.session0
              [Demo.ch "cover."; Demo.ch "a"; Demo.ch "b"; Demo.ch "c"])
    as (pages & H1 & H2 & _).
  - vm_compute. reflexivity.
  - exists pages. split; [exact H2 | exact H1].
Defined.

End ChaptersProperties.

(** ** Logging in *)

Module LoginFacts.
Import Api Login.

Lemma replace_char_cons (ch c : ascii) (s : string) :
  Py.replace (String ch "") "" (String c s)
  = if decide (ch = c) then Py.replace (String ch "") "" s
    else String c (Py.replace (String ch "") "" s).
Proof.
  unfold Py.replace. cbn [Py.replace_go String.length Nat.sub].
  destruct (decide (ch = c)) as [->|Hc].
  - assert (String.prefix (String c "") (String c s) = true) as ->; [|done].
    apply PyFacts.prefix_char. eauto.
  - destruct (String.prefix (String ch "") (String c s)) eqn:Hp; [|done].
    apply PyFacts.prefix_char in Hp as [s' [= -> _]]. done.
Qed.

(** Replacing a character by nothing leaves none of it, and brings in
    no character that was not there. *)
Lemma replace_char_gone (ch : ascii) (s : string) :
  Py.contains (String ch "") (Py.replace (String ch "") "" s) = false.
Proof.
  induction s as [|c s IH]; [done|]. rewrite replace_char_cons.
  destruct (decide (ch = c)) as [->|Hc]; [done|].
  rewrite PyFacts.contains_char_cons, IH, orb_false_r. by apply bool_decide_eq_false.
Qed.

Lemma replace_char_absent (ch other : ascii) (s : string) :
  Py.contains (String other "") s = false →
  Py.contains (String other "") (Py.replace (String ch "") "" s) = false.
Proof.
  induction s as [|c s IH]; [done|]. rewrite PyFacts.contains_char_cons.
  intros [Hc Hs]%orb_false_iff. rewrite replace_char_cons.
  destruct (decide (ch = c)) as [->|?]; [by apply IH|].
  by rewrite PyFacts.contains_char_cons, Hc, IH.
Qed.

Lemma unquote_clean (c : string) :
  Py.contains "'" (unquote c) = false ∧ Py.contains Py.dq (unquote c) = false.
Proof.
  unfold unquote. split; [|apply replace_char_gone].
  apply replace_char_absent, replace_char_gone.
Qed.

Ltac run :=
  cbv beta iota zeta delta
    [bind ret gets modify or_raise raise exit display_exit].

Lemma do_login_returns (E : env) (email password : string) (s : session) :
  (do_login E email password s).2 = Ret tt ↔
  ∃ token rest page, home E = Home (token :: rest)
                     ∧ login E token email password = Answer 302 page.
Proof.
  unfold do_login. run. destruct (home E) as [reason|parsing_error|[|token rest]].
  - split; [done | by intros (? & ? & ? & [=] & _)].
  - split; [done | by intros (? & ? & ? & [=] & _)].
  - split; [done | by intros (? & ? & ? & [=] & _)].
  - cbn [length head]. rewrite decide_False by done.
    destruct (login E token email password) as [reason|status page] eqn:Hl.
    + split; [done|]. intros (t & r & p & [= <- <-] & Hl'). by rewrite Hl in Hl'.
    + destruct (decide (status ≠ 302)%Z) as [Hs|Hs].
      * split; [by destruct page|].
        intros (t & r & p & [= <- <-] & Hl'). rewrite Hl in Hl'. by injection Hl' as -> _.
      * apply dec_stable in Hs as ->. split; [|done]. intros _. by exists token, rest, page.
Qed.

Lemma do_login_state (E : env) (email password : string) (s : session) :
  (do_login E email password s).2 = Ret tt →
  (do_login E email password s).1 = ask LOGIN_URL (ask BASE_URL s).
Proof.
  unfold do_login. run. destruct (home E) as [reason|parsing_error|[|token rest]]; try done.
  cbn [length head]. rewrite decide_False by done.
  destruct (login E token email password) as [reason|status page]; [done|].
  destruct (decide (status ≠ 302)%Z); [by destruct page | done].
Qed.

End LoginFacts.

Module LoginProperties.
Import Api Login LoginFacts.

(** X20. Logging in succeeds in one case only: the home page gives a
    token, and the form posted with the first token and the credentials
    is answered with status 302. The credentials are posted without
    their quotes, single or double: the service never sees a quote of
    the e-mail or of the password. After a login that succeeded two
    requests were made, the home page and the form, and nothing was
    logged. *)
Theorem login_needs_a_redirect (E : env) (cred : list string) (s : session) :
  ((login_with E cred s).2 = Ret tt ↔
     ∃ email password token rest page,
       cred = [email; password]
       ∧ home E = Home (token :: rest)
       ∧ login E token (unquote email) (unquote password) = Answer 302 page)
  ∧ ((login_with E cred s).2 = Ret tt →
     (login_with E cred s).1 = ask LOGIN_URL (ask BASE_URL s))
  ∧ ∀ c, Py.contains "'" (unquote c) = false ∧ Py.contains Py.dq (unquote c) = false.
Proof.
  split_and!; [| |apply unquote_clean]; unfold login_with;
    destruct cred as [|email [|password [|x l]]]; cbn [fmap list_fmap]; try done.
  - split; [done | by intros (? & ? & ? & ? & ? & [=] & _)].
  - split; [done | by intros (? & ? & ? & ? & ? & [=] & _)].
  - rewrite do_login_returns. split.
    + intros (token & rest & page & Hh & Hl). by exists email, password, token, rest, page.
    + intros (e & p & token & rest & page & [= <- <-] & Hh & Hl). eauto.
  - split; [done | by intros (? & ? & ? & ? & ? & [=] & _)].
  - apply do_login_state.
Qed.

End LoginProperties.

(** ** The [next] of a page *)

Module NextFacts.
Import Api Notions Terms.

Lemma api_error_repr (E E' : env) (r : response) :
  repr E' = repr E → api_error E' r = api_error E r.
Proof.
  intros Hr. unfold api_error, percent_s. by rewrite Hr.
Qed.

Lemma chapter_url_same (E E' : env) (page : nat) :
  urljoin E' = urljoin E → api_url E' = api_url E →
  chapter_url E' page = chapter_url E page.
Proof. intros Hu Ha. unfold chapter_url. by rewrite Hu, Ha. Qed.

End NextFacts.

Module NextProperties.
Import Api Notions Terms NextFacts.

(** X21. The [next] of a page is only tested, never followed: when the
    pages a service answers are told with other values of [next], each
    as true or as false as before, the chapter list is retrieved through
    the same requests, with the same result and the same log. *)
Theorem next_is_only_tested (E E' : env) (depth : nat) :
  urljoin E' = urljoin E → api_url E' = api_url E → repr E' = repr E →
  (∀ url, retold (server E url) (server E' url)) →
  ∀ (p : nat) (s : session),
    get_book_chapters E' depth p s = get_book_chapters E depth p s.
Proof.
  intros Hu Ha Hr Hs. induction depth as [|depth IH]; intros p s; [done|].
  cbn [get_book_chapters]. rewrite (chapter_url_same E E') by done.
  rewrite !InfoFacts.bind_ret_provider.
  destruct (Hs (chapter_url E p)) as [->|(d & v & v' & Hd & Hn & Ht & ->)].
  - destruct (server E (chapter_url E p)) as [reason| |[d|v]]; try done.
    rewrite (api_error_repr E E') by done.
    destruct (decide (size d = 1)); [done|].
    destruct (d !! "results") as [results|]; [|done].
    unfold bind. destruct (len results _) as [s1 [k| | |]]; try done.
    destruct (decide (k = 0)); [done|].
    destruct (records results s1) as [s2 [l| | |]]; try done.
    destruct (del_each _ l s2) as [s3 [l'| | |]]; try done.
    destruct (or_raise KeyError (d !! "next") s3) as [s4 [next| | |]]; try done.
    destruct (truthy next); [|done]. by rewrite IH.
  - rewrite Hd. rewrite (api_error_repr E E') by done.
    assert (Hsize : size (<["next" := v']> d) = size d).
    { by rewrite map_size_insert, Hn. }
    rewrite Hsize. destruct (decide (size d = 1)).
    + unfold api_error, has_detail, get_detail.
      by rewrite lookup_insert_ne.
    + rewrite lookup_insert_ne by done.
      destruct (d !! "results") as [results|]; [|done].
      unfold bind. destruct (len results _) as [s1 [k| | |]]; try done.
      destruct (decide (k = 0)); [done|].
      destruct (records results s1) as [s2 [l| | |]]; try done.
      destruct (del_each _ l s2) as [s3 [l'| | |]]; try done.
      rewrite lookup_insert_eq, Hn. unfold or_raise, ret. rewrite <- Ht.
      destruct (truthy v); [|done]. by rewrite IH.
Qed.

Lemma next_is_only_tested_witness :
  get_book_chapters
    (Demo.service
       (Json (RDict {[ "results" := VList [Demo.ch "a"; Demo.ch "cover."; Demo.ch "b"];
                       "next" := VBool true ]}))
       (Json (RDict {[ "results" := VList [Demo.ch "c"]; "next" := VStr "" ]})))
    2 0 Demo.session0
  = get_book_chapters Demo.two_pages 2 0 Demo.session0.
Proof.
  apply next_is_only_tested; try reflexivity.
  intros url. unfold Demo.two_pages, Demo.service. cbn [server].
  case_bool_decide; right.
  - exists {[ "results" := VList [Demo.ch "a"; Demo.ch "cover."; Demo.ch "b"];
              "next" := VStr (Demo.api_base +:+ "chapter/?page=2") ]},
      (VStr (Demo.api_base +:+ "chapter/?page=2")), (VBool true).
    split; [reflexivity|]. split; [by vm_compute|]. split; [reflexivity|].
    by vm_compute.
  - exists {[ "results" := VList [Demo.ch "c"]; "next" := VNull ]}, VNull, (VStr "").
    split; [reflexivity|]. split; [by vm_compute|]. split; [reflexivity|].
    by vm_compute.
Defined.

End NextProperties.

(** ** The requests of the crawl *)

Module RequestFacts.
Import Api Crawler Notions Terms Frame.

#[local] Instance asked_same_preorder : PreOrder asked_same.
Proof.
  split.
  - by intros s.
  - intros a b c H1 H2. unfold asked_same in *. congruence.
Qed.

Lemma in_session_asked {A} (m : M session A) :
  (∀ t, asked (m t).1 = asked t) → preserves asked_same (in_session m).
Proof.
  intros H s. unfold in_session, asked_same. specialize (H (sess s)).
  by destruct (m (sess s)).
Qed.

Lemma api_error_asked (E : Api.env) (r : response) (t : session) :
  asked (api_error E r t).1 = asked t.
Proof. apply ApiFacts.api_error_ends. Qed.

Ltac quiet :=
  repeat match goal with
    | |- preserves ?R (ret _) => apply (preserves_ret R)
    | |- preserves ?R (raise _) => apply (preserves_raise R)
    | |- preserves ?R (exit _) => apply (preserves_exit R)
    | |- preserves ?R stalled => apply (preserves_stalled R)
    | |- preserves ?R (gets _) => apply (preserves_gets R)
    | |- preserves ?R (or_raise _ _) => apply (preserves_or_raise R)
    | |- preserves _ (in_session (api_error _ _)) =>
        apply in_session_asked; intros ?; apply api_error_asked
    | |- preserves _ (in_session _) => apply in_session_asked; by intros ?
    | |- preserves ?R (bind _ _) => apply (preserves_bind R); [|intros ?]
    | |- preserves ?R (modify _) => apply (preserves_modify R); intros ?
    | |- preserves _ (let _ := _ in _) => progress cbv zeta
    | |- preserves _ (if ?b then _ else _) => destruct b
    | |- preserves _ (match ?x with _ => _ end) => destruct x
    end.

Lemma link_replace_asked (link : string) : preserves asked_same (link_replace link).
Proof. unfold link_replace, display_log. quiet. done. Qed.

Lemma rewrite_links_asked (l : list piece) : preserves asked_same (rewrite_links l).
Proof.
  induction l as [|[t|t] l IH]; cbn [rewrite_links]; quiet; try done.
  apply link_replace_asked.
Qed.

Lemma inline_styles_asked (E : env) (l : list style) (acc : string) :
  preserves asked_same (inline_styles E l acc).
Proof.
  revert acc. induction l as [|x l IH]; intros acc; cbn [inline_styles];
    unfold display_log, display_exit; quiet; done.
Qed.

Lemma link_stylesheets_asked (E : env) (links : list (option string)) (n : nat)
    (acc : string) :
  preserves asked_same (link_stylesheets E links n acc).
Proof.
  revert n acc. induction links as [|[href|] links IH]; intros n acc;
    cbn [link_stylesheets]; unfold display_log; quiet; done.
Qed.

Lemma parse_html_asked (E : env) (root : document) :
  preserves asked_same (parse_html E root).
Proof.
  unfold parse_html, display_log, display_exit. quiet; try done.
  - apply link_stylesheets_asked.
  - apply inline_styles_asked.
  - apply rewrite_links_asked.
Qed.

Lemma get_html_returns (E : env) (url : string) (s s1 : crawler) (root : document) :
  get_html E url s = (s1, Ret root) → asked (sess s1) = asked (sess s) ++ [url].
Proof.
  unfold get_html, requests_provider. CrawlMore.crunch. unfold display_exit, in_session.
  destruct (fetch E url); cbn; [done..|]. by intros [= <- _].
Qed.

(** The step of the crawl for a chapter whose file is not on disk, when
    the crawl goes on: one request was made, for the page of the
    chapter. *)
Lemma get_fetched_asked (E : env) (depth : nat) (s : crawler) (c : chapter)
    (q : list chapter) :
  chapters_queue s = c :: q →
  files s !! target E c = None →
  (get E (S depth) s).2 = Ret tt →
  ∃ s1 page, get E (S depth) s = get E depth s1
        ∧ chapters_queue s1 = q
        ∧ files s1 = <[target E c := page]> (files s)
        ∧ asked (sess s1) = asked (sess s) ++ [chapter_page E c].
Proof.
  intros Hq Hnone. cbn [get]. CrawlMore.crunch. rewrite Hq. cbv beta iota.
  fold (target E c). fold (chapter_page E c).
  set (s0 := set_filename (c_filename c)
               (set_chapter_title (c_title c) (set_chapters_queue q s))).
  change (files s0) with (files s).
  rewrite bool_decide_false by (rewrite Hnone; apply is_Some_None).
  pose proof (CrawlMore.get_html_chapter E (chapter_page E c) s0) as Hg.
  pose proof (get_html_returns E (chapter_page E c) s0) as Ha.
  destruct (get_html E (chapter_page E c) s0) as [s1 [root| | |]]; [|done..].
  destruct Hg as (Hf1 & Hn1 & _ & Hq1 & _). specialize (Ha s1 root eq_refl).
  cbn [fst snd] in *.
  pose proof (CrawlMore.parse_html_chapter E root s1) as Hp.
  pose proof (parse_html_asked E root s1) as Hpa.
  destruct (parse_html E root s1) as [s2 [contents| | |]]; [|done..].
  destruct Hp as (Hf2 & Hn2 & _ & Hq2 & _). unfold asked_same in Hpa.
  cbn [fst snd] in *.
  assert (Hname : filename s2 = c_filename c) by (by rewrite Hn2, Hn1).
  assert (Hfiles : files s2 = files s) by (by rewrite Hf2, Hf1).
  cbn [filename set_filename files set_files set_sess chapters_queue state_status].
  rewrite Hname. fold (target E c).
  destruct (decide (Z.of_nat (length (book_chapters E)) = 0%Z)); [done|].
  case_decide; intros _;
    (eexists; eexists; split; [reflexivity|]; cbn; rewrite ?Hfiles;
     split_and!; [by rewrite Hq2, Hq1 | reflexivity | by rewrite Hpa, Ha]).
Qed.

Lemma get_asked (E : env) (depth : nat) : ∀ s : crawler,
  (get E depth s).2 = Ret tt →
  asked (sess (get E depth s).1)
  = asked (sess s)
    ++ (chapter_page E <$> to_fetch E (dom (files s)) (chapters_queue s)).
Proof.
  induction depth as [|depth IH]; intros s Hr; [done|].
  destruct (chapters_queue s) as [|c q] eqn:Hq.
  { cbn [get]. CrawlMore.crunch. rewrite Hq. cbn. by rewrite app_nil_r. }
  cbn [to_fetch]. destruct (files s !! target E c) as [x|] eqn:Hf.
  - rewrite bool_decide_true by (apply elem_of_dom; eauto).
    destruct (CrawlMore.get_cached_any E depth s c q Hq)
      as [(s1 & Heq & Hq1 & Hf1 & Ha1 & _)|(_ & ? & _)]; [by rewrite Hf | | done].
    rewrite Heq in Hr |- *. rewrite (IH s1 Hr). by rewrite Hq1, Hf1, Ha1.
  - rewrite bool_decide_false by (by apply not_elem_of_dom).
    destruct (get_fetched_asked E depth s c q Hq Hf Hr)
      as (s1 & page & Heq & Hq1 & Hf1 & Ha1).
    rewrite Heq in Hr |- *. rewrite (IH s1 Hr).
    rewrite Hq1, Hf1, Ha1, dom_insert_L, <- app_assoc. done.
Qed.

Lemma to_fetch_missing (E : env) (queue : list chapter) : ∀ (present : gset string) c,
  c ∈ to_fetch E present queue → c ∈ queue ∧ target E c ∉ present.
Proof.
  induction queue as [|c' q IH]; intros present c; cbn [to_fetch].
  - by intros ?%elem_of_nil.
  - case_bool_decide as Hp.
    + intros [? ?]%IH. split; [by right | done].
    + intros [->|[? Hn]%IH]%elem_of_cons; [split; [left | done]|].
      split; [by right|]. intros ?. apply Hn, elem_of_union. by right.
Qed.

Lemma to_fetch_once (E : env) (queue : list chapter) : ∀ present : gset string,
  NoDup (target E <$> to_fetch E present queue).
Proof.
  induction queue as [|c q IH]; intros present; cbn [to_fetch]; [constructor|].
  case_bool_decide as Hp; [apply IH|].
  rewrite fmap_cons. constructor; [|apply IH].
  intros (c' & Heq & Hc')%list_elem_of_fmap.
  apply to_fetch_missing in Hc' as [_ Hn]. rewrite <- Heq in Hn.
  apply Hn, elem_of_union. left. by apply elem_of_singleton.
Qed.

End RequestFacts.

Module RequestProperties.
Import Api Crawler Notions Terms RequestFacts.

(** X22. When the crawl returns, the requests it made are the pages of
    the chapters whose file was not on disk, in the order of the book,
    each at the address of its file name under the address of the book: a
    chapter whose file was there is not requested, and no file is
    requested twice, also when the book lists it twice. *)
Theorem crawl_requests_the_missing (E : env) (depth : nat) (s : crawler) :
  (crawl E depth s).2 = Ret tt →
  let fetched := to_fetch E (dom (files s)) (book_chapters E) in
  asked (sess (crawl E depth s).1) = asked (sess s) ++ (chapter_page E <$> fetched)
  ∧ (∀ c, c ∈ fetched → c ∈ book_chapters E ∧ files s !! target E c = None)
  ∧ (∀ c, c ∈ book_chapters E → files s !! target E c = None →
          ∃ c', c' ∈ fetched ∧ target E c' = target E c)
  ∧ NoDup (target E <$> fetched).
Proof.
  intros Hr fetched. subst fetched. split_and!.
  - revert Hr. unfold crawl, bind, modify. intros Hr.
    by rewrite (get_asked E depth _ Hr).
  - intros c [? ?%not_elem_of_dom]%to_fetch_missing. done.
  - intros c Hc Hn. apply not_elem_of_dom in Hn. revert Hn.
    generalize (dom (files s)). induction (book_chapters E) as [|c0 q IH];
      intros present Hn; [by apply elem_of_nil in Hc|].
    cbn [to_fetch]. apply elem_of_cons in Hc as [->|Hc].
    + rewrite bool_decide_false by done. exists c0. split; [left | done].
    + case_bool_decide as Hp; [by apply IH|].
      destruct (decide (target E c = target E c0)) as [Heq|Hne].
      * exists c0. split; [left | done].
      * destruct (IH Hc ({[target E c0]} ∪ present)) as (c' & ? & ?).
        { intros [?%elem_of_singleton|?]%elem_of_union; done. }
        exists c'. split; [by right | done].
  - apply to_fetch_once.
Qed.

Lemma crawl_requests_the_missing_witness :
  asked (sess (crawl Inputs.online 3 Demo.crawler0).1)
  = [ "https://www.safaribooksonline.com/library/view/book/1/ch01.html";
      "https://www.safaribooksonline.com/library/view/book/1/ch02.html" ].
Proof.
  destruct (crawl_requests_the_missing Inputs.online 3 Demo.crawler0) as (H & _).
  - vm_compute. reflexivity.
  - rewrite H. vm_compute. reflexivity.
Defined.

End RequestProperties.

(** ** The download phase on a second run *)

Module ResumeFacts.
Import Assets Notions Terms Frame AssetsMore.

#[local] Instance at_rest_preorder (P : gmap string string → Prop) : PreOrder (at_rest P).
Proof.
  split.
  - by intros s _.
  - intros a b c H1 H2 HP. destruct (H1 HP) as [Hf Ha].
    rewrite <- Hf in HP. destruct (H2 HP) as [Hf' Ha']. split; congruence.
Qed.

Lemma preserves_for_each_in {S A} (R : relation S) `{!PreOrder R} (l : list A)
    (body : A → M S unit) :
  (∀ a, a ∈ l → preserves R (body a)) → preserves R (for_each l body).
Proof.
  induction l as [|a l IH]; intros H; cbn [for_each]; [apply (preserves_ret R)|].
  apply (preserves_bind R); [apply H; left|]. intros _. apply IH.
  intros b Hb. apply H. by right.
Qed.

(** What the workers of the queue preserve, the phase preserves. *)
Lemma multiprocessing_preserves_in (R : relation depot) `{!PreOrder R}
    (operation : string → M depot unit) (queue : list string) :
  (∀ arg, arg ∈ queue → preserves R (operation arg)) →
  (∀ s x, R s (set_in_error x s)) →
  (∀ s x, R s (set_events x s)) →
  (∀ s x, R s (set_done_queue x s)) →
  ∀ depth full_queue done_queue, full_queue ⊆ queue →
    preserves R (_start_multiprocessing depth operation full_queue done_queue).
Proof.
  intros Ho He Hv Hd depth. induction depth as [|depth IH]; intros q dq Hq;
    cbn [_start_multiprocessing]; [apply (preserves_stalled R)|].
  apply (preserves_bind R); [destruct dq; [apply (preserves_ret R)|by apply (preserves_modify R)]|].
  intros _. destruct (decide (5 < length q)).
  - apply (preserves_for_each R). intros i. apply IH.
    unfold Py.slice. etrans; [apply subseteq_take|]. etrans; [|exact Hq].
    intros x Hx. eapply elem_of_sublist; [exact Hx | apply sublist_drop].
  - apply (preserves_bind R); [|intros _].
    + apply preserves_for_each_in; [apply _|]. intros arg Harg. unfold start.
      apply (preserves_bind R); [by apply (preserves_modify R)|]. intros _.
      apply preserves_process; [apply _ | apply Ho, Hq, Harg | done].
    + apply (preserves_for_each R). intros arg. unfold join.
      by apply (preserves_modify R).
Qed.

Lemma css_worker_rest (E : env) (url : string) :
  preserves (at_rest (styles_on_disk E)) (_thread_download_css E url).
Proof.
  intros s HP. unfold _thread_download_css. AssetsFacts.crunch.
  destruct (Py.index url (css E)) as [i|] eqn:Hi; [|done]. cbv beta iota.
  fold (css_file E i). rewrite bool_decide_true by (by eapply HP).
  unfold display_state. AssetsFacts.crunch.
  destruct (negb (css_ad_info s) && bool_decide (url ∉ take i (css E)));
    (destruct (decide (Z.of_nat (length (css E)) = 0%Z)); [done|]); by case_decide.
Qed.

Lemma images_worker_rest (E : env) (url : string) :
  url ∈ images E →
  preserves (at_rest (images_on_disk E)) (_thread_download_images E url).
Proof.
  intros Hu s HP. apply images_worker_cached. by apply HP.
Qed.

Lemma phase_rest (P : gmap string string → Prop) (operation : string → M depot unit)
    (queue : list string) (depth : nat) :
  (∀ arg, arg ∈ queue → preserves (at_rest P) (operation arg)) →
  preserves (at_rest P) (_start_multiprocessing depth operation queue false).
Proof.
  intros H. apply (multiprocessing_preserves_in (at_rest P) operation queue H);
    [by intros s x _ ..| done].
Qed.

End ResumeFacts.

Module ResumeProperties.
Import Assets Notions Terms Frame AssetsMore ResumeFacts.

(** X23. A download phase that finds the file of every stylesheet, or
    of every image, on disk makes no request and changes no file,
    however many batches it takes. *)
Theorem assets_resume_without_requests (E : env) (depth : nat) (s : depot) :
  let css_run :=
    _start_multiprocessing depth (_thread_download_css E) (css E) false s in
  let images_run :=
    _start_multiprocessing depth (_thread_download_images E) (images E) false s in
  (styles_on_disk E (files s) →
     files css_run.1 = files s ∧ asked css_run.1 = asked s)
  ∧ (images_on_disk E (files s) →
     files images_run.1 = files s ∧ asked images_run.1 = asked s).
Proof.
  split.
  - apply (phase_rest (styles_on_disk E) (_thread_download_css E) (css E) depth
             (λ arg _, css_worker_rest E arg) s).
  - apply (phase_rest (images_on_disk E) (_thread_download_images E) (images E) depth
             (images_worker_rest E) s).
Qed.

Lemma assets_resume_without_requests_witness :
  let css_run :=
    _start_multiprocessing 2 (_thread_download_css Demo.unreachable_sheet)
      [Demo.sheet_a; Demo.sheet_b] false Inputs.stocked in
  files css_run.1 = files Inputs.stocked ∧ asked css_run.1 = [].
Proof.
  destruct (assets_resume_without_requests Demo.unreachable_sheet 2 Inputs.stocked)
    as [H _].
  apply H. intros url i Hi. cbn in Hi.
  destruct (decide (Demo.sheet_a = url)); [injection Hi as <-; by vm_compute; eexists|].
  destruct (decide (Demo.sheet_b = url)); [injection Hi as <-; by vm_compute; eexists|].
  done.
Defined.

End ResumeProperties.
